(** * Problems API: filter translation, repository and analytics engine

    A shallow embedding of the TypeScript backend:
    - [parseFilters]      (utils/filter.utils.ts)
    - [ProblemRepository] (repositories/problem.repository.ts)
    - [AnalyticsService]  (services/analytics.service.ts)

    Conventions of the embedding.
    - A request query object is a finite map from parameter names to raw
      values; an absent key is the JavaScript [undefined].
    - A finite JavaScript number is the rational it denotes, NaN and the
      two infinities are constructors of their own, and the sign of a zero
      is not kept.  The sums, quotients and products the analytics take of
      durations and of percentages are rounded to the nearest binary64
      number, ties to even ([JS.roundDouble]); a count of documents is the
      integer it is.
    - Strings are byte strings in UTF-8: [trim] and [Number] know the
      white space beyond ASCII by its encoding, [toLowerCase] maps the
      ASCII letters.
    - [await] is sequencing: every repository operation is a function of the
      collection's current contents. *)

From Stdlib Require Import String Ascii List ZArith NArith QArith Qround Lia Lqa Bool.
From Stdlib Require Import Permutation Sorted.
From stdpp Require Import base option gmap strings list.

Import ListNotations.
Close Scope Q_scope.
Open Scope string_scope.

(** ** JavaScript values *)

Module JS.

(** A JavaScript number. *)
Inductive Num : Type :=
| NFin (q : Q)
| NNaN
| NPosInf
| NNegInf.

Definition ofNat (n : nat) : Num := NFin (inject_Z (Z.of_nat n)).
Definition ofZ (z : Z) : Num := NFin (inject_Z z).

(** [<] on rationals as a boolean. *)
Definition Qltb (a b : Q) : bool := negb (Qle_bool b a).

Definition isZero (q : Q) : bool := Qeq_bool q 0.

(** ToBoolean on numbers: 0 and NaN are falsy. *)
Definition numTruthy (x : Num) : bool :=
  match x with
  | NFin q => negb (isZero q)
  | NNaN => false
  | NPosInf | NNegInf => true
  end.

(** [x / y] with the quotient of two finite numbers as it is; the sign
    of a zero is not modelled, a zero divisor counts as [+0].  It stands
    for the quotient of two counts in [Math.ceil(total / limit)], where
    the rounding of the quotient does not show ([ceil_divide_counts]). *)
Definition div (x y : Num) : Num :=
  match x, y with
  | NNaN, _ | _, NNaN => NNaN
  | NFin a, NFin b =>
      if isZero b then
        if isZero a then NNaN
        else if Qltb 0 a then NPosInf else NNegInf
      else NFin (a / b)%Q
  | NFin _, (NPosInf | NNegInf) => NFin 0
  | (NPosInf | NNegInf), (NPosInf | NNegInf) => NNaN
  | NPosInf, NFin b => if Qltb b 0 then NNegInf else NPosInf
  | NNegInf, NFin b => if Qltb b 0 then NPosInf else NNegInf
  end.

(** *** Rounding to binary64 *)

(** [num / (den * 2^e)] as a fraction of two positive integers. *)
Definition scaled (num den e : Z) : Z * Z :=
  if (0 <=? e)%Z then (num, den * 2 ^ e)%Z else (num * 2 ^ (- e), den)%Z.

(** The integer nearest to [num / den], the even one on a tie. *)
Definition nearestEven (num den : Z) : Z :=
  let k := (num / den)%Z in
  let r := (num mod den)%Z in
  if (2 * r <? den)%Z then k
  else if (den <? 2 * r)%Z then (k + 1)%Z
  else if Z.even k then k else (k + 1)%Z.

(** The exponent [e] of the last place of the binary64 numbers around a
    positive [num / den]: [2^52 <= num / den / 2^e < 2^53], and -1074
    among the subnormal numbers.  The logarithms give the exponent up to
    one, the comparison settles it. *)
Definition lastPlace (num den : Z) : Z :=
  let l := (Z.log2 num - Z.log2 den - 52)%Z in
  let '(n, d) := scaled num den l in
  Z.max (-1074) (if (2 ^ 52 * d <=? n)%Z then l else l - 1)%Z.

(** The binary64 number nearest to a positive [num / den], the one with
    the even significand on a tie; none from [2^1024 - 2^970] on. *)
Definition nearestDouble (num den : Z) : option Q :=
  let e := lastPlace num den in
  let '(n, d) := scaled num den e in
  let m := nearestEven n d in
  if (0 <=? e)%Z
  then if (2 ^ 1024 <=? m * 2 ^ e)%Z then None
       else Some (inject_Z (m * 2 ^ e))
  else Some (Qred (Qmake m (Z.to_pos (2 ^ (- e))))).

(** The Number value for a rational: round to nearest, ties to even, the
    infinities on overflow. *)
Definition roundDouble (q : Q) : Num :=
  match Qnum q with
  | Z0 => NFin 0
  | Zpos n =>
      match nearestDouble (Zpos n) (Zpos (Qden q)) with
      | Some x => NFin x
      | None => NPosInf
      end
  | Zneg n =>
      match nearestDouble (Zpos n) (Zpos (Qden q)) with
      | Some x => NFin (- x)%Q
      | None => NNegInf
      end
  end.

(** [x + y] on doubles. *)
Definition add (x y : Num) : Num :=
  match x, y with
  | NNaN, _ | _, NNaN => NNaN
  | NFin a, NFin b => roundDouble (a + b)%Q
  | NPosInf, NNegInf | NNegInf, NPosInf => NNaN
  | NPosInf, _ | _, NPosInf => NPosInf
  | NNegInf, _ | _, NNegInf => NNegInf
  end.

(** [x / y] on doubles: the quotient of two finite numbers is rounded,
    the other cases are those of [div]. *)
Definition divide (x y : Num) : Num :=
  match x, y with
  | NFin a, NFin b => if isZero b then div x y else roundDouble (a / b)%Q
  | _, _ => div x y
  end.

(** [x * y] on doubles. *)
Definition multiply (x y : Num) : Num :=
  match x, y with
  | NNaN, _ | _, NNaN => NNaN
  | NFin a, NFin b => roundDouble (a * b)%Q
  | NFin a, NPosInf | NPosInf, NFin a =>
      if isZero a then NNaN else if Qltb 0 a then NPosInf else NNegInf
  | NFin a, NNegInf | NNegInf, NFin a =>
      if isZero a then NNaN else if Qltb 0 a then NNegInf else NPosInf
  | NPosInf, NPosInf | NNegInf, NNegInf => NPosInf
  | NPosInf, NNegInf | NNegInf, NPosInf => NNegInf
  end.

(** [Math.round]: the nearest integer, the upper one on a tie. *)
Definition round (x : Num) : Num :=
  match x with
  | NFin q => NFin (inject_Z (Qfloor (q + (1 # 2))%Q))
  | other => other
  end.

(** [Math.ceil]. *)
Definition ceil (x : Num) : Num :=
  match x with
  | NFin q => NFin (inject_Z (Qceiling q))
  | other => other
  end.

(** The decimal with two fraction digits nearest to a non-negative [q],
    the larger one on a tie. *)
Definition fixed2 (q : Q) : Q :=
  (inject_Z (Qfloor (q * 100 + (1 # 2))) / 100)%Q.

(** [Number(x.toFixed(2))]: [toFixed] rounds the magnitude of the exact
    value of [x] and puts the sign back, [Number] reads the decimal as
    the nearest double; "NaN" and "Infinity" read back as themselves. *)
Definition toFixed2 (x : Num) : Num :=
  match x with
  | NFin q => roundDouble (if Qltb q 0 then - fixed2 (- q) else fixed2 q)%Q
  | other => other
  end.

(** A raw request value: what a query string parser or a direct caller
    puts under a key.  Arrays hold strings. *)
Inductive Value : Type :=
| VStr (s : string)
| VBool (b : bool)
| VNum (x : Num)
| VArr (l : list string)
| VObj.

(** ToBoolean. *)
Definition truthy (v : Value) : bool :=
  match v with
  | VStr s => negb (String.eqb s "")
  | VBool b => b
  | VNum x => numTruthy x
  | VArr _ | VObj => true
  end.

(** [Array.isArray(v) ? v : [v]]. *)
Definition asArray (v : Value) : list Value :=
  match v with
  | VArr l => map VStr l
  | other => [other]
  end.

(** [v === 'true' || v === true]. *)
Definition isTrue (v : Value) : bool :=
  match v with
  | VStr s => String.eqb s "true"
  | VBool b => b
  | _ => false
  end.

(** [v === 'false' || v === false]. *)
Definition isFalse (v : Value) : bool :=
  match v with
  | VStr s => String.eqb s "false"
  | VBool b => negb b
  | _ => false
  end.

(** [String.prototype.toLowerCase], ASCII letters. *)
Definition lowerAscii (c : ascii) : ascii :=
  let n := nat_of_ascii c in
  if (65 <=? n)%nat && (n <=? 90)%nat then ascii_of_nat (n + 32) else c.

Fixpoint toLowerCase (s : string) : string :=
  match s with
  | EmptyString => EmptyString
  | String c s' => String (lowerAscii c) (toLowerCase s')
  end.

(** [hay.includes(needle)]. *)
Fixpoint includes (needle hay : string) : bool :=
  String.prefix needle hay
  || match hay with
     | EmptyString => false
     | String _ hay' => includes needle hay'
     end.

(** [Array.prototype.slice(0, end)] for an integral [end]: a negative
    [end] counts from the back. *)
Definition slice0 {A} (stop : Z) (l : list A) : list A :=
  if (stop <? 0)%Z
  then take (Z.to_nat (Z.max 0 (Z.of_nat (length l) + stop))) l
  else take (Z.to_nat stop) l.

(** *** White space *)

(** WhiteSpace and LineTerminator of one byte: U+0009 to U+000D, U+0020. *)
Definition isSpace1 (a : ascii) : bool :=
  let x := nat_of_ascii a in
  ((9 <=? x)%nat && (x <=? 13)%nat) || (x =? 32)%nat.

(** Of two bytes: U+00A0. *)
Definition isSpace2 (a b : ascii) : bool :=
  (nat_of_ascii a =? 194)%nat && (nat_of_ascii b =? 160)%nat.

(** Of three bytes: U+1680, U+2000 to U+200A, U+2028, U+2029, U+202F,
    U+205F, U+3000 and U+FEFF. *)
Definition isSpace3 (a b c : ascii) : bool :=
  let x := nat_of_ascii a in
  let y := nat_of_ascii b in
  let z := nat_of_ascii c in
  ((x =? 225)%nat && (y =? 154)%nat && (z =? 128)%nat)
  || ((x =? 226)%nat && (y =? 128)%nat
      && (((128 <=? z)%nat && (z <=? 138)%nat)
          || (z =? 168)%nat || (z =? 169)%nat || (z =? 175)%nat))
  || ((x =? 226)%nat && (y =? 129)%nat && (z =? 159)%nat)
  || ((x =? 227)%nat && (y =? 128)%nat && (z =? 128)%nat)
  || ((x =? 239)%nat && (y =? 187)%nat && (z =? 191)%nat).

(** The string after the white space character at its head, if it has
    one there. *)
Definition afterSpace (s : string) : option string :=
  match s with
  | EmptyString => None
  | String a r1 =>
      if isSpace1 a then Some r1
      else match r1 with
           | EmptyString => None
           | String b r2 =>
               if isSpace2 a b then Some r2
               else match r2 with
                    | EmptyString => None
                    | String c r3 => if isSpace3 a b c then Some r3 else None
                    end
           end
  end.

(** [s.trimStart()] *)
Fixpoint trimStart (s : string) : string :=
  match s with
  | EmptyString => s
  | String a r1 =>
      if isSpace1 a then trimStart r1
      else match r1 with
           | EmptyString => s
           | String b r2 =>
               if isSpace2 a b then trimStart r2
               else match r2 with
                    | EmptyString => s
                    | String c r3 => if isSpace3 a b c then trimStart r3 else s
                    end
           end
  end.

(** Whether a string is one white space character. *)
Definition isSpace (s : string) : bool :=
  match afterSpace s with
  | Some EmptyString => true
  | _ => false
  end.

(** [s.trimEnd()]: from the back, what has been kept so far is dropped
    when the next byte makes a white space character of it. *)
Fixpoint trimEnd (s : string) : string :=
  match s with
  | EmptyString => EmptyString
  | String a rest =>
      let kept := String a (trimEnd rest) in
      if isSpace kept then EmptyString else kept
  end.

(** [s.trim()] *)
Definition trim (s : string) : string := trimEnd (trimStart s).

(** *** Number(value) *)

(** The value of a digit in a base up to 16. *)
Definition digitOf (base : Z) (c : ascii) : option Z :=
  let n := Z.of_nat (nat_of_ascii c) in
  let d := if (48 <=? n)%Z && (n <=? 57)%Z then (n - 48)%Z
           else if (97 <=? n)%Z && (n <=? 102)%Z then (n - 87)%Z
           else if (65 <=? n)%Z && (n <=? 70)%Z then (n - 55)%Z
           else 16%Z in
  if (d <? base)%Z then Some d else None.

(** The digits at the head of a string: the number they write after the
    digits read so far, how many they are, and the rest. *)
Fixpoint digits (base : Z) (s : string) (value count : Z) : Z * Z * string :=
  match s with
  | EmptyString => (value, count, s)
  | String c rest =>
      match digitOf base c with
      | Some d => digits base rest (base * value + d)%Z (count + 1)%Z
      | None => (value, count, s)
      end
  end.

(** [mantissa * 10^e] *)
Definition timesPow10 (mantissa e : Z) : Q :=
  if (0 <=? e)%Z then inject_Z (mantissa * 10 ^ e)
  else Qmake mantissa (Z.to_pos (10 ^ (- e))).

(** ExponentPart, up to the end of the string: nothing, or [e] or [E],
    a sign if any, and digits. *)
Definition exponentPart (s : string) : option Z :=
  match s with
  | EmptyString => Some 0%Z
  | String c rest =>
      if Ascii.eqb c "e" || Ascii.eqb c "E" then
        let '(negative, rest) :=
          match rest with
          | String sign rest' =>
              if Ascii.eqb sign "+" then (false, rest')
              else if Ascii.eqb sign "-" then (true, rest')
              else (false, rest)
          | EmptyString => (false, rest)
          end in
        match digits 10 rest 0 0 with
        | (e, count, EmptyString) =>
            if (0 <? count)%Z then Some (if negative then - e else e)%Z
            else None
        | _ => None
        end
      else None
  end.

(** StrUnsignedDecimalLiteral: [Infinity], or digits with a point among
    them or in front or behind, and an exponent part if any. *)
Definition unsignedDecimal (s : string) : Num :=
  if String.eqb s "Infinity" then NPosInf
  else
    let '(whole, wholeCount, rest) := digits 10 s 0 0 in
    let '(mantissa, fractionCount, rest) :=
      match rest with
      | String c rest' =>
          if Ascii.eqb c "." then digits 10 rest' whole 0 else (whole, 0%Z, rest)
      | EmptyString => (whole, 0%Z, rest)
      end in
    if (0 <? wholeCount + fractionCount)%Z then
      match exponentPart rest with
      | Some e => roundDouble (timesPow10 mantissa (e - fractionCount))
      | None => NNaN
      end
    else NNaN.

Definition negate (x : Num) : Num :=
  match x with
  | NFin q => NFin (- q)%Q
  | NNaN => NNaN
  | NPosInf => NNegInf
  | NNegInf => NPosInf
  end.

(** The base a NonDecimalIntegerLiteral announces after its [0]. *)
Definition radixOf (c : ascii) : option Z :=
  if Ascii.eqb c "x" || Ascii.eqb c "X" then Some 16%Z
  else if Ascii.eqb c "o" || Ascii.eqb c "O" then Some 8%Z
  else if Ascii.eqb c "b" || Ascii.eqb c "B" then Some 2%Z
  else None.

(** StrDecimalLiteral: a sign if any, and an unsigned literal. *)
Definition decimal (s : string) : Num :=
  match s with
  | String c rest =>
      if Ascii.eqb c "+" then unsignedDecimal rest
      else if Ascii.eqb c "-" then negate (unsignedDecimal rest)
      else unsignedDecimal s
  | EmptyString => NNaN
  end.

(** StringToNumber: white space around the literal is dropped, the empty
    string is 0, a literal in base 16, 8 or 2 takes no sign, and what is
    no literal is NaN. *)
Definition stringToNumber (s : string) : Num :=
  match trim s with
  | EmptyString => NFin 0
  | String c0 (String c1 rest) as literal =>
      match (if Ascii.eqb c0 "0" then radixOf c1 else None) with
      | Some base =>
          match digits base rest 0 0 with
          | (value, count, EmptyString) =>
              if (0 <? count)%Z then roundDouble (inject_Z value) else NNaN
          | _ => NNaN
          end
      | None => decimal literal
      end
  | literal => decimal literal
  end.

(** [Number(v)]: an array goes through its [toString], the elements
    joined by commas, and an object through "[object Object]". *)
Definition toNumber (v : Value) : Num :=
  match v with
  | VStr s => stringToNumber s
  | VBool true => NFin 1
  | VBool false => NFin 0
  | VNum x => x
  | VArr [] => NFin 0
  | VArr [s] => stringToNumber s
  | VArr (_ :: _ :: _) => NNaN
  | VObj => NNaN
  end.

End JS.

(** ** ProblemFilters (types/problem.types.ts) *)

(** An optional field is an [option]; a field of type [boolean | null] that
    may also be missing is an [option (option bool)], with [Some None] for
    [null]. *)
Record ProblemFilters : Type := {
  f_impactLevel : option (list JS.Value);
  f_severityLevel : option (list JS.Value);
  f_status : option (list JS.Value);
  f_managementZones : option (list JS.Value);
  f_affectedEntityTypes : option (list JS.Value);
  f_entityTags : option (list JS.Value);
  f_evidenceType : option (list JS.Value);
  f_dateFrom : option JS.Value;
  f_dateTo : option JS.Value;
  f_search : option JS.Value;
  f_durationMin : option JS.Num;
  f_durationMax : option JS.Num;
  f_hasComments : option bool;
  f_hasGitHubActions : option bool;
  f_hasRootCause : option (option bool);
  f_autoremediado : option (option bool);
  f_funcionoAutoRemediacion : option (option bool)
}.

(** ** parseFilters (utils/filter.utils.ts) *)

Section ParseFilters.

(** The [Number(...)] conversion of a raw value. *)
Variable Number : JS.Value -> JS.Num.

(** [if (query.k) filters.k = Array.isArray(query.k) ? query.k : [query.k]] *)
Definition parseArray (query : gmap string JS.Value) (k : string)
  : option (list JS.Value) :=
  match query !! k with
  | Some v => if JS.truthy v then Some (JS.asArray v) else None
  | None => None
  end.

(** [if (query.k) filters.k = query.k as string] *)
Definition parseString (query : gmap string JS.Value) (k : string)
  : option JS.Value :=
  match query !! k with
  | Some v => if JS.truthy v then Some v else None
  | None => None
  end.

(** [if (query.k) filters.k = Number(query.k)] *)
Definition parseNumber (query : gmap string JS.Value) (k : string)
  : option JS.Num :=
  match query !! k with
  | Some v => if JS.truthy v then Some (Number v) else None
  | None => None
  end.

(** [if (query.k !== undefined)
       filters.k = query.k === 'true' || query.k === true] *)
Definition parseBoolean (query : gmap string JS.Value) (k : string)
  : option bool :=
  match query !! k with
  | Some v => Some (JS.isTrue v)
  | None => None
  end.

(** The three-branch form used for hasRootCause, autoremediado and
    funcionoAutoRemediacion. *)
Definition parseTriState (query : gmap string JS.Value) (k : string)
  : option (option bool) :=
  match query !! k with
  | Some v =>
      if JS.isTrue v then Some (Some true)
      else if JS.isFalse v then Some (Some false)
      else Some None
  | None => None
  end.

Definition parseFilters (query : gmap string JS.Value) : ProblemFilters :=
  {| f_impactLevel := parseArray query "impactLevel";
     f_severityLevel := parseArray query "severityLevel";
     f_status := parseArray query "status";
     f_managementZones := parseArray query "managementZones";
     f_affectedEntityTypes := parseArray query "affectedEntityTypes";
     f_entityTags := parseArray query "entityTags";
     f_evidenceType := parseArray query "evidenceType";
     f_dateFrom := parseString query "dateFrom";
     f_dateTo := parseString query "dateTo";
     f_search := parseString query "search";
     f_durationMin := parseNumber query "durationMin";
     f_durationMax := parseNumber query "durationMax";
     f_hasComments := parseBoolean query "hasComments";
     f_hasGitHubActions := parseBoolean query "hasGitHubActions";
     f_hasRootCause := parseTriState query "hasRootCause";
     f_autoremediado := parseTriState query "autoremediado";
     f_funcionoAutoRemediacion := parseTriState query "funcionoAutoRemediacion"
  |}.

End ParseFilters.


(** ** The store predicate built by the repository *)

(** [{ $gte: ..., $lte: ... }], either bound optional. *)
Record Range (A : Type) : Type := {
  r_gte : option A;
  r_lte : option A
}.
Arguments r_gte {A} _.
Arguments r_lte {A} _.

(** The two shapes written under ['recentComments.totalCount']. *)
Inductive TotalCountCond : Type :=
| GtZero      (* { $gt: 0 } *)
| EqZero.     (* 0 *)

(** [{ $regex: pattern, $options: options }]. *)
Record Regex : Type := {
  re_pattern : string;
  re_options : string
}.

(** [{ $ne: null, $exists: true }]. *)
Inductive RootCauseCond : Type :=
| NotNullAndExists.

(** The alternatives listed under [$or]. *)
Inductive OrClause : Type :=
| RootCauseIsNull          (* { rootCauseEntity: null } *)
| RootCauseNotExists.      (* { rootCauseEntity: { $exists: false } } *)

(** A MongoDB filter object as [buildFilter] can write it: one optional
    entry per key the function assigns; [None] is a key never assigned. *)
Record MongoFilter : Type := {
  m_impactLevel : option (list JS.Value);                 (* impactLevel: { $in } *)
  m_severityLevel : option (list JS.Value);               (* severityLevel: { $in } *)
  m_status : option (list JS.Value);                      (* status: { $in } *)
  m_managementZones_name : option (list JS.Value);        (* 'managementZones.name' *)
  m_affectedEntities_entityId_type : option (list JS.Value);
  m_entityTags_stringRepresentation : option (list JS.Value);
  m_startTime : option (Range JS.Value);
  m_recentComments_totalCount : option TotalCountCond;
  m_recentComments_comments_content : option Regex;
  m_evidenceDetails_details_evidenceType : option (list JS.Value);
  m_text : option JS.Value;                               (* $text: { $search } *)
  m_rootCauseEntity : option RootCauseCond;
  m_or : option (list OrClause);                          (* $or *)
  m_duration : option (Range JS.Num);
  m_autoremediado : option bool;
  m_funcionoAutoRemediacion : option bool
}.

(** [{}] *)
Definition emptyFilter : MongoFilter :=
  {| m_impactLevel := None; m_severityLevel := None; m_status := None;
     m_managementZones_name := None;
     m_affectedEntities_entityId_type := None;
     m_entityTags_stringRepresentation := None;
     m_startTime := None;
     m_recentComments_totalCount := None;
     m_recentComments_comments_content := None;
     m_evidenceDetails_details_evidenceType := None;
     m_text := None; m_rootCauseEntity := None; m_or := None;
     m_duration := None; m_autoremediado := None;
     m_funcionoAutoRemediacion := None |}.

(** ** ProblemRepository.buildFilter *)

(** [if (xs && xs.length > 0) mongoFilter[key] = { $in: xs }] *)
Definition inClause (xs : option (list JS.Value)) : option (list JS.Value) :=
  match xs with
  | Some (x :: rest) => Some (x :: rest)
  | _ => None
  end.

(** An optional string-typed field in a condition. *)
Definition present (v : option JS.Value) : bool :=
  match v with
  | Some x => JS.truthy x
  | None => false
  end.

Definition whenPresent (v : option JS.Value) : option JS.Value :=
  if present v then v else None.

Definition buildFilter (filters : ProblemFilters) : MongoFilter :=
  {| m_impactLevel := inClause (f_impactLevel filters);
     m_severityLevel := inClause (f_severityLevel filters);
     m_status := inClause (f_status filters);
     m_managementZones_name := inClause (f_managementZones filters);
     m_affectedEntities_entityId_type := inClause (f_affectedEntityTypes filters);
     m_entityTags_stringRepresentation := inClause (f_entityTags filters);
     (* Date range filter *)
     m_startTime :=
       if present (f_dateFrom filters) || present (f_dateTo filters)
       then Some {| r_gte := whenPresent (f_dateFrom filters);
                    r_lte := whenPresent (f_dateTo filters) |}
       else None;
     (* Has comments filter *)
     m_recentComments_totalCount :=
       match f_hasComments filters with
       | Some true => Some GtZero
       | Some false => Some EqZero
       | None => None
       end;
     (* GitHub Actions filter *)
     m_recentComments_comments_content :=
       match f_hasGitHubActions filters with
       | Some true => Some {| re_pattern := "GitHub Actions"; re_options := "i" |}
       | _ => None
       end;
     m_evidenceDetails_details_evidenceType := inClause (f_evidenceType filters);
     (* Text search filter *)
     m_text := whenPresent (f_search filters);
     (* Root Cause filter *)
     m_rootCauseEntity :=
       match f_hasRootCause filters with
       | Some (Some true) => Some NotNullAndExists
       | _ => None
       end;
     m_or :=
       match f_hasRootCause filters with
       | Some (Some false) => Some [RootCauseIsNull; RootCauseNotExists]
       | _ => None
       end;
     (* Duration filter *)
     m_duration :=
       match f_durationMin filters, f_durationMax filters with
       | None, None => None
       | lo, hi => Some {| r_gte := lo; r_lte := hi |}
       end;
     (* Autoremediado filter *)
     m_autoremediado :=
       match f_autoremediado filters with
       | Some (Some b) => Some b
       | _ => None
       end;
     (* FuncionoAutoRemediacion filter *)
     m_funcionoAutoRemediacion :=
       match f_funcionoAutoRemediacion filters with
       | Some (Some b) => Some b
       | _ => None
       end
  |}.

(** ** Problem documents *)

Record Comment : Type := {
  content : string;
  author : string
}.

Record RecentComments : Type := {
  totalCount : Z;
  (** the code guards every read with [p.recentComments.comments && ...] *)
  comments : option (list Comment)
}.

(** [id] and [name] are optional: a document fetched through a projection
    that does not list them comes back without them, and a [Map] accepts
    [undefined] as a key. *)
Record EntityId : Type := {
  id : option string;
  type : option string
}.

Record AffectedEntity : Type := {
  name : option string;
  entityId : EntityId
}.

(** The fields the modelled operations read or write.  [duration] is the
    stored number of minutes; [None] stands for a missing, null or NaN
    value, all of which [problem.duration || 0] turns into 0. *)
Record Problem : Type := {
  problemId : string;
  status : string;
  impactLevel : string;
  severityLevel : string;
  startTime : string;
  duration : option Q;
  affectedEntities : list AffectedEntity;
  recentComments : RecentComments
}.

(** ** The document store *)

Inductive SortOrder : Type := asc | desc.

(** What the repository relies on from the MongoDB collection: which
    documents a filter object selects, how a cursor orders documents by a
    field, and what the analytics projection keeps of a document. *)
Class Store : Type := {
  matches : MongoFilter -> Problem -> bool;
  sortDocs : string -> Z -> list Problem -> list Problem;
  project : Problem -> Problem
}.

(** An update document: the operators the repository sends. *)
Record UpdateDoc : Type := {
  u_set_status : option string;        (* $set: { status } *)
  u_push_comment : option Comment;     (* $push: { 'recentComments.comments': c } *)
  u_inc_totalCount : option Z          (* $inc: { 'recentComments.totalCount': n } *)
}.

Module Collection.
Section WithStore.
Context {store : Store}.

(** [collection.find(filter)] *)
Definition find (filter : MongoFilter) (docs : list Problem) : list Problem :=
  List.filter (matches filter) docs.

(** [collection.countDocuments(filter)] *)
Definition countDocuments (filter : MongoFilter) (docs : list Problem) : nat :=
  length (find filter docs).

(** [cursor.limit(n)] for a count [n]: a limit of 0 is no limit. *)
Definition limit (n : N) (docs : list Problem) : list Problem :=
  if (n =? 0)%N then docs else take (N.to_nat n) docs.

(** [cursor.skip(n)]; the store rejects a negative skip. *)
Definition skip (n : Z) (docs : list Problem) : option (list Problem) :=
  if (n <? 0)%Z then None else Some (drop (Z.to_nat n) docs).

(** [$push] creates the array when the field is missing. *)
Definition push (c : Comment) (cs : option (list Comment)) : option (list Comment) :=
  match cs with
  | Some l => Some (l ++ [c])%list
  | None => Some [c]
  end.

(** One document under an update document; all operators are applied in
    the same write. *)
Definition applyUpdate (u : UpdateDoc) (p : Problem) : Problem :=
  {| problemId := problemId p;
     status := default (status p) (u_set_status u);
     impactLevel := impactLevel p;
     severityLevel := severityLevel p;
     startTime := startTime p;
     duration := duration p;
     affectedEntities := affectedEntities p;
     recentComments :=
       {| totalCount :=
            match u_inc_totalCount u with
            | Some n => (totalCount (recentComments p) + n)%Z
            | None => totalCount (recentComments p)
            end;
          comments :=
            match u_push_comment u with
            | Some c => push c (comments (recentComments p))
            | None => comments (recentComments p)
            end |} |}.

(** [collection.findOne({ problemId })] *)
Fixpoint findOne (pid : string) (docs : list Problem) : option Problem :=
  match docs with
  | [] => None
  | p :: rest => if String.eqb (problemId p) pid then Some p else findOne pid rest
  end.

(** [collection.findOneAndUpdate({ problemId }, u, { returnDocument: 'after' })]:
    the first document with that id is replaced by its update, which is
    also the result; no match leaves the collection alone and gives null. *)
Fixpoint findOneAndUpdate (pid : string) (u : UpdateDoc) (docs : list Problem)
  : list Problem * option Problem :=
  match docs with
  | [] => ([], None)
  | p :: rest =>
      if String.eqb (problemId p) pid
      then (applyUpdate u p :: rest, Some (applyUpdate u p))
      else let '(rest', r) := findOneAndUpdate pid u rest in (p :: rest', r)
  end.

End WithStore.
End Collection.

(** ** ProblemRepository *)

Record PaginatedProblemsResponse : Type := {
  problems : list Problem;
  total : nat;
  page : N;
  limit : N;
  totalPages : JS.Num
}.

Module ProblemRepository.
Section WithStore.
Context {store : Store}.

(** [findAll(filters, page = 1, limit = 10, sortBy = 'startTime',
    sortOrder = 'desc')] on a collection holding [docs].  [None] is a
    rejected promise. *)
Definition findAll (filters : ProblemFilters) (page limit : option N)
    (sortBy : option string) (sortOrder : option SortOrder)
    (docs : list Problem) : option PaginatedProblemsResponse :=
  let page := default 1%N page in
  let limit := default 10%N limit in
  let sortBy := default "startTime" sortBy in
  let sortOrder := default desc sortOrder in
  let mongoFilter := buildFilter filters in
  let skip := ((Z.of_N page - 1) * Z.of_N limit)%Z in
  let sort := (sortBy, match sortOrder with asc => 1%Z | desc => (-1)%Z end) in
  match Collection.skip skip (sortDocs (fst sort) (snd sort) (Collection.find mongoFilter docs)) with
  | None => None
  | Some skipped =>
      let problems := Collection.limit limit skipped in
      let total := Collection.countDocuments mongoFilter docs in
      Some {| problems := problems;
              total := total;
              page := page;
              limit := limit;
              totalPages :=
                JS.ceil (JS.div (JS.ofNat total) (JS.ofZ (Z.of_N limit))) |}
  end.

(** [findById(problemId)] *)
Definition findById (pid : string) (docs : list Problem) : option Problem :=
  Collection.findOne pid docs.

(** [findAllProblems(filters?, limit?)]: the projected documents, capped. *)
Definition findAllProblems (filters : option ProblemFilters) (limit : option N)
    (docs : list Problem) : list Problem :=
  let mongoFilter :=
    match filters with
    | Some f => buildFilter f
    | None => emptyFilter
    end in
  let query := map project (Collection.find mongoFilter docs) in
  match limit with
  | Some n =>
      (* if (limit) *)
      if negb (n =? 0)%N then Collection.limit n query
      else Collection.limit 10000 query
  | None => Collection.limit 10000 query
  end.

(** [updateStatus(problemId, status)] *)
Definition updateStatus (pid : string) (st : string) (docs : list Problem)
  : list Problem * option Problem :=
  Collection.findOneAndUpdate pid
    {| u_set_status := Some st; u_push_comment := None; u_inc_totalCount := None |}
    docs.

(** [addComment(problemId, comment)] *)
Definition addComment (pid : string) (comment : Comment) (docs : list Problem)
  : list Problem * option Problem :=
  Collection.findOneAndUpdate pid
    {| u_set_status := None;
       u_push_comment := Some comment;
       u_inc_totalCount := Some 1%Z |}
    docs.

End WithStore.
End ProblemRepository.

(** ** AnalyticsService *)

Record DashboardKPIs : Type := {
  totalProblems : nat;
  openProblems : nat;
  closedProblems : nat;
  totalDuration : JS.Num;
  avgResolutionTime : JS.Num;
  problemsWithComments : nat;
  githubActionProblems : nat;
  criticalProblems : nat
}.

(** A value of the [entityMap] in [getTopEntities]. *)
Record EntityCount : Type := {
  ec_name : option string;
  ec_type : option string;
  ec_count : nat
}.

(** An element of the [entities] array [getTopEntities] returns. *)
Record TopEntity : Type := {
  te_name : option string;
  te_type : option string;
  problemCount : nat
}.

Record Stage : Type := {
  stage_name : string;
  stage_count : nat;
  percentage : JS.Num
}.

(** The [categories] object of [getDurationDistribution]; a key that
    starts with a digit gets a leading [c]. *)
Record Categories : Type := {
  less_than_5 : nat;
  c5_to_10 : nat;
  c10_to_30 : nat;
  c30_to_180 : nat;
  more_than_180 : nat
}.

Module AnalyticsService.

(** [problem.duration || 0] *)
Definition durationOrZero (p : Problem) : Q := default 0%Q (duration p).

Definition isClosed (p : Problem) : bool := String.eqb (status p) "CLOSED".
Definition isOpen (p : Problem) : bool := String.eqb (status p) "OPEN".

(** [p.recentComments.totalCount > 0] *)
Definition hasComments (p : Problem) : bool :=
  (0 <? totalCount (recentComments p))%Z.

(** [p.recentComments.comments &&
     p.recentComments.comments.some(c => test(c.content.toLowerCase()))] *)
Definition someComment (test : string -> bool) (p : Problem) : bool :=
  match comments (recentComments p) with
  | Some cs => existsb (fun c => test (JS.toLowerCase (content c))) cs
  | None => false
  end.

Definition mentionsGitHubActions : Problem -> bool :=
  someComment (JS.includes "github actions").

Definition mentionsSuccess : Problem -> bool :=
  someComment (fun s => JS.includes "success" s || JS.includes "completed" s).

Definition isCritical (p : Problem) : bool :=
  String.eqb (severityLevel p) "AVAILABILITY" || String.eqb (severityLevel p) "ERROR".

(** *** getKPIs *)

(** [problem.duration || 0] as the Number the arithmetic works on: the
    double that holds the stored number of minutes. *)
Definition durationNumber (p : Problem) : JS.Num :=
  JS.roundDouble (durationOrZero p).

(** The body of the [forEach] in [getKPIs], on the pair
    [(totalDuration, resolutionTimes)]: [totalDuration += duration] and,
    for a CLOSED record, [resolutionTimes.push(duration)]. *)
Definition kpiStep (acc : JS.Num * list JS.Num) (problem : Problem)
  : JS.Num * list JS.Num :=
  let duration := durationNumber problem in
  let totalDuration := JS.add (fst acc) duration in
  if isClosed problem
  then (totalDuration, (snd acc ++ [duration])%list)
  else (totalDuration, snd acc).

(** [times.reduce((a, b) => a + b, 0)] *)
Definition reduceAdd (times : list JS.Num) : JS.Num :=
  fold_left JS.add times (JS.NFin 0).

(** [getKPIs] once [problems] has been fetched. *)
Definition getKPIs_body (problems : list Problem) : DashboardKPIs :=
  let '(totalDuration, resolutionTimes) :=
    fold_left kpiStep problems (JS.NFin 0, []) in
  {| totalProblems := length problems;
     openProblems := length (List.filter isOpen problems);
     closedProblems := length (List.filter isClosed problems);
     totalDuration := totalDuration;
     avgResolutionTime :=
       if (0 <? length resolutionTimes)%nat
       then JS.round (JS.divide (reduceAdd resolutionTimes)
                                (JS.ofNat (length resolutionTimes)))
       else JS.NFin 0;
     problemsWithComments := length (List.filter hasComments problems);
     githubActionProblems := length (List.filter mentionsGitHubActions problems);
     criticalProblems := length (List.filter isCritical problems) |}.

(** *** getTopEntities *)

(** The [has]/[get]/[set] step on the [entityMap], a [Map] in insertion
    order: an existing key has its count incremented in place, a new key
    is added at the end with the name and type of this first occurrence. *)
Fixpoint countEntity (entity : AffectedEntity)
    (entityMap : list (option string * EntityCount))
  : list (option string * EntityCount) :=
  match entityMap with
  | [] =>
      [(id (entityId entity),
        {| ec_name := name entity;
           ec_type := type (entityId entity);
           ec_count := 1 |})]
  | (k, e) :: rest =>
      if bool_decide (k = id (entityId entity))
      then (k, {| ec_name := ec_name e; ec_type := ec_type e;
                  ec_count := S (ec_count e) |}) :: rest
      else (k, e) :: countEntity entity rest
  end.

(** The two nested [forEach] loops. *)
Definition buildEntityMap (problems : list Problem)
  : list (option string * EntityCount) :=
  fold_left
    (fun entityMap problem =>
       fold_left (fun m entity => countEntity entity m)
                 (affectedEntities problem) entityMap)
    problems [].

(** [Array.prototype.sort((a, b) => b.count - a.count)]: a stable sort, so
    an element goes in front of the first one whose count is not larger. *)
Fixpoint insertByCount (a : EntityCount) (sorted : list EntityCount)
  : list EntityCount :=
  match sorted with
  | [] => [a]
  | b :: rest =>
      if (ec_count a <? ec_count b)%nat
      then b :: insertByCount a rest
      else a :: b :: rest
  end.

Definition sortByCount (l : list EntityCount) : list EntityCount :=
  foldr insertByCount [] l.

Definition toTopEntity (entity : EntityCount) : TopEntity :=
  {| te_name := ec_name entity;
     te_type := ec_type entity;
     problemCount := ec_count entity |}.

(** [getTopEntities(limit = 10, filters)] once [problems] has been
    fetched; [limit] is the integer [slice] makes of its argument. *)
Definition getTopEntities_body (limit : option Z) (problems : list Problem)
  : list TopEntity :=
  let limit := default 10%Z limit in
  let entityMap := buildEntityMap problems in
  map toTopEntity (JS.slice0 limit (sortByCount (map snd entityMap))).

(** *** getRemediationFunnel *)

(** [(count / totalProblems) * 100] *)
Definition ratioTimes100 (count totalProblems : nat) : JS.Num :=
  JS.multiply (JS.divide (JS.ofNat count) (JS.ofNat totalProblems)) (JS.NFin 100).

(** [Number(((count / totalProblems) * 100).toFixed(2))] *)
Definition percentOf (count totalProblems : nat) : JS.Num :=
  JS.toFixed2 (ratioTimes100 count totalProblems).

Definition getRemediationFunnel_body (problems : list Problem) : list Stage :=
  let totalProblems := length problems in
  let problemsWithComments := List.filter hasComments problems in
  let problemsWithGitHubActions :=
    List.filter mentionsGitHubActions problemsWithComments in
  let problemsWithSuccess :=
    List.filter mentionsSuccess problemsWithGitHubActions in
  let closedProblems := List.filter isClosed problems in
  [ {| stage_name := "Total Problems";
       stage_count := totalProblems;
       percentage := JS.NFin 100 |};
    {| stage_name := "With Comments";
       stage_count := length problemsWithComments;
       percentage := percentOf (length problemsWithComments) totalProblems |};
    {| stage_name := "GitHub Actions Initiated";
       stage_count := length problemsWithGitHubActions;
       percentage := percentOf (length problemsWithGitHubActions) totalProblems |};
    {| stage_name := "Remediation Successful";
       stage_count := length problemsWithSuccess;
       percentage := percentOf (length problemsWithSuccess) totalProblems |};
    {| stage_name := "Closed";
       stage_count := length closedProblems;
       percentage := percentOf (length closedProblems) totalProblems |} ].

(** *** getDurationDistribution *)

(** The body of the [forEach]: the [if]/[else if] chain on the duration. *)
Definition countDuration (categories : Categories) (problem : Problem) : Categories :=
  let duration := durationOrZero problem in
  let '{| less_than_5 := a; c5_to_10 := b; c10_to_30 := c;
          c30_to_180 := d; more_than_180 := e |} := categories in
  if JS.Qltb duration 5 then
    {| less_than_5 := S a; c5_to_10 := b; c10_to_30 := c;
       c30_to_180 := d; more_than_180 := e |}
  else if JS.Qltb duration 10 then
    {| less_than_5 := a; c5_to_10 := S b; c10_to_30 := c;
       c30_to_180 := d; more_than_180 := e |}
  else if JS.Qltb duration 30 then
    {| less_than_5 := a; c5_to_10 := b; c10_to_30 := S c;
       c30_to_180 := d; more_than_180 := e |}
  else if JS.Qltb duration 180 then
    {| less_than_5 := a; c5_to_10 := b; c10_to_30 := c;
       c30_to_180 := S d; more_than_180 := e |}
  else
    {| less_than_5 := a; c5_to_10 := b; c10_to_30 := c;
       c30_to_180 := d; more_than_180 := S e |}.

Definition getDurationDistribution_body (problems : list Problem) : Categories :=
  fold_left countDuration problems
    {| less_than_5 := 0; c5_to_10 := 0; c10_to_30 := 0;
       c30_to_180 := 0; more_than_180 := 0 |}.

(** *** The methods: fetch, then aggregate *)

Section WithStore.
Context {store : Store}.

Definition getKPIs (filters : option ProblemFilters) (docs : list Problem) :=
  getKPIs_body (ProblemRepository.findAllProblems filters None docs).

Definition getTopEntities (limit : option Z) (filters : option ProblemFilters)
    (docs : list Problem) :=
  getTopEntities_body limit (ProblemRepository.findAllProblems filters None docs).

Definition getRemediationFunnel (filters : option ProblemFilters)
    (docs : list Problem) :=
  getRemediationFunnel_body (ProblemRepository.findAllProblems filters None docs).

Definition getDurationDistribution (filters : option ProblemFilters)
    (docs : list Problem) :=
  getDurationDistribution_body
    (ProblemRepository.findAllProblems filters None docs).

End WithStore.
End AnalyticsService.

(** ** Operations beside the repository core *)

(** *** Controllers: the rest object of a destructured query *)

(** [const { k1, k2, ...queryFilters } = req.query]: [queryFilters] is the
    query without the named keys. *)
Definition restWithout (keys : list string) (query : gmap string JS.Value)
  : gmap string JS.Value :=
  foldr delete query keys.

Section Controllers.
Variable Number : JS.Value -> JS.Num.

(** problem.controller [getProblems]: the filters handed to the service. *)
Definition getProblems_filters (query : gmap string JS.Value) : ProblemFilters :=
  parseFilters Number (restWithout ["page"; "limit"; "sortBy"; "sortOrder"] query).

(** analytics.controller [getTimeSeries], [getAutoremediationTimeSeries]
    and [getAverageResolutionTimeTimeSeries]. *)
Definition getTimeSeries_filters (query : gmap string JS.Value) : ProblemFilters :=
  parseFilters Number (restWithout ["granularity"] query).

(** analytics.controller [getTopEntities]. *)
Definition getTopEntities_filters (query : gmap string JS.Value) : ProblemFilters :=
  parseFilters Number (restWithout ["limit"] query).

End Controllers.

(** The keys [parseFilters] reads, by the way it reads them. *)
Definition arrayKeys : list string :=
  ["impactLevel"; "severityLevel"; "status"; "managementZones";
   "affectedEntityTypes"; "entityTags"; "evidenceType"].

(** The keys guarded by [if (query.k)]. *)
Definition truthyKeys : list string :=
  (arrayKeys ++ ["dateFrom"; "dateTo"; "search"; "durationMin"; "durationMax"])%list.

(** The keys guarded by [if (query.k !== undefined)]. *)
Definition definedKeys : list string :=
  ["hasComments"; "hasGitHubActions"; "hasRootCause"; "autoremediado";
   "funcionoAutoRemediacion"].

Definition filterKeys : list string := (truthyKeys ++ definedKeys)%list.

(** *** The CORS origin callback of [createApp] (app.ts) *)

Module Cors.

(** [s.split(',')] *)
Fixpoint splitComma (s : string) : list string :=
  match s with
  | EmptyString => [EmptyString]
  | String c rest =>
      if Ascii.eqb c ","
      then EmptyString :: splitComma rest
      else match splitComma rest with
           | piece :: pieces => String c piece :: pieces
           | [] => [String c EmptyString]
           end
  end.

(** [origin.trim()] *)
Definition trim (s : string) : string := JS.trim s.

(** [config.cors.origin.split(',').map(origin => origin.trim())] *)
Definition allowedOrigins (configured : string) : list string :=
  map trim (splitComma configured).

(** [xs.includes(x)] on strings. *)
Definition includesString (x : string) (xs : list string) : bool :=
  existsb (String.eqb x) xs.

(** The [origin] option of [cors(...)]: [true] is [callback(null, true)],
    [false] is [callback(new Error('Not allowed by CORS'))].  [None] is a
    request without an Origin header. *)
Definition originAllowed (configured : string) (origin : option string) : bool :=
  match origin with
  | None => true
  | Some o =>
      if String.eqb o "" then true    (* if (!origin) *)
      else includesString o (allowedOrigins configured)
           || includesString "*" (allowedOrigins configured)
  end.

End Cors.

(** *** The serverless entry point (serverless.ts) *)

Module Serverless.

Inductive Response : Type :=
| Handled             (* return app(req, res) *)
| InternalError.      (* res.status(500).json(...) *)

(** What one invocation meets: whether [database.connect()] would resolve
    and whether [app(req, res)] returns. *)
Record Invocation : Type := {
  connectResolves : bool;
  appReturns : bool
}.

(** What one invocation does: the new [isConnected], whether
    [database.connect()] was called, and the answer. *)
Record Step : Type := {
  connectedAfter : bool;
  connectCalled : bool;
  response : Response
}.

(** The default export, from the module-level [isConnected]. *)
Definition handler (isConnected : bool) (inv : Invocation) : Step :=
  if isConnected then
    {| connectedAfter := true; connectCalled := false;
       response := if appReturns inv then Handled else InternalError |}
  else if connectResolves inv then
    {| connectedAfter := true; connectCalled := true;
       response := if appReturns inv then Handled else InternalError |}
  else
    {| connectedAfter := false; connectCalled := true;
       response := InternalError |}.

(** The invocations of one warm instance, in order. *)
Fixpoint run (isConnected : bool) (invs : list Invocation) : list Step :=
  match invs with
  | [] => []
  | inv :: rest =>
      let step := handler isConnected inv in
      step :: run (connectedAfter step) rest
  end.

End Serverless.

(** *** ProblemRepository.getFilterOptions *)

Record EntityTag : Type := {
  stringRepresentation : option string
}.

(** A document as [find({}, { projection: { entityTags: 1 } })] returns it. *)
Record TagDoc : Type := {
  entityTags : option (list EntityTag)
}.

Record FilterOptions : Type := {
  impactLevels : list string;
  severityLevels : list string;
  statuses : list string;
  fo_managementZones : list string;
  entityTypes : list string;
  evidenceTypes : list string;
  tags : list string
}.

Module FilterOptionsOps.

(** [tags.add(s)] on a [Set] in insertion order. *)
Definition setAdd (s : string) (set : list string) : list string :=
  if existsb (String.eqb s) set then set else (set ++ [s])%list.

(** The inner [forEach]: [if (tag.stringRepresentation) tags.add(...)]. *)
Definition addTag (set : list string) (tag : EntityTag) : list string :=
  match stringRepresentation tag with
  | Some s => if negb (String.eqb s "") then setAdd s set else set
  | None => set
  end.

(** The outer [forEach]: [problem.entityTags?.forEach(...)]. *)
Definition addTagsOf (set : list string) (problem : TagDoc) : list string :=
  match entityTags problem with
  | Some ts => fold_left addTag ts set
  | None => set
  end.

Definition collectTags (allProblems : list TagDoc) : list string :=
  fold_left addTagsOf allProblems [].

Section WithDistinct.

(** [collection.distinct(field)]; [None] is a null among the values. *)
Variable distinct : string -> list (option string).

(** [getDistinctValues(field)] *)
Definition getDistinctValues (field : string) : list string :=
  omap (fun v => v) (distinct field).

(** [getFilterOptions()], [allProblems] being the tag documents. *)
Definition getFilterOptions (allProblems : list TagDoc) : FilterOptions :=
  {| impactLevels := getDistinctValues "impactLevel";
     severityLevels := getDistinctValues "severityLevel";
     statuses := getDistinctValues "status";
     fo_managementZones := getDistinctValues "managementZones.name";
     entityTypes := getDistinctValues "affectedEntities.entityId.type";
     evidenceTypes := getDistinctValues "evidenceDetails.details.evidenceType";
     tags := collectTags allProblems |}.

End WithDistinct.
End FilterOptionsOps.

(** *** Repository: sequences of mutations and pages *)

Inductive Mutation : Type :=
| SetStatus (pid st : string)            (* updateStatus(pid, st) *)
| AddComment (pid : string) (c : Comment).  (* addComment(pid, c) *)

(** The collection after one mutation. *)
Definition applyMutation (docs : list Problem) (m : Mutation) : list Problem :=
  match m with
  | SetStatus pid st => fst (ProblemRepository.updateStatus pid st docs)
  | AddComment pid c => fst (ProblemRepository.addComment pid c docs)
  end.

(** [totalCount] equals the length of the comments list, a missing list
    counting as empty. *)
Definition commentsConsistent (p : Problem) : Prop :=
  totalCount (recentComments p)
  = Z.of_nat (length (default [] (comments (recentComments p)))).

(** The [problems] of a [findAll] response, nothing for a rejected call. *)
Definition pageProblems {store : Store} (filters : ProblemFilters)
    (page limit : N) (sortBy : option string) (sortOrder : option SortOrder)
    (docs : list Problem) : list Problem :=
  match ProblemRepository.findAll filters (Some page) (Some limit)
          sortBy sortOrder docs with
  | Some r => problems r
  | None => []
  end.

(** The documents [findAll] pages through: the selection in cursor order. *)
Definition sortedSelection {store : Store} (filters : ProblemFilters)
    (sortBy : option string) (sortOrder : option SortOrder)
    (docs : list Problem) : list Problem :=
  sortDocs (default "startTime" sortBy)
           (match default desc sortOrder with asc => 1%Z | desc => (-1)%Z end)
           (Collection.find (buildFilter filters) docs).

(** *** AnalyticsService: the views over root causes and evidence *)

(** An element of a [data] array, and of the [children] of a breakdown. *)
Record NamedValue : Type := {
  nv_name : string;
  nv_value : nat
}.

(** An element of the [breakdown] array of [getEvidenceTypes]. *)
Record EvidenceGroup : Type := {
  eg_name : string;
  eg_children : list NamedValue
}.

(** A root cause object by what the code asks of it: its own [name] (a
    string, as the type declares) and how many other own keys it has. *)
Record RootCauseEntity : Type := {
  rc_name : option string;
  rc_otherKeys : nat
}.

Record Evidence : Type := {
  evidenceType : string;
  eventType : option string
}.

(** A problem document with the fields these views read besides those of
    [Problem]; [rootCauseEntity] is [None] when missing and [Some None]
    when null. *)
Record ProblemDoc : Type := {
  pd_problem : Problem;
  rootCauseEntity : option (option RootCauseEntity);
  evidenceDetails : list Evidence     (* evidenceDetails.details *)
}.

Module AnalyticsViews.
Import AnalyticsService.

(** [map.set(k, (map.get(k) || 0) + 1)] on a [Map] in insertion order. *)
Fixpoint increment (k : string) (m : list (string * nat)) : list (string * nat) :=
  match m with
  | [] => [(k, 1)]
  | (k', n) :: rest =>
      if String.eqb k' k then (k', n + 1) :: rest
      else (k', n) :: increment k rest
  end.

(** [sort((a, b) => b.value - a.value)], stable. *)
Fixpoint insertByValue (a : NamedValue) (sorted : list NamedValue)
  : list NamedValue :=
  match sorted with
  | [] => [a]
  | b :: rest =>
      if (nv_value a <? nv_value b)%nat
      then b :: insertByValue a rest
      else a :: b :: rest
  end.

Definition sortByValue (l : list NamedValue) : list NamedValue :=
  foldr insertByValue [] l.

Definition toNamedValue (entry : string * nat) : NamedValue :=
  {| nv_name := fst entry; nv_value := snd entry |}.

(** *** getRootCauseAnalysis *)

(** [problem.rootCauseEntity && problem.rootCauseEntity.name], when truthy. *)
Definition rootCauseName (p : ProblemDoc) : option string :=
  match rootCauseEntity p with
  | Some (Some rc) =>
      match rc_name rc with
      | Some s => if String.eqb s "" then None else Some s
      | None => None
      end
  | _ => None
  end.

Definition countRootCause (rootCauseMap : list (string * nat)) (p : ProblemDoc)
  : list (string * nat) :=
  match rootCauseName p with
  | Some n => increment n rootCauseMap
  | None => rootCauseMap
  end.

Definition getRootCauseAnalysis_body (problems : list ProblemDoc) : list NamedValue :=
  sortByValue (map toNamedValue (fold_left countRootCause problems [])).

(** *** getRootCauseDistribution and getHasRootCauseDistribution *)

(** [p.rootCauseEntity !== null && p.rootCauseEntity !== undefined] *)
Definition rootCausePresent (p : ProblemDoc) : bool :=
  match rootCauseEntity p with
  | Some (Some _) => true
  | _ => false
  end.

(** [Object.keys(rc).length] *)
Definition ownKeys (rc : RootCauseEntity) : nat :=
  match rc_name rc with
  | Some _ => 1
  | None => 0
  end + rc_otherKeys rc.

(** [... && Object.keys(p.rootCauseEntity).length > 0] *)
Definition rootCauseNonEmpty (p : ProblemDoc) : bool :=
  match rootCauseEntity p with
  | Some (Some rc) => (0 <? ownKeys rc)%nat
  | _ => false
  end.

Definition getRootCauseDistribution_body (problems : list ProblemDoc)
  : list NamedValue :=
  let withRootCause := length (List.filter rootCausePresent problems) in
  let withoutRootCause := length problems - withRootCause in
  [ {| nv_name := "With Root Cause"; nv_value := withRootCause |};
    {| nv_name := "Without Root Cause"; nv_value := withoutRootCause |} ].

Definition getHasRootCauseDistribution_body (problems : list ProblemDoc)
  : list NamedValue :=
  let withRootCause := length (List.filter rootCauseNonEmpty problems) in
  let withoutRootCause := length problems - withRootCause in
  [ {| nv_name := "Sí"; nv_value := withRootCause |};
    {| nv_name := "No"; nv_value := withoutRootCause |} ].

(** *** getAutoremediadoDistribution *)

Definition getAutoremediadoDistribution_body (problems : list Problem)
  : list NamedValue :=
  let conAutoremediado := length (List.filter mentionsGitHubActions problems) in
  let sinAutoremediado := length problems - conAutoremediado in
  [ {| nv_name := "Sí"; nv_value := conAutoremediado |};
    {| nv_name := "No"; nv_value := sinAutoremediado |} ].

(** *** getEvidenceTypes *)

(** [evidence.eventType || 'UNKNOWN'] *)
Definition eventTypeOrUnknown (evidence : Evidence) : string :=
  match eventType evidence with
  | Some s => if String.eqb s "" then "UNKNOWN" else s
  | None => "UNKNOWN"
  end.

(** One evidence on the [evidenceMap], a [Map] of [Map]s. *)
Fixpoint countEvidence (evidence : Evidence)
    (evidenceMap : list (string * list (string * nat)))
  : list (string * list (string * nat)) :=
  match evidenceMap with
  | [] => [(evidenceType evidence, increment (eventTypeOrUnknown evidence) [])]
  | (k, eventTypeMap) :: rest =>
      if String.eqb k (evidenceType evidence)
      then (k, increment (eventTypeOrUnknown evidence) eventTypeMap) :: rest
      else (k, eventTypeMap) :: countEvidence evidence rest
  end.

Definition buildEvidenceMap (problems : list ProblemDoc)
  : list (string * list (string * nat)) :=
  fold_left
    (fun evidenceMap p =>
       fold_left (fun m evidence => countEvidence evidence m)
                 (evidenceDetails p) evidenceMap)
    problems [].

Definition getEvidenceTypes_body (problems : list ProblemDoc) : list EvidenceGroup :=
  map (fun entry => {| eg_name := fst entry;
                       eg_children := map toNamedValue (snd entry) |})
      (buildEvidenceMap problems).

End AnalyticsViews.

(** *** Notions for the further statements *)

Definition sumValues (l : list NamedValue) : nat :=
  foldr (fun v acc => nv_value v + acc) 0 l.

Definition byValueDesc (a b : NamedValue) : Prop := nv_value b <= nv_value a.

(** The records whose stored duration (0 when missing) lies in [lo, hi),
    an absent bound being no bound. *)
Definition inDurationRange (lo hi : option Q) (p : Problem) : bool :=
  match lo with
  | Some l => Qle_bool l (AnalyticsService.durationOrZero p)
  | None => true
  end
  && match hi with
     | Some h => JS.Qltb (AnalyticsService.durationOrZero p) h
     | None => true
     end.

(** Whether a character occurs in a string. *)
Fixpoint containsChar (c : ascii) (s : string) : bool :=
  match s with
  | EmptyString => false
  | String c' rest => Ascii.eqb c' c || containsChar c rest
  end.

(** Whether a string begins with a white space character. *)
Definition startsWithSpace (s : string) : bool :=
  match JS.afterSpace s with
  | Some _ => true
  | None => false
  end.

(** The step of an invocation that finds the database unreachable. *)
Definition failedStep : Serverless.Step :=
  {| Serverless.connectedAfter := false;
     Serverless.connectCalled := true;
     Serverless.response := Serverless.InternalError |}.

(** The answer of an invocation that reaches the application. *)
Definition appResponse (inv : Serverless.Invocation) : Serverless.Response :=
  if Serverless.appReturns inv then Serverless.Handled
  else Serverless.InternalError.

(** 1 for [true], 0 for [false]. *)
Definition bool_nat (b : bool) : nat := if b then 1 else 0.

(** The counts of an [entityMap] and of an [entities] array, added up. *)
Definition sumCounts (m : list (option string * EntityCount)) : nat :=
  foldr (fun ke acc => ec_count (snd ke) + acc) 0 m.

Definition sumEC (l : list EntityCount) : nat :=
  foldr (fun e acc => ec_count e + acc) 0 l.

Definition sumProblemCounts (l : list TopEntity) : nat :=
  foldr (fun t acc => problemCount t + acc) 0 l.

(** The elements of all [affectedEntities] lists, in order. *)
Definition allEntities (problems : list Problem) : list AffectedEntity :=
  concat (map affectedEntities problems).

(** The counts of a [Map<string, number>], added up. *)
Definition sumEntries (m : list (string * nat)) : nat :=
  foldr (fun kv acc => snd kv + acc) 0 m.

(** Keys distinct and not empty, counts positive. *)
Definition counterOk (m : list (string * nat)) : Prop :=
  List.NoDup (map fst m) /\ Forall (fun kv => fst kv <> "" /\ 0 < snd kv) m.

(** The counts of all children of a breakdown, added up. *)
Definition sumBreakdown (l : list EvidenceGroup) : nat :=
  foldr (fun g acc => sumValues (eg_children g) + acc) 0 l.

(** [problem.rootCauseEntity.name] is a non-empty string. *)
Definition rootCauseNamed (p : ProblemDoc) : bool :=
  match AnalyticsViews.rootCauseName p with
  | Some _ => true
  | None => false
  end.

(** The counts of an [evidenceMap], added up. *)
Definition sumEvidence (m : list (string * list (string * nat))) : nat :=
  foldr (fun kv acc => sumEntries (snd kv) + acc) 0 m.

(** Evidence types distinct, each with a non-empty well-formed inner map. *)
Definition evidenceOk (m : list (string * list (string * nat))) : Prop :=
  List.NoDup (map fst m)
  /\ Forall (fun kv => snd kv <> [] /\ counterOk (snd kv)) m.

(** [map.get(k) || 0] on a [Map<string, number>] *)
Fixpoint entryCount (k : string) (m : list (string * nat)) : nat :=
  match m with
  | [] => 0
  | (k', n) :: rest => if String.eqb k' k then n else entryCount k rest
  end.

(** How many records have [s] for the name of their root cause. *)
Definition recordsNamed (s : string) (ps : list ProblemDoc) : nat :=
  length (List.filter
            (fun p => match AnalyticsViews.rootCauseName p with
                      | Some n => String.eqb n s
                      | None => false
                      end) ps).

(** The evidence details of all records, in order. *)
Definition allEvidence (ps : list ProblemDoc) : list Evidence :=
  concat (map evidenceDetails ps).

(** Whether an evidence detail has the evidence type [t] and the event
    type [e], a missing or empty event type reading "UNKNOWN". *)
Definition evidenceOf (t e : string) (ev : Evidence) : bool :=
  String.eqb (evidenceType ev) t
  && String.eqb (AnalyticsViews.eventTypeOrUnknown ev) e.

(** How many evidence details of the record set are of that kind. *)
Definition evidenceCount (t e : string) (ps : list ProblemDoc) : nat :=
  length (List.filter (evidenceOf t e) (allEvidence ps)).

(** The count an [evidenceMap] holds under an evidence type and an event
    type, 0 where it holds none. *)
Fixpoint nestedCount (t e : string) (m : list (string * list (string * nat)))
  : nat :=
  match m with
  | [] => 0
  | (k, inner) :: rest =>
      if String.eqb k t then entryCount e inner else nestedCount t e rest
  end.

(** A tag string that [getFilterOptions] takes up. *)
Definition tagged (s : string) (ts : list EntityTag) : Prop :=
  s <> "" /\ exists t, In t ts /\ stringRepresentation t = Some s.

(** ** Fixtures for the examples *)

(** A store that selects on the [status] clause alone, keeps the stored
    order, and drops the entity names and ids as the analytics projection
    does. *)
Definition statusStore : Store :=
  {| matches f p :=
       match m_status f with
       | Some vs =>
           existsb (fun v => match v with
                             | JS.VStr s => String.eqb s (status p)
                             | _ => false
                             end) vs
       | None => true
       end;
     sortDocs _ _ docs := docs;
     project p :=
       {| problemId := problemId p; status := status p;
          impactLevel := impactLevel p; severityLevel := severityLevel p;
          startTime := startTime p; duration := duration p;
          affectedEntities :=
            map (fun e => {| name := None;
                             entityId := {| id := None;
                                            type := type (entityId e) |} |})
                (affectedEntities p);
          recentComments := recentComments p |} |}.

(** [Number], the conversion the examples hand to [parseFilters]. *)
Definition numberOfLiteral (v : JS.Value) : JS.Num := JS.toNumber v.

Definition mkEntity (i t : string) : AffectedEntity :=
  {| name := Some i; entityId := {| id := Some i; type := Some t |} |}.

Definition mkProblem (pid st sev : string) (d : option Q)
    (es : list AffectedEntity) (cs : list Comment) : Problem :=
  {| problemId := pid; status := st; impactLevel := "INFRASTRUCTURE";
     severityLevel := sev; startTime := "2024-01-01T00:00:00.000Z";
     duration := d; affectedEntities := es;
     recentComments := {| totalCount := Z.of_nat (length cs);
                          comments := Some cs |} |}.

(** [p] with another stored duration. *)
Definition withDuration (d : option Q) (p : Problem) : Problem :=
  {| problemId := problemId p; status := status p;
     impactLevel := impactLevel p; severityLevel := severityLevel p;
     startTime := startTime p; duration := d;
     affectedEntities := affectedEntities p;
     recentComments := recentComments p |}.

(** The three records of the specification's scenario. *)
Definition scenario : list Problem :=
  [ mkProblem "P-1" "OPEN" "AVAILABILITY" (Some 4%Q) [mkEntity "HOST-1" "HOST"] [];
    mkProblem "P-2" "CLOSED" "ERROR" (Some 45%Q)
      [mkEntity "HOST-1" "HOST"; mkEntity "SERVICE-7" "SERVICE"]
      [{| content := "GitHub Actions deployment success"; author := "ops" |}];
    mkProblem "P-3" "CLOSED" "PERFORMANCE" (Some 200%Q) [] [] ].

(** ** Notions the statements are phrased in *)

(** [entityMap.get(key)] *)
Fixpoint entityMapGet (key : option string)
    (entityMap : list (option string * EntityCount)) : option EntityCount :=
  match entityMap with
  | [] => None
  | (k, e) :: rest =>
      if bool_decide (k = key) then Some e else entityMapGet key rest
  end.

(** The count held for a key, 0 for a key that is not in the map. *)
Definition countFor (key : option string)
    (entityMap : list (option string * EntityCount)) : nat :=
  match entityMapGet key entityMap with
  | Some e => ec_count e
  | None => 0
  end.

Definition hasId (key : option string) (entity : AffectedEntity) : bool :=
  bool_decide (id (entityId entity) = key).

(** How many elements of the [affectedEntities] lists carry the id, a list
    that repeats it counting as often as it repeats it. *)
Definition occurrences (key : option string) (problems : list Problem) : nat :=
  length (List.filter (hasId key) (concat (map affectedEntities problems))).

(** How many records carry the id in their [affectedEntities] list. *)
Definition recordsWith (key : option string) (problems : list Problem) : nat :=
  length (List.filter (fun p => existsb (hasId key) (affectedEntities p)) problems).

(** The durations the average resolution time is taken over. *)
Definition closedDurations (problems : list Problem) : list Q :=
  map AnalyticsService.durationOrZero
      (List.filter AnalyticsService.isClosed problems).

(** The sum of a list of durations as double arithmetic gives it: the
    doubles that hold them, added up from 0 in the order of the list; and
    their mean: that sum divided by their number. *)
Definition doubleSum (l : list Q) : JS.Num :=
  fold_left (fun acc d => JS.add acc (JS.roundDouble d)) l (JS.NFin 0).

Definition doubleMean (l : list Q) : JS.Num :=
  JS.divide (doubleSum l) (JS.ofNat (length l)).

(** Half the distance between neighbouring doubles, as a part of their
    magnitude: 2^-53. *)
Definition halfUlp : Q := 1 # 9007199254740992.

(** The percentage a count is of a total. *)
Definition exactPercentage (count total : nat) : Q :=
  (inject_Z (Z.of_nat count) / inject_Z (Z.of_nat total) * 100)%Q.

(** The sum and the mean of whole numbers, and the integer nearest to a
    rational, the upper one on a tie. *)
Definition sumZ (l : list Z) : Z := fold_right Z.add 0%Z l.

Definition exactMean (zs : list Z) : Q :=
  (inject_Z (sumZ zs) / inject_Z (Z.of_nat (length zs)))%Q.

Definition nearestInteger (q : Q) : Z := Qfloor (q + (1 # 2)).

Definition bucketTotal (c : Categories) : nat :=
  less_than_5 c + c5_to_10 c + c10_to_30 c + c30_to_180 c + more_than_180 c.

(** The keys of an [entityMap] are distinct and its counts positive. *)
Definition wellFormed (m : list (option string * EntityCount)) : Prop :=
  List.NoDup (map fst m) /\ Forall (fun ke => 0 < ec_count (snd ke)) m.

(** The order [sort((a, b) => b.count - a.count)] establishes. *)
Definition byCountDesc (a b : EntityCount) : Prop := ec_count b <= ec_count a.

(** * Properties *)

(** ** JavaScript values *)

(** 0.1 + 0.2 is 0.30000000000000004: the sum of the two doubles rounds
    to the double above 0.3. *)
Example add_rounds :
  exists a b : Q,
    JS.roundDouble (1 # 10) = JS.NFin a /\ JS.roundDouble (2 # 10) = JS.NFin b
    /\ JS.add (JS.NFin a) (JS.NFin b)
       = JS.NFin (1351079888211149 # 4503599627370496)
    /\ ((3 # 10) < (1351079888211149 # 4503599627370496))%Q.
Proof.
  do 2 eexists. split; [vm_compute; reflexivity|].
  split; [vm_compute; reflexivity|]. split; vm_compute; reflexivity.
Qed.

(** 2^53 + 1 is no double: the sum is 2^53, the even neighbour. *)
Example add_absorbs :
  JS.add (JS.NFin 9007199254740992) (JS.NFin 1) = JS.NFin 9007199254740992
  /\ JS.add (JS.NFin 9007199254740993) (JS.NFin 2) = JS.NFin 9007199254740996.
Proof. split; vm_compute; reflexivity. Qed.

(** [Number] on strings, arrays and objects. *)
Example toNumber_examples :
  map JS.toNumber
    [ JS.VStr "5"; JS.VStr ""; JS.VStr " 12 "; JS.VStr "1e3"; JS.VStr "0x1f";
      JS.VStr ".5"; JS.VStr "-1.5E+2"; JS.VStr "12px"; JS.VStr "1,2";
      JS.VStr "Infinity"; JS.VStr "1e400"; JS.VArr []; JS.VArr ["7"];
      JS.VArr ["1"; "2"]; JS.VObj; JS.VBool true ]
  = [ JS.NFin 5; JS.NFin 0; JS.NFin 12; JS.NFin 1000; JS.NFin 31;
      JS.NFin (1 # 2); JS.NFin (-150); JS.NNaN; JS.NNaN;
      JS.NPosInf; JS.NPosInf; JS.NFin 0; JS.NFin 7;
      JS.NNaN; JS.NNaN; JS.NFin 1 ].
Proof. vm_compute. reflexivity. Qed.

(** [trim] drops a no-break space (U+00A0) and a line separator (U+2028)
    as it drops a blank. *)
Example trim_beyond_ascii :
  let nbsp := String (ascii_of_nat 194) (String (ascii_of_nat 160) "") in
  let ls := String (ascii_of_nat 226)
              (String (ascii_of_nat 128) (String (ascii_of_nat 168) "")) in
  JS.trim (nbsp ++ " a b " ++ ls ++ nbsp) = "a b"
  /\ Cors.originAllowed ("https://a.example" ++ nbsp) (Some "https://a.example")
     = true.
Proof. split; vm_compute; reflexivity. Qed.

(** ** Filter normalisation and query building *)

Lemma isTrue_spec (v : JS.Value) :
  JS.isTrue v = true <-> v = JS.VStr "true" \/ v = JS.VBool true.
Proof.
  destruct v as [s | [] | x | l | ]; simpl; split;
    try (intros [?|?]; discriminate); try discriminate; eauto.
  - intros H%String.eqb_eq. subst. now left.
  - intros [[= ->] | [=]]. reflexivity.
Qed.

Lemma isFalse_spec (v : JS.Value) :
  JS.isFalse v = true <-> v = JS.VStr "false" \/ v = JS.VBool false.
Proof.
  destruct v as [s | [] | x | l | ]; simpl; split;
    try (intros [?|?]; discriminate); try discriminate; eauto.
  - intros H%String.eqb_eq. subst. now left.
  - intros [[= ->] | [=]]. reflexivity.
Qed.

(** C2, as the code has it: when the raw [hasComments] is present the
    normalised field is always set; it is [true] exactly when the raw value
    is the string "true" or the boolean true, and [false] (not unset) for
    every other present value. *)
Theorem parseFilters_hasComments_present
    (Number : JS.Value -> JS.Num) (query : gmap string JS.Value) (v : JS.Value) :
  query !! "hasComments" = Some v ->
  (f_hasComments (parseFilters Number query) = Some true
     <-> v = JS.VStr "true" \/ v = JS.VBool true)
  /\ (~ (v = JS.VStr "true" \/ v = JS.VBool true)
      -> f_hasComments (parseFilters Number query) = Some false)
  /\ f_hasComments (parseFilters Number query) <> None.
Proof.
  intros Hv. cbn [parseFilters f_hasComments]. unfold parseBoolean.
  rewrite Hv. pose proof (isTrue_spec v) as Ht.
  destruct (JS.isTrue v); repeat split; try congruence.
  - intros _. now apply Ht.
  - intros H. exfalso. apply H. now apply Ht.
  - intros H. apply Ht in H. discriminate.
Qed.

Lemma parseFilters_hasComments_present_witness :
  let query : gmap string JS.Value := {[ "hasComments" := JS.VStr "false" ]} in
  query !! "hasComments" = Some (JS.VStr "false")
  /\ f_hasComments (parseFilters numberOfLiteral query) = Some false.
Proof.
  intros query.
  assert (H : query !! "hasComments" = Some (JS.VStr "false")) by reflexivity.
  split; [exact H|].
  apply (parseFilters_hasComments_present numberOfLiteral query _ H).
  intros [E | E]; discriminate E.
Defined.

(** C2 as stated fails: a present raw value other than "true"/true (here
    the string "false") does not leave [hasComments] unset. *)
Lemma parseFilters_hasComments_not_unset :
  f_hasComments (parseFilters numberOfLiteral {[ "hasComments" := JS.VStr "false" ]})
  = Some false
  /\ ~ (forall (Number : JS.Value -> JS.Num) (query : gmap string JS.Value)
               (v : JS.Value),
           query !! "hasComments" = Some v ->
           ~ (v = JS.VStr "true" \/ v = JS.VBool true) ->
           f_hasComments (parseFilters Number query) = None).
Proof.
  split; [reflexivity|].
  intros H.
  specialize (H numberOfLiteral {[ "hasComments" := JS.VStr "false" ]}
                (JS.VStr "false") eq_refl).
  assert (Hn : ~ (JS.VStr "false" = JS.VStr "true"
                  \/ JS.VStr "false" = JS.VBool true))
    by (intros [E | E]; discriminate E).
  specialize (H Hn). vm_compute in H. discriminate H.
Qed.

Lemma parseTriState_insert (query : gmap string JS.Value) (k : string) (v : JS.Value) :
  parseTriState (<[k := v]> query) k
  = if JS.isTrue v then Some (Some true)
    else if JS.isFalse v then Some (Some false) else Some None.
Proof. unfold parseTriState. now rewrite lookup_insert_eq. Qed.

Lemma parseTriState_delete (query : gmap string JS.Value) (k : string) :
  parseTriState (delete k query) k = None.
Proof. unfold parseTriState. now rewrite lookup_delete_eq. Qed.

(** Only a boolean [hasRootCause] makes [buildFilter] write a root cause
    clause. *)
Lemma buildFilter_rootCause_clauses (filters : ProblemFilters) :
  (f_hasRootCause filters = Some (Some false)
   -> m_or (buildFilter filters) = Some [RootCauseIsNull; RootCauseNotExists]
      /\ m_rootCauseEntity (buildFilter filters) = None)
  /\ (f_hasRootCause filters = Some (Some true)
      -> m_or (buildFilter filters) = None
         /\ m_rootCauseEntity (buildFilter filters) = Some NotNullAndExists)
  /\ (f_hasRootCause filters = None \/ f_hasRootCause filters = Some None
      -> m_or (buildFilter filters) = None
         /\ m_rootCauseEntity (buildFilter filters) = None).
Proof.
  cbn [buildFilter m_or m_rootCauseEntity].
  split; [| split].
  - intros E. now rewrite E.
  - intros E. now rewrite E.
  - intros [E | E]; now rewrite E.
Qed.

(** C7: with the raw string "false" under [hasRootCause] the built
    predicate carries the explicit negative clause (rootCauseEntity is null
    OR the field does not exist) and no positive one; with the key omitted,
    or with a raw value that normalises to the null marker, it carries no
    rootCauseEntity clause at all; so the built predicates differ, whatever
    the rest of the query is. *)
Theorem hasRootCause_false_distinct_from_unset
    (Number : JS.Value -> JS.Num) (query : gmap string JS.Value) (v : JS.Value) :
  JS.isTrue v = false -> JS.isFalse v = false ->
  let build q := buildFilter (parseFilters Number q) in
  let supplied := build (<["hasRootCause" := JS.VStr "false"]> query) in
  let omitted := build (delete "hasRootCause" query) in
  let nullMarked := build (<["hasRootCause" := v]> query) in
  f_hasRootCause (parseFilters Number (<["hasRootCause" := v]> query)) = Some None
  /\ m_or supplied = Some [RootCauseIsNull; RootCauseNotExists]
  /\ m_rootCauseEntity supplied = None
  /\ m_or omitted = None /\ m_rootCauseEntity omitted = None
  /\ m_or nullMarked = None /\ m_rootCauseEntity nullMarked = None
  /\ supplied <> omitted /\ supplied <> nullMarked.
Proof.
  intros Ht Hf build supplied omitted nullMarked.
  assert (Hs : f_hasRootCause
                 (parseFilters Number (<["hasRootCause" := JS.VStr "false"]> query))
               = Some (Some false)).
  { cbn [parseFilters f_hasRootCause]. now rewrite parseTriState_insert. }
  assert (Ho : f_hasRootCause (parseFilters Number (delete "hasRootCause" query))
               = None).
  { cbn [parseFilters f_hasRootCause]. apply parseTriState_delete. }
  assert (Hn : f_hasRootCause (parseFilters Number (<["hasRootCause" := v]> query))
               = Some None).
  { cbn [parseFilters f_hasRootCause]. rewrite parseTriState_insert.
    now rewrite Ht, Hf. }
  destruct (buildFilter_rootCause_clauses
              (parseFilters Number (<["hasRootCause" := JS.VStr "false"]> query)))
    as (Hs' & _ & _).
  destruct (buildFilter_rootCause_clauses
              (parseFilters Number (delete "hasRootCause" query)))
    as (_ & _ & Ho').
  destruct (buildFilter_rootCause_clauses
              (parseFilters Number (<["hasRootCause" := v]> query)))
    as (_ & _ & Hn').
  destruct (Hs' Hs) as [Hs1 Hs2].
  destruct (Ho' (or_introl Ho)) as [Ho1 Ho2].
  destruct (Hn' (or_intror Hn)) as [Hn1 Hn2].
  subst supplied omitted nullMarked build. cbv beta.
  repeat split; try assumption.
  - intros E. rewrite E in Hs1. congruence.
  - intros E. rewrite E in Hs1. congruence.
Qed.

Lemma hasRootCause_false_distinct_from_unset_witness :
  let query : gmap string JS.Value :=
    {[ "status" := JS.VStr "OPEN"; "hasRootCause" := JS.VStr "true" ]} in
  m_or (buildFilter (parseFilters numberOfLiteral
                       (<["hasRootCause" := JS.VStr "false"]> query)))
    = Some [RootCauseIsNull; RootCauseNotExists]
  /\ m_or (buildFilter (parseFilters numberOfLiteral
                          (<["hasRootCause" := JS.VStr "maybe"]> query))) = None
  /\ buildFilter (parseFilters numberOfLiteral
                    (<["hasRootCause" := JS.VStr "false"]> query))
     <> buildFilter (parseFilters numberOfLiteral (delete "hasRootCause" query)).
Proof.
  intros query.
  pose proof (hasRootCause_false_distinct_from_unset numberOfLiteral query
                (JS.VStr "maybe") eq_refl eq_refl) as H.
  cbv zeta in H. destruct H as (_ & H1 & _ & _ & _ & H2 & _ & H3 & _).
  repeat split; assumption.
Defined.

(** ** Repository *)

Section RepositoryProperties.
Context {store : Store}.

Lemma limit_all (n : N) (l : list Problem) :
  (N.of_nat (length l) <= n)%N -> Collection.limit n l = l.
Proof.
  intros H. unfold Collection.limit.
  destruct (n =? 0)%N; [reflexivity|].
  apply firstn_all2. lia.
Qed.

Lemma limit_length (n : N) (l : list Problem) :
  n <> 0%N -> (N.of_nat (length (Collection.limit n l)) <= n)%N.
Proof.
  intros H. unfold Collection.limit.
  destruct (N.eqb_spec n 0) as [E | _]; [contradiction|].
  rewrite length_take. lia.
Qed.

Lemma limit_nil_inv (n : N) (l : list Problem) :
  n <> 0%N -> Collection.limit n l = [] -> l = [].
Proof.
  intros H. unfold Collection.limit.
  destruct (N.eqb_spec n 0) as [E | _]; [contradiction|].
  destruct l as [| x l]; [reflexivity|].
  destruct (N.to_nat n) eqn:E; [lia|]. discriminate.
Qed.

(** The bulk fetch below the cap returns every selected document. *)
Lemma findAllProblems_below_cap (filters : ProblemFilters) (docs : list Problem) :
  (N.of_nat (Collection.countDocuments (buildFilter filters) docs) <= 10000)%N ->
  ProblemRepository.findAllProblems (Some filters) None docs
  = map project (Collection.find (buildFilter filters) docs).
Proof.
  intros H. unfold ProblemRepository.findAllProblems.
  apply limit_all. rewrite length_map. exact H.
Qed.

(** C1: as long as the documents selected by the predicate built from [F]
    do not exceed the bulk cap of 10,000, the count over that predicate, in
    particular the [total] of every [findAll(F, ...)] response, is the
    number of records [findAllProblems(F)] returns; and [findAll] does
    respond for every page from 1 on. *)
Theorem count_equals_bulk_length (F : ProblemFilters) (docs : list Problem) :
  (N.of_nat (Collection.countDocuments (buildFilter F) docs) <= 10000)%N ->
  Collection.countDocuments (buildFilter F) docs
  = length (ProblemRepository.findAllProblems (Some F) None docs)
  /\ (forall page limit sortBy sortOrder r,
         ProblemRepository.findAll F page limit sortBy sortOrder docs = Some r ->
         total r = length (ProblemRepository.findAllProblems (Some F) None docs))
  /\ (forall page limit sortBy sortOrder,
         (1 <= default 1 page)%N ->
         exists r,
           ProblemRepository.findAll F page limit sortBy sortOrder docs = Some r).
Proof.
  intros Hcap.
  assert (Hlen : Collection.countDocuments (buildFilter F) docs
                 = length (ProblemRepository.findAllProblems (Some F) None docs)).
  { rewrite findAllProblems_below_cap by exact Hcap.
    now rewrite length_map. }
  split; [exact Hlen|]. split.
  - intros pg lim sortBy sortOrder r. unfold ProblemRepository.findAll.
    destruct (Collection.skip _ _); [|discriminate].
    intros [= <-]. exact Hlen.
  - intros pg lim sortBy sortOrder Hpage. unfold ProblemRepository.findAll.
    unfold Collection.skip.
    destruct (Z.ltb_spec ((Z.of_N (default 1%N pg) - 1) * Z.of_N (default 10%N lim)) 0)
      as [Hneg | _].
    + nia.
    + eexists. reflexivity.
Qed.

(** C10: a limit of 0 is treated as no limit given, and both fall back to
    the cap of 10,000; every supplied non-zero limit [n] bounds the result
    by [n]; so every call has a finite cap, and no limit makes a non-empty
    selection come back empty. *)
Theorem findAllProblems_limit
    (filters : option ProblemFilters) (docs : list Problem) (n : N) :
  n <> 0%N ->
  ProblemRepository.findAllProblems filters (Some 0%N) docs
  = ProblemRepository.findAllProblems filters None docs
  /\ (N.of_nat (length (ProblemRepository.findAllProblems filters (Some 0%N) docs))
      <= 10000)%N
  /\ (N.of_nat (length (ProblemRepository.findAllProblems filters (Some n) docs))
      <= n)%N
  /\ (forall limit, exists cap : N, forall docs',
         (N.of_nat (length (ProblemRepository.findAllProblems filters limit docs'))
          <= cap)%N)
  /\ (forall limit,
         ProblemRepository.findAllProblems filters limit docs = [] ->
         Collection.find (match filters with
                      | Some f => buildFilter f
                      | None => emptyFilter
                      end) docs = []).
Proof.
  intros Hn. split; [reflexivity|]. split; [|split; [|split]].
  - unfold ProblemRepository.findAllProblems.
    change (negb (0 =? 0)%N) with false. cbv iota.
    apply limit_length. discriminate.
  - unfold ProblemRepository.findAllProblems.
    destruct (N.eqb_spec n 0) as [E | _]; [contradiction|]. cbn [negb].
    now apply limit_length.
  - intros [m |].
    + destruct (N.eqb_spec m 0) as [E | E].
      * exists 10000%N. intros docs'. subst m.
        unfold ProblemRepository.findAllProblems.
        change (negb (0 =? 0)%N) with false. cbv iota.
        apply limit_length. discriminate.
      * exists m. intros docs'. unfold ProblemRepository.findAllProblems.
        destruct (N.eqb_spec m 0) as [E' | _]; [contradiction|]. cbn [negb].
        now apply limit_length.
    + exists 10000%N. intros docs'. unfold ProblemRepository.findAllProblems.
      apply limit_length. discriminate.
  - intros lim H. unfold ProblemRepository.findAllProblems in H.
    assert (Hq : map project
                   (Collection.find (match filters with
                                 | Some f => buildFilter f
                                 | None => emptyFilter
                                 end) docs) = []).
    { destruct lim as [m |].
      - destruct (N.eqb_spec m 0) as [E | E]; cbn [negb] in H.
        + eapply limit_nil_inv; [|exact H]. discriminate.
        + eapply limit_nil_inv; [exact E|exact H].
      - eapply limit_nil_inv; [|exact H]. discriminate. }
    now apply map_eq_nil in Hq.
Qed.

(** [findOneAndUpdate] on a collection that holds the id. *)
Lemma findOneAndUpdate_found (pid : string) (u : UpdateDoc)
    (docs : list Problem) (p : Problem) :
  Collection.findOne pid docs = Some p ->
  exists docs',
    Collection.findOneAndUpdate pid u docs = (docs', Some (Collection.applyUpdate u p))
    /\ Collection.findOne pid docs' = Some (Collection.applyUpdate u p)
    /\ length docs' = length docs.
Proof.
  induction docs as [| d docs IH]; simpl; [discriminate|].
  destruct (String.eqb (problemId d) pid) eqn:E.
  - intros [= ->]. eexists. split; [reflexivity|]. simpl. rewrite E. auto.
  - intros H. destruct (IH H) as (docs' & H1 & H2 & H3).
    rewrite H1. eexists. split; [reflexivity|]. simpl. rewrite E. auto.
Qed.

(** [findOneAndUpdate] on a collection without the id. *)
Lemma findOneAndUpdate_missing (pid : string) (u : UpdateDoc) (docs : list Problem) :
  Collection.findOne pid docs = None ->
  Collection.findOneAndUpdate pid u docs = (docs, None).
Proof.
  induction docs as [| d docs IH]; simpl; [reflexivity|].
  destruct (String.eqb (problemId d) pid); [discriminate|].
  intros H. now rewrite (IH H).
Qed.

(** C9: on the record [addComment] selects, if [totalCount] equals the
    length of the comments list before the call, then the one update
    appends exactly the new comment and adds exactly 1 to [totalCount], so
    the returned (and stored) record satisfies the equality again. *)
Theorem addComment_preserves_count (pid : string) (comment : Comment)
    (docs : list Problem) (p : Problem) (cs : list Comment) :
  Collection.findOne pid docs = Some p ->
  comments (recentComments p) = Some cs ->
  totalCount (recentComments p) = Z.of_nat (length cs) ->
  exists docs' p',
    ProblemRepository.addComment pid comment docs = (docs', Some p')
    /\ Collection.findOne pid docs' = Some p'
    /\ comments (recentComments p') = Some (cs ++ [comment])%list
    /\ totalCount (recentComments p') = (totalCount (recentComments p) + 1)%Z
    /\ totalCount (recentComments p') = Z.of_nat (length (cs ++ [comment])%list).
Proof.
  intros Hfind Hcs Htc. unfold ProblemRepository.addComment.
  destruct (findOneAndUpdate_found pid
              {| u_set_status := None; u_push_comment := Some comment;
                 u_inc_totalCount := Some 1%Z |} docs p Hfind)
    as (docs' & H1 & H2 & _).
  exists docs'. eexists. split; [exact H1|]. split; [exact H2|].
  cbn [Collection.applyUpdate recentComments comments totalCount
       u_push_comment u_inc_totalCount].
  rewrite Hcs. cbn [Collection.push]. repeat split.
  rewrite Htc, length_app. simpl. lia.
Qed.

End RepositoryProperties.

Lemma count_equals_bulk_length_witness :
  let F := parseFilters numberOfLiteral {[ "status" := JS.VStr "CLOSED" ]} in
  (N.of_nat (Collection.countDocuments (store := statusStore) (buildFilter F) scenario)
   <= 10000)%N
  /\ Collection.countDocuments (store := statusStore) (buildFilter F) scenario
     = length (ProblemRepository.findAllProblems (store := statusStore)
                 (Some F) None scenario)
  /\ Collection.countDocuments (store := statusStore) (buildFilter F) scenario = 2.
Proof.
  intros F.
  assert (H : (N.of_nat (Collection.countDocuments (store := statusStore)
                           (buildFilter F) scenario) <= 10000)%N)
    by (vm_compute; discriminate).
  split; [exact H|]. split; [|reflexivity].
  apply (count_equals_bulk_length (store := statusStore) F scenario H).
Defined.

Lemma findAllProblems_limit_witness :
  (1 <> 0)%N
  /\ (N.of_nat (length (ProblemRepository.findAllProblems (store := statusStore)
                          None (Some 1%N) scenario)) <= 1)%N
  /\ length (ProblemRepository.findAllProblems (store := statusStore)
               None (Some 0%N) scenario) = 3.
Proof.
  assert (H : (1 <> 0)%N) by discriminate.
  split; [exact H|]. split; [|reflexivity].
  apply (findAllProblems_limit (store := statusStore) None scenario 1%N H).
Defined.

Lemma addComment_preserves_count_witness :
  let c := {| content := "rollback completed"; author := "ops" |} in
  exists docs' p',
    ProblemRepository.addComment "P-2" c scenario = (docs', Some p')
    /\ Collection.findOne "P-2" docs' = Some p'
    /\ comments (recentComments p')
       = Some [ {| content := "GitHub Actions deployment success"; author := "ops" |};
                c ]
    /\ totalCount (recentComments p') = 2%Z.
Proof.
  intros c.
  destruct (addComment_preserves_count "P-2" c scenario
              (mkProblem "P-2" "CLOSED" "ERROR" (Some 45%Q)
                 [mkEntity "HOST-1" "HOST"; mkEntity "SERVICE-7" "SERVICE"]
                 [{| content := "GitHub Actions deployment success"; author := "ops" |}])
              [{| content := "GitHub Actions deployment success"; author := "ops" |}]
              eq_refl eq_refl eq_refl)
    as (docs' & p' & H1 & H2 & H3 & H4 & H5).
  exists docs', p'. repeat split; assumption.
Defined.

(** ** Analytics engine *)

Module AnalyticsProperties.
Import AnalyticsService.

(** *** Duration distribution *)

Lemma countDuration_total (c : Categories) (p : Problem) :
  bucketTotal (countDuration c p) = S (bucketTotal c).
Proof.
  destruct c as [a b c d e]. unfold countDuration.
  repeat (match goal with |- context [if ?t then _ else _] => destruct t end);
    unfold bucketTotal; simpl; lia.
Qed.

Lemma fold_countDuration_total (ps : list Problem) (c : Categories) :
  bucketTotal (fold_left countDuration ps c) = length ps + bucketTotal c.
Proof.
  revert c. induction ps as [| p ps IH]; intros c; simpl; [reflexivity|].
  rewrite IH, countDuration_total. lia.
Qed.

Lemma getDurationDistribution_snoc (ps : list Problem) (p : Problem) :
  getDurationDistribution_body (ps ++ [p])
  = countDuration (getDurationDistribution_body ps) p.
Proof. unfold getDurationDistribution_body. now rewrite fold_left_app. Qed.

(** C6: the five bucket counts add up to the number of records, whatever
    the durations are (negative, zero, fractional, missing); and a record
    of duration exactly 5 goes to 5_to_10, one of 29.999 to 10_to_30 and
    one of exactly 180 to more_than_180. *)
Theorem durationDistribution_partition (ps : list Problem) (p : Problem) :
  let c := getDurationDistribution_body ps in
  bucketTotal c = length ps
  /\ getDurationDistribution_body (ps ++ [withDuration (Some 5%Q) p])
     = {| less_than_5 := less_than_5 c; c5_to_10 := S (c5_to_10 c);
          c10_to_30 := c10_to_30 c; c30_to_180 := c30_to_180 c;
          more_than_180 := more_than_180 c |}
  /\ getDurationDistribution_body (ps ++ [withDuration (Some (29999 # 1000)%Q) p])
     = {| less_than_5 := less_than_5 c; c5_to_10 := c5_to_10 c;
          c10_to_30 := S (c10_to_30 c); c30_to_180 := c30_to_180 c;
          more_than_180 := more_than_180 c |}
  /\ getDurationDistribution_body (ps ++ [withDuration (Some 180%Q) p])
     = {| less_than_5 := less_than_5 c; c5_to_10 := c5_to_10 c;
          c10_to_30 := c10_to_30 c; c30_to_180 := c30_to_180 c;
          more_than_180 := S (more_than_180 c) |}.
Proof.
  intros c. split.
  - unfold c, getDurationDistribution_body.
    rewrite fold_countDuration_total. unfold bucketTotal. simpl. lia.
  - rewrite !getDurationDistribution_snoc. fold c.
    destruct c as [a b c' d e]. repeat split.
Qed.

(** *** Remediation funnel *)

Lemma filter_length_le {A} (f : A -> bool) (l : list A) :
  length (List.filter f l) <= length l.
Proof.
  induction l as [| x l IH]; simpl; [lia|]. destruct (f x); simpl; lia.
Qed.

(** C4: the first four stage counts never increase, each set being
    filtered out of the one before; the closed count is the number of
    CLOSED records of the whole set, which can lie above the with-comments
    count as well as below the with-success count. *)
Theorem funnel_counts_monotone (ps : list Problem) :
  (exists total withComments withGitHub withSuccess closed,
      map stage_count (getRemediationFunnel_body ps)
      = [total; withComments; withGitHub; withSuccess; closed]
      /\ withSuccess <= withGitHub
      /\ withGitHub <= withComments
      /\ withComments <= total
      /\ total = length ps
      /\ closed = length (List.filter isClosed ps))
  /\ (exists ps1 total c g s closed,
         map stage_count (getRemediationFunnel_body ps1) = [total; c; g; s; closed]
         /\ c < closed)
  /\ (exists ps2 total c g s closed,
         map stage_count (getRemediationFunnel_body ps2) = [total; c; g; s; closed]
         /\ closed < s).
Proof.
  split; [|split].
  - do 5 eexists. split; [reflexivity|].
    repeat split; try apply filter_length_le.
  - exists [mkProblem "P-3" "CLOSED" "PERFORMANCE" (Some 200%Q) [] []].
    do 5 eexists. split; [reflexivity|]. simpl. lia.
  - exists [mkProblem "P-9" "OPEN" "ERROR" (Some 45%Q) []
              [{| content := "GitHub Actions run completed"; author := "bot" |}]].
    do 5 eexists. split; [reflexivity|]. vm_compute. lia.
Qed.

Lemma isZero_inject_Z (z : Z) : JS.isZero (inject_Z z) = (z =? 0)%Z.
Proof.
  unfold JS.isZero, Qeq_bool, inject_Z. simpl. now rewrite Z.mul_1_r.
Qed.

Lemma Qltb_nonneg (q : Q) : (0 <= q)%Q -> JS.Qltb q 0 = false.
Proof.
  intros H. unfold JS.Qltb. apply negb_false_iff. now apply Qle_bool_iff.
Qed.

(** **** Rounding to binary64 keeps a percentage a percentage *)

Lemma nearestEven_bounds (num den N : Z) :
  (0 < den)%Z -> (0 <= num)%Z -> (num <= N * den)%Z ->
  (0 <= JS.nearestEven num den <= N)%Z.
Proof.
  intros Hd Hn HN. unfold JS.nearestEven.
  pose proof (Z.div_mod num den ltac:(lia)) as E.
  pose proof (Z.mod_pos_bound num den Hd) as Hr.
  pose proof (Z.div_pos num den Hn Hd) as Hk.
  set (k := (num / den)%Z) in *. set (r := (num mod den)%Z) in *.
  assert (k <= N)%Z by nia.
  destruct (Z.ltb_spec (2 * r) den); [lia|].
  assert (k < N)%Z by nia.
  destruct (Z.ltb_spec den (2 * r)); [lia|].
  destruct (Z.even k); lia.
Qed.

(** Below 2^53 the last place is a unit or a fraction of it. *)
Lemma lastPlace_small (num den : Z) :
  (0 < num)%Z -> (0 < den)%Z -> (num < 2 ^ 53 * den)%Z ->
  (JS.lastPlace num den <= 0)%Z.
Proof.
  intros Hn Hd Hlt. unfold JS.lastPlace.
  set (l := (Z.log2 num - Z.log2 den - 52)%Z).
  assert (Hl : (l <= 1)%Z).
  { pose proof (Z.log2_le_mono num (den * 2 ^ 53) ltac:(lia)) as H.
    rewrite Z.log2_mul_pow2 in H by lia. lia. }
  destruct (JS.scaled num den l) as [n d] eqn:E.
  destruct (Z.leb_spec (2 ^ 52 * d) n) as [Hge | _]; [|lia].
  assert (l <> 1)%Z; [|lia].
  intros ->. unfold JS.scaled in E. simpl in E. injection E as <- <-. lia.
Qed.

Lemma nearestDouble_range (num den B : Z) :
  (0 < num)%Z -> (0 < den)%Z -> (B < 2 ^ 53)%Z -> (num <= B * den)%Z ->
  exists x, JS.nearestDouble num den = Some x
            /\ (0 <= x)%Q /\ (x <= inject_Z B)%Q.
Proof.
  intros Hn Hd HB Hle.
  pose proof (lastPlace_small num den Hn Hd ltac:(nia)) as He.
  unfold JS.nearestDouble. set (e := JS.lastPlace num den) in *.
  unfold JS.scaled.
  destruct (Z.leb_spec 0 e) as [H0 | Hneg].
  - assert (e = 0)%Z as -> by lia.
    change (2 ^ 0)%Z with 1%Z. rewrite !Z.mul_1_r.
    pose proof (nearestEven_bounds num den B Hd ltac:(lia) Hle) as Hm.
    destruct (Z.leb_spec (2 ^ 1024) (JS.nearestEven num den)) as [Hbig | _].
    + exfalso. assert (2 ^ 53 <= 2 ^ 1024)%Z
        by (apply Z.pow_le_mono_r; lia). lia.
    + eexists. split; [reflexivity|].
      change 0%Q with (inject_Z 0). rewrite <- !Zle_Qle. lia.
  - set (p := (2 ^ (- e))%Z).
    assert (Hp : (0 < p)%Z) by (apply Z.pow_pos_nonneg; lia).
    pose proof (nearestEven_bounds (num * p) den (B * p) Hd ltac:(nia)
                  ltac:(nia)) as Hm.
    eexists. split; [reflexivity|].
    rewrite Qred_correct. unfold Qle. simpl.
    rewrite Z2Pos.id by exact Hp. lia.
Qed.

(** A number between 0 and an integer below 2^53 rounds to a double
    between the two. *)
Lemma roundDouble_range (q : Q) (B : Z) :
  (B < 2 ^ 53)%Z -> (0 <= q)%Q -> (q <= inject_Z B)%Q ->
  exists x, JS.roundDouble q = JS.NFin x /\ (0 <= x)%Q /\ (x <= inject_Z B)%Q.
Proof.
  intros HB H0 Hle. destruct q as [n d]. unfold JS.roundDouble. simpl.
  unfold Qle in H0, Hle. simpl in H0, Hle.
  destruct n as [| n | n]; [| |lia].
  - exists 0%Q. split; [reflexivity|]. split; [discriminate|].
    change 0%Q with (inject_Z 0). rewrite <- Zle_Qle. lia.
  - destruct (nearestDouble_range (Zpos n) (Zpos d) B) as (x & -> & Hx);
      try lia.
    now exists x.
Qed.

(** Above the subnormal numbers the last place leaves 53 bits in front
    of it. *)
Lemma lastPlace_normal (num den : Z) :
  (0 < num)%Z -> (0 < den)%Z ->
  (JS.lastPlace num den <= 0)%Z -> (-1074 < JS.lastPlace num den)%Z ->
  (2 ^ 52 * den <= num * 2 ^ (- JS.lastPlace num den))%Z.
Proof.
  intros Hn Hd. unfold JS.lastPlace.
  set (l := (Z.log2 num - Z.log2 den - 52)%Z).
  destruct (JS.scaled num den l) as [n d] eqn:E.
  destruct (Z.leb_spec (2 ^ 52 * d) n) as [Hge | Hlt]; intros Hle Hgt.
  - rewrite Z.max_r in * by lia. unfold JS.scaled in E.
    destruct (Z.leb_spec 0 l) as [H0 | H0]; injection E as <- <-.
    + assert (l = 0)%Z as -> by lia. simpl in *. lia.
    + exact Hge.
  - rewrite Z.max_r in * by lia.
    destruct (Z.log2_spec num Hn) as [Hlo _].
    destruct (Z.log2_spec den Hd) as [_ Hhi].
    pose proof (Z.log2_nonneg num) as Ha. pose proof (Z.log2_nonneg den) as Hb.
    set (a := Z.log2 num) in *. set (b := Z.log2 den) in *.
    replace (- (l - 1))%Z with (53 - a + b)%Z by (unfold l; lia).
    assert (H53 : (0 <= 53 - a + b)%Z) by (unfold l in Hle; lia).
    assert (Hpow : (2 ^ a * 2 ^ (53 - a + b) = 2 ^ 52 * 2 ^ Z.succ b)%Z).
    { rewrite <- !Z.pow_add_r by lia. f_equal. lia. }
    assert (Hp : (0 < 2 ^ (53 - a + b))%Z) by (apply Z.pow_pos_nonneg; lia).
    nia.
Qed.

(** The nearest integer is within a half. *)
Lemma nearestEven_half (X n : Z) :
  (0 < n)%Z ->
  (2 * X - n <= 2 * JS.nearestEven X n * n <= 2 * X + n)%Z.
Proof.
  intros Hn. unfold JS.nearestEven.
  pose proof (Z.div_mod X n ltac:(lia)) as E.
  pose proof (Z.mod_pos_bound X n Hn) as Hr.
  set (k := (X / n)%Z) in *. set (r := (X mod n)%Z) in *.
  destruct (Z.ltb_spec (2 * r) n); [nia|].
  destruct (Z.ltb_spec n (2 * r)); [nia|].
  destruct (Z.even k); nia.
Qed.

(** The last place of a number that is not too small lies above the
    subnormal range. *)
Lemma lastPlace_lower (num den K : Z) :
  (0 < num)%Z -> (0 < den)%Z -> (0 <= K)%Z -> (den <= num * 2 ^ K)%Z ->
  (- K - 53 <= JS.lastPlace num den)%Z.
Proof.
  intros Hn Hd HK Hle. unfold JS.lastPlace.
  pose proof (Z.log2_le_mono den (num * 2 ^ K) Hle) as H.
  rewrite Z.log2_mul_pow2 in H by lia.
  destruct (JS.scaled num den _) as [a b].
  destruct (2 ^ 52 * b <=? a)%Z; lia.
Qed.

(** Rounding a positive number in the normal range below 2^53 changes it
    by at most its 2^-53rd part. *)
Lemma nearestDouble_accurate (n d : positive) :
  (Z.pos n < 2 ^ 53 * Z.pos d)%Z ->
  (-1074 < JS.lastPlace (Z.pos n) (Z.pos d))%Z ->
  exists x, JS.nearestDouble (Z.pos n) (Z.pos d) = Some x
            /\ (x - (Z.pos n # d) <= (Z.pos n # d) * halfUlp)%Q
            /\ ((Z.pos n # d) - x <= (Z.pos n # d) * halfUlp)%Q.
Proof.
  intros Hlt Hgt.
  pose proof (lastPlace_small (Z.pos n) (Z.pos d) ltac:(lia) ltac:(lia) Hlt) as He.
  pose proof (lastPlace_normal (Z.pos n) (Z.pos d) ltac:(lia) ltac:(lia) He Hgt)
    as Hnormal.
  unfold JS.nearestDouble. set (e := JS.lastPlace (Z.pos n) (Z.pos d)) in *.
  unfold JS.scaled.
  set (P := (2 ^ (- e))%Z) in *.
  assert (HP : (0 < P)%Z) by (apply Z.pow_pos_nonneg; lia).
  pose proof (nearestEven_half (Z.pos n * P) (Z.pos d) ltac:(lia)) as Hhalf.
  set (m := JS.nearestEven (Z.pos n * P) (Z.pos d)) in *.
  assert (Hb : forall x : Q,
             (x == m # Z.to_pos P)%Q ->
             (x - (Z.pos n # d) <= (Z.pos n # d) * halfUlp)%Q
             /\ ((Z.pos n # d) - x <= (Z.pos n # d) * halfUlp)%Q).
  { intros x Ex. rewrite Ex. unfold halfUlp, Qle, Qminus, Qplus, Qopp, Qmult.
    cbn [Qnum Qden]. rewrite !Pos2Z.inj_mul, !Z2Pos.id by exact HP.
    change (Z.pos 9007199254740992) with (2 ^ 53)%Z.
    assert (H52 : (2 ^ 53 = 2 * 2 ^ 52)%Z) by reflexivity.
    set (a := (2 ^ 52)%Z) in *. clearbody a.
    set (N := Z.pos n) in *. set (D := Z.pos d) in *.
    assert (0 < N)%Z by (unfold N; lia). assert (0 < D)%Z by (unfold D; lia).
    clearbody N D m. rewrite H52. split; nia. }
  destruct (Z.leb_spec 0 e) as [H0 | Hneg].
  - assert (E0 : e = 0%Z) by lia.
    assert (E : P = 1%Z) by (unfold P; rewrite E0; reflexivity).
    assert (Em : (JS.nearestEven (Z.pos n) (Z.pos d * 2 ^ e) * 2 ^ e)%Z = m).
    { unfold m. rewrite E, E0. change (2 ^ 0)%Z with 1%Z.
      now rewrite !Z.mul_1_r. }
    rewrite Em.
    pose proof (nearestEven_bounds (Z.pos n * P) (Z.pos d) (2 ^ 53)
                  ltac:(lia) ltac:(lia) ltac:(lia)) as Hm. fold m in Hm.
    destruct (Z.leb_spec (2 ^ 1024) m) as [Hbig | _].
    + exfalso. assert (2 ^ 53 < 2 ^ 1024)%Z
        by (apply Z.pow_lt_mono_r; lia). lia.
    + eexists. split; [reflexivity|]. apply Hb. rewrite E. reflexivity.
  - eexists. split; [reflexivity|]. apply Hb, Qred_correct.
Qed.

(** Rounding a positive number between 2^-K and 2^53 changes it by at most
    its 2^-53rd part. *)
Lemma roundDouble_accurate (q : Q) (K : Z) :
  (0 <= K <= 1020)%Z ->
  (0 < q)%Q -> (q < inject_Z (2 ^ 53))%Q -> (1 <= q * inject_Z (2 ^ K))%Q ->
  exists x, JS.roundDouble q = JS.NFin x
            /\ (x - q <= q * halfUlp)%Q /\ (q - x <= q * halfUlp)%Q.
Proof.
  intros HK H0 Hlt Hlo. destruct q as [n d].
  unfold Qlt in H0, Hlt. unfold Qle in Hlo. cbn [Qnum Qden inject_Z Qmult] in *.
  rewrite ?Z.mul_1_r, ?Z.mul_1_l, ?Pos.mul_1_r in *.
  destruct n as [| n | n]; try lia.
  unfold JS.roundDouble. cbn [Qnum Qden].
  assert (Hp : (0 < 2 ^ K)%Z) by (apply Z.pow_pos_nonneg; lia).
  pose proof (lastPlace_lower (Z.pos n) (Z.pos d) K ltac:(lia) ltac:(lia)
                ltac:(lia) ltac:(lia)) as He.
  destruct (nearestDouble_accurate n d ltac:(lia) ltac:(lia)) as (x & -> & Hx).
  now exists x.
Qed.

(** [fixed2 q] is a multiple of 1/100 at distance at most 1/200 from [q]. *)
Lemma fixed2_nearest (q : Q) :
  (exists k : Z, JS.fixed2 q == inject_Z k / 100)%Q
  /\ (q - (1 # 200) < JS.fixed2 q)%Q
  /\ (JS.fixed2 q <= q + (1 # 200))%Q.
Proof.
  unfold JS.fixed2.
  pose proof (Qfloor_le (q * 100 + (1 # 2))) as Hlo.
  pose proof (Qlt_floor (q * 100 + (1 # 2))) as Hhi.
  rewrite inject_Z_plus in Hhi.
  set (k := inject_Z (Qfloor (q * 100 + (1 # 2)))) in *.
  change (inject_Z 1) with 1%Q in Hhi.
  split; [exists (Qfloor (q * 100 + (1 # 2))); reflexivity|].
  split.
  - apply Qlt_shift_div_l; [reflexivity|]. lra.
  - apply Qle_shift_div_r; [reflexivity|]. lra.
Qed.

Lemma fixed2_range (q : Q) :
  (0 <= q)%Q -> (q <= 100)%Q -> (0 <= JS.fixed2 q)%Q /\ (JS.fixed2 q <= 100)%Q.
Proof.
  intros H0 H100. unfold JS.fixed2.
  assert (Hlo : (0 <= Qfloor (q * 100 + (1 # 2)))%Z).
  { change 0%Z with (Qfloor 0). apply Qfloor_resp_le. lra. }
  assert (Hhi : (Qfloor (q * 100 + (1 # 2)) <= 10000)%Z).
  { change 10000%Z with (Qfloor (10000 + (1 # 2))). apply Qfloor_resp_le. lra. }
  rewrite Zle_Qle in Hlo, Hhi.
  set (k := inject_Z (Qfloor (q * 100 + (1 # 2)))) in *.
  change (inject_Z 0) with 0%Q in Hlo.
  change (inject_Z 10000) with 10000%Q in Hhi.
  split.
  - apply Qle_shift_div_l; [reflexivity|]. lra.
  - apply Qle_shift_div_r; [reflexivity|]. lra.
Qed.

Lemma ratio_range (c t : nat) :
  c <= t -> 0 < t ->
  (0 <= inject_Z (Z.of_nat c) / inject_Z (Z.of_nat t))%Q
  /\ (inject_Z (Z.of_nat c) / inject_Z (Z.of_nat t) <= 1)%Q.
Proof.
  intros Hle Ht.
  assert (H0 : (0 < inject_Z (Z.of_nat t))%Q)
    by (change 0%Q with (inject_Z 0); rewrite <- Zlt_Qlt; lia).
  split.
  - apply Qle_shift_div_l; [exact H0|]. rewrite Qmult_0_l.
    change 0%Q with (inject_Z 0). rewrite <- Zle_Qle. lia.
  - apply Qle_shift_div_r; [exact H0|]. rewrite Qmult_1_l.
    rewrite <- Zle_Qle. lia.
Qed.

(** The double [(count / total) * 100] of a count within a total that is
    not 0 is finite and lies between 0 and 100. *)
Lemma ratioTimes100_range (c t : nat) :
  c <= t -> 0 < t ->
  exists y, ratioTimes100 c t = JS.NFin y /\ (0 <= y)%Q /\ (y <= 100)%Q.
Proof.
  intros Hle Ht. unfold ratioTimes100, JS.divide, JS.ofNat.
  rewrite isZero_inject_Z.
  destruct (Z.eqb_spec (Z.of_nat t) 0) as [E | _]; [lia|].
  destruct (ratio_range c t Hle Ht) as [H0 H1].
  destruct (roundDouble_range _ 1 ltac:(reflexivity) H0 H1)
    as (x & -> & Hx0 & Hx1).
  change (inject_Z 1) with 1%Q in Hx1. cbn [JS.multiply].
  destruct (roundDouble_range (x * 100)%Q 100 ltac:(reflexivity))
    as (y & -> & Hy0 & Hy1).
  - lra.
  - change (inject_Z 100) with 100%Q. lra.
  - exists y. split; [reflexivity|]. split; [exact Hy0|exact Hy1].
Qed.

(** [toFixed(2)] and [Number] on a double between 0 and 100. *)
Lemma toFixed2_range (y : Q) :
  (0 <= y)%Q -> (y <= 100)%Q ->
  JS.toFixed2 (JS.NFin y) = JS.roundDouble (JS.fixed2 y)
  /\ exists z, JS.roundDouble (JS.fixed2 y) = JS.NFin z
               /\ (0 <= z)%Q /\ (z <= 100)%Q.
Proof.
  intros H0 H100. cbn [JS.toFixed2]. rewrite (Qltb_nonneg _ H0).
  split; [reflexivity|].
  destruct (fixed2_range y H0 H100) as [Hf0 Hf1].
  exact (roundDouble_range _ 100 ltac:(reflexivity) Hf0 Hf1).
Qed.

(** The percentage of a stage whose count does not exceed the total:
    NaN on the total 0, and a number between 0 and 100 otherwise. *)
Lemma percentOf_range (c t : nat) :
  c <= t ->
  if (t =? 0)%nat then percentOf c t = JS.NNaN
  else exists z, percentOf c t = JS.NFin z /\ (0 <= z)%Q /\ (z <= 100)%Q.
Proof.
  intros Hle. destruct (Nat.eqb_spec t 0) as [-> | Ht].
  - assert (c = 0) as -> by lia. reflexivity.
  - unfold percentOf.
    destruct (ratioTimes100_range c t Hle ltac:(lia)) as (y & -> & H0 & H1).
    destruct (toFixed2_range y H0 H1) as (-> & Hz). exact Hz.
Qed.

(** The double [(count / total) * 100] lies within 201 * 2^-53 of the
    percentage. *)
Lemma ratioTimes100_accurate (c t : nat) :
  0 < c -> c <= t -> (Z.of_nat t <= 10000)%Z ->
  exists y, ratioTimes100 c t = JS.NFin y
            /\ (y - exactPercentage c t <= 201 * halfUlp)%Q
            /\ (exactPercentage c t - y <= 201 * halfUlp)%Q.
Proof.
  intros Hc Hle Ht. unfold ratioTimes100, exactPercentage, JS.divide, JS.ofNat.
  rewrite isZero_inject_Z.
  destruct (Z.eqb_spec (Z.of_nat t) 0) as [E | _]; [lia|].
  set (C := inject_Z (Z.of_nat c)). set (T := inject_Z (Z.of_nat t)).
  assert (HC : (1 <= C)%Q)
    by (unfold C; change 1%Q with (inject_Z 1); rewrite <- Zle_Qle; lia).
  assert (HCT : (C <= T)%Q) by (unfold C, T; rewrite <- Zle_Qle; lia).
  assert (HT : (T <= 10000)%Q)
    by (unfold T; change 10000%Q with (inject_Z 10000); rewrite <- Zle_Qle; lia).
  set (r := (C / T)%Q).
  assert (Hr : (r * T == C)%Q) by (unfold r; field; lra).
  assert (Hr1 : (r <= 1)%Q)
    by (unfold r; apply Qle_shift_div_r; lra).
  assert (Hr0 : ((1 # 10000) <= r)%Q).
  { unfold r. apply Qle_shift_div_l; [lra|]. lra. }
  destruct (roundDouble_accurate r 14 ltac:(lia)) as (x & -> & Hx1 & Hx2).
  { lra. }
  { change (inject_Z (2 ^ 53)) with 9007199254740992%Q. lra. }
  { change (inject_Z (2 ^ 14)) with 16384%Q. lra. }
  cbn [JS.multiply]. unfold halfUlp in *.
  destruct (roundDouble_accurate (x * 100)%Q 9 ltac:(lia)) as (y & -> & Hy1 & Hy2).
  { lra. }
  { change (inject_Z (2 ^ 53)) with 9007199254740992%Q. lra. }
  { change (inject_Z (2 ^ 9)) with 512%Q. lra. }
  exists y. split; [reflexivity|]. unfold halfUlp in *. split; lra.
Qed.

Lemma inject_Z_tie (c n k t : Z) :
  (inject_Z (20000 * c - (2 * n + k) * t)
   == 20000 * inject_Z c - (2 * inject_Z n + inject_Z k) * inject_Z t)%Q.
Proof.
  unfold Z.sub. rewrite inject_Z_plus, inject_Z_opp, !inject_Z_mult,
    inject_Z_plus, inject_Z_mult. reflexivity.
Qed.

(** A number within 201 * 2^-53 of the percentage of a total of at most
    10000 has, among the decimals with two fraction digits, a nearest one
    in common with it: no tie between two decimals lies that close to the
    percentage without being it. *)
Lemma fixed2_of_percentage (c t : nat) (y : Q) :
  0 < t -> (Z.of_nat t <= 10000)%Z ->
  (y - exactPercentage c t <= 201 * halfUlp)%Q ->
  (exactPercentage c t - y <= 201 * halfUlp)%Q ->
  (JS.fixed2 y - exactPercentage c t <= 1 # 200)%Q
  /\ (exactPercentage c t - JS.fixed2 y <= 1 # 200)%Q.
Proof.
  intros Ht0 Ht Hy1 Hy2. unfold JS.fixed2, halfUlp in *.
  set (n := Qfloor (y * 100 + (1 # 2))).
  pose proof (Qfloor_le (y * 100 + (1 # 2))) as Hlo.
  pose proof (Qlt_floor (y * 100 + (1 # 2))) as Hhi.
  fold n in Hlo, Hhi. rewrite inject_Z_plus in Hhi.
  change (inject_Z 1) with 1%Q in Hhi.
  set (p := exactPercentage c t) in *.
  set (C := inject_Z (Z.of_nat c)). set (T := inject_Z (Z.of_nat t)).
  assert (HT1 : (1 <= T)%Q)
    by (unfold T; change 1%Q with (inject_Z 1); rewrite <- Zle_Qle; lia).
  assert (HT : (T <= 10000)%Q)
    by (unfold T; change 10000%Q with (inject_Z 10000); rewrite <- Zle_Qle; lia).
  assert (Hp : (p * T == 100 * C)%Q).
  { unfold p, exactPercentage. fold C T. field. lra. }
  set (N := inject_Z n) in *.
  (* the two integers that decide on which side of a tie the percentage is *)
  assert (Hup : (20000 * Z.of_nat c - (2 * n + 1) * Z.of_nat t <= 0)%Z).
  { destruct (Z_le_gt_dec (20000 * Z.of_nat c - (2 * n + 1) * Z.of_nat t) 0)
      as [H | H]; [exact H|exfalso].
    assert (HA : (1 <= 20000 * C - (2 * N + 1) * T)%Q).
    { change 1%Q with (inject_Z 1) at 2. unfold C, N, T.
      rewrite <- inject_Z_tie. change 1%Q with (inject_Z 1).
      rewrite <- Zle_Qle. lia. }
    assert (HX : (200 * p - 2 * N - 1 <= 1 # 100000)%Q) by lra.
    assert (HTX : (T * (200 * p - 2 * N - 1) <= T * (1 # 100000))%Q)
      by (apply Qmult_le_l; lra).
    assert (E : (T * (200 * p - 2 * N - 1) == 20000 * C - (2 * N + 1) * T)%Q).
    { transitivity (200 * (p * T) - (2 * N + 1) * T)%Q; [ring|].
      rewrite Hp. ring. }
    rewrite E in HTX. lra. }
  assert (Hdown : (0 <= 20000 * Z.of_nat c - (2 * n - 1) * Z.of_nat t)%Z).
  { destruct (Z_le_gt_dec 0 (20000 * Z.of_nat c - (2 * n - 1) * Z.of_nat t))
      as [H | H]; [exact H|exfalso].
    assert (HA : (20000 * C - (2 * N + inject_Z (-1)) * T <= -1)%Q).
    { unfold C, N, T. rewrite <- inject_Z_tie.
      change (-1)%Q with (inject_Z (-1)). rewrite <- Zle_Qle. lia. }
    change (inject_Z (-1)) with (-1)%Q in HA.
    assert (HX : (- (1 # 100000) <= 200 * p - 2 * N + 1)%Q) by lra.
    assert (HTX : (T * - (1 # 100000) <= T * (200 * p - 2 * N + 1))%Q)
      by (apply Qmult_le_l; lra).
    assert (E : (T * (200 * p - 2 * N + 1) == 20000 * C - (2 * N + -1) * T)%Q).
    { transitivity (200 * (p * T) - (2 * N + -1) * T)%Q; [ring|].
      rewrite Hp. ring. }
    rewrite E in HTX. lra. }
  (* back to the rationals *)
  assert (HupQ : (20000 * C - (2 * N + 1) * T <= 0)%Q).
  { change 1%Q with (inject_Z 1). unfold C, N, T.
    rewrite <- inject_Z_tie. change 0%Q with (inject_Z 0).
    rewrite <- Zle_Qle. exact Hup. }
  assert (HdownQ : (0 <= 20000 * C - (2 * N - 1) * T)%Q).
  { assert (E0 : (20000 * C - (2 * N - 1) * T
                  == 20000 * C - (2 * N + inject_Z (-1)) * T)%Q)
      by (change (inject_Z (-1)) with (-1)%Q; ring).
    rewrite E0. unfold C, N, T. rewrite <- inject_Z_tie. change 0%Q with (inject_Z 0).
    rewrite <- Zle_Qle.
    replace (2 * n + -1)%Z with (2 * n - 1)%Z by lia. exact Hdown. }
  assert (E1 : (T * (200 * p - 2 * N - 1) == 20000 * C - (2 * N + 1) * T)%Q).
  { transitivity (200 * (p * T) - (2 * N + 1) * T)%Q; [ring|]. rewrite Hp. ring. }
  assert (E2 : (T * (200 * p - 2 * N + 1) == 20000 * C - (2 * N - 1) * T)%Q).
  { transitivity (200 * (p * T) - (2 * N - 1) * T)%Q; [ring|]. rewrite Hp. ring. }
  rewrite <- E1 in HupQ. rewrite <- E2 in HdownQ.
  assert (H1 : (200 * p - 2 * N - 1 <= 0)%Q).
  { destruct (Qlt_le_dec 0 (200 * p - 2 * N - 1)) as [H | H]; [|exact H].
    exfalso. assert (0 < T * (200 * p - 2 * N - 1))%Q
      by (apply Qmult_lt_0_compat; lra). lra. }
  assert (H2 : (0 <= 200 * p - 2 * N + 1)%Q).
  { destruct (Qlt_le_dec (200 * p - 2 * N + 1) 0) as [H | H]; [|exact H].
    exfalso. assert (0 < T * - (200 * p - 2 * N + 1))%Q
      by (apply Qmult_lt_0_compat; lra).
    assert (T * - (200 * p - 2 * N + 1) == - (T * (200 * p - 2 * N + 1)))%Q
      by ring.
    lra. }
  split.
  - assert (E : (N / 100 - p == (1 # 200) - (200 * p - 2 * N + 1) / 200)%Q)
      by field.
    rewrite E.
    assert (0 <= (200 * p - 2 * N + 1) / 200)%Q
      by (apply Qle_shift_div_l; lra).
    lra.
  - assert (E : (p - N / 100 == (1 # 200) + (200 * p - 2 * N - 1) / 200)%Q)
      by field.
    rewrite E.
    assert ((200 * p - 2 * N - 1) / 200 <= 0)%Q
      by (apply Qle_shift_div_r; lra).
    lra.
Qed.

(** On a total of at most 10000 the decimal [toFixed(2)] makes of the
    double is a decimal with two fraction digits nearest to the percentage
    itself. *)
Lemma percentage_nearest (c t : nat) (y : Q) :
  c <= t -> 0 < t -> (Z.of_nat t <= 10000)%Z ->
  ratioTimes100 c t = JS.NFin y ->
  (JS.fixed2 y - exactPercentage c t <= 1 # 200)%Q
  /\ (exactPercentage c t - JS.fixed2 y <= 1 # 200)%Q.
Proof.
  intros Hle Ht Hcap Hy. destruct c as [| c].
  - assert (E : ratioTimes100 0 t = JS.NFin 0).
    { unfold ratioTimes100, JS.divide, JS.ofNat. rewrite isZero_inject_Z.
      destruct (Z.eqb_spec (Z.of_nat t) 0) as [E | _]; [lia|].
      destruct (Z.of_nat t); reflexivity. }
    rewrite E in Hy. injection Hy as <-.
    assert (Ep : (exactPercentage 0 t == 0)%Q).
    { unfold exactPercentage. change (inject_Z (Z.of_nat 0)) with 0%Q.
      field. change 0%Q with (inject_Z 0). rewrite inject_Z_injective. lia. }
    rewrite Ep. split; vm_compute; discriminate.
  - destruct (ratioTimes100_accurate (S c) t ltac:(lia) Hle Hcap)
      as (y' & Hy' & H1 & H2).
    rewrite Hy in Hy'. injection Hy' as <-.
    now apply fixed2_of_percentage.
Qed.

(** C8, as the code has it: every stage reports its count; the first
    stage reports the constant 100; on the total 0 each of the other four
    reports NaN; on another total each reports the double
    (count / total) * 100, a number between 0 and 100, rounded to the
    nearest decimal with two fraction digits (the upper one on a tie) and
    read back as a double.  On a total of at most 10000, the most the
    analytics fetch, that decimal is one nearest to the percentage
    itself: the arithmetic on doubles decides a tie at most. *)
Theorem funnel_percentages (ps : list Problem) :
  let t := length ps in
  let pct (c : nat) :=
    if (t =? 0)%nat then JS.NNaN else JS.toFixed2 (ratioTimes100 c t) in
  (exists c1 c2 c3 c4,
      getRemediationFunnel_body ps
      = [ {| stage_name := "Total Problems"; stage_count := t;
             percentage := JS.NFin 100 |};
          {| stage_name := "With Comments"; stage_count := c1;
             percentage := pct c1 |};
          {| stage_name := "GitHub Actions Initiated"; stage_count := c2;
             percentage := pct c2 |};
          {| stage_name := "Remediation Successful"; stage_count := c3;
             percentage := pct c3 |};
          {| stage_name := "Closed"; stage_count := c4;
             percentage := pct c4 |} ]
      /\ c1 <= t /\ c2 <= t /\ c3 <= t /\ c4 <= t)
  /\ (forall c, c <= t -> t <> 0 ->
        exists y, ratioTimes100 c t = JS.NFin y
                  /\ (0 <= y)%Q /\ (y <= 100)%Q
                  /\ pct c = JS.roundDouble (JS.fixed2 y)
                  /\ ((Z.of_nat t <= 10000)%Z ->
                      (JS.fixed2 y - exactPercentage c t <= 1 # 200)%Q
                      /\ (exactPercentage c t - JS.fixed2 y <= 1 # 200)%Q))
  /\ (forall q : Q,
         (exists k : Z, JS.fixed2 q == inject_Z k / 100)%Q
         /\ (q - (1 # 200) < JS.fixed2 q)%Q
         /\ (JS.fixed2 q <= q + (1 # 200))%Q).
Proof.
  intros t pct. split; [|split; [|apply fixed2_nearest]].
  - assert (H1 : length (List.filter hasComments ps) <= t)
      by apply filter_length_le.
    assert (H2 : length (List.filter mentionsGitHubActions
                           (List.filter hasComments ps)) <= t)
      by (etransitivity; [apply filter_length_le|exact H1]).
    assert (H3 : length (List.filter mentionsSuccess
                           (List.filter mentionsGitHubActions
                              (List.filter hasComments ps))) <= t)
      by (etransitivity; [apply filter_length_le|exact H2]).
    assert (H4 : length (List.filter isClosed ps) <= t)
      by apply filter_length_le.
    assert (Hpct : forall c, c <= t -> percentOf c t = pct c).
    { intros c Hc. unfold pct. pose proof (percentOf_range c t Hc) as H.
      destruct (t =? 0)%nat; [exact H|reflexivity]. }
    exists (length (List.filter hasComments ps)),
      (length (List.filter mentionsGitHubActions (List.filter hasComments ps))),
      (length (List.filter mentionsSuccess
                 (List.filter mentionsGitHubActions
                    (List.filter hasComments ps)))),
      (length (List.filter isClosed ps)).
    split; [|auto].
    unfold getRemediationFunnel_body. fold t.
    now rewrite (Hpct _ H1), (Hpct _ H2), (Hpct _ H3), (Hpct _ H4).
  - intros c Hc Ht. unfold pct.
    destruct (Nat.eqb_spec t 0) as [E | _]; [contradiction|].
    destruct (ratioTimes100_range c t Hc ltac:(lia)) as (y & Hy & H0 & H1).
    exists y. split; [exact Hy|]. split; [exact H0|]. split; [exact H1|].
    split; [rewrite Hy; apply toFixed2_range; assumption|].
    intros Hcap. apply percentage_nearest; try assumption. lia.
Qed.

(** C8 as stated fails: on the empty record set the first stage's
    percentage is 100, not NaN. *)
Lemma funnel_total_stage_not_NaN :
  map percentage (getRemediationFunnel_body [])
  = [JS.NFin 100; JS.NNaN; JS.NNaN; JS.NNaN; JS.NNaN]
  /\ ~ (forall ps : list Problem,
           length ps = 0 ->
           Forall (fun s => percentage s = JS.NNaN) (getRemediationFunnel_body ps)).
Proof.
  split; [reflexivity|].
  intros H. specialize (H [] eq_refl).
  apply Forall_inv in H. discriminate H.
Qed.

(** *** KPIs *)

Lemma closedDurations_cons (p : Problem) (ps : list Problem) :
  closedDurations (p :: ps)
  = if isClosed p then durationOrZero p :: closedDurations ps
    else closedDurations ps.
Proof. unfold closedDurations. simpl. now destruct (isClosed p). Qed.

(** What the [forEach] of [getKPIs] leaves in its two accumulators. *)
Lemma kpiStep_fold (ps : list Problem) (acc : JS.Num * list JS.Num) :
  fold_left kpiStep ps acc
  = (fold_left (fun a d => JS.add a (JS.roundDouble d))
               (map durationOrZero ps) (fst acc),
     (snd acc ++ map JS.roundDouble (closedDurations ps))%list).
Proof.
  revert acc. induction ps as [| p ps IH]; intros [t rt];
    cbn [fold_left map fst snd].
  - now rewrite app_nil_r.
  - rewrite IH, closedDurations_cons. unfold kpiStep, durationNumber.
    cbn [fst snd].
    destruct (isClosed p); cbn [fst snd map]; [|reflexivity].
    now rewrite <- app_assoc.
Qed.

Lemma reduceAdd_doubles (l : list Q) :
  reduceAdd (map JS.roundDouble l) = doubleSum l.
Proof.
  unfold reduceAdd, doubleSum. generalize (JS.NFin 0).
  induction l as [| d l IH]; intros a; cbn [fold_left map]; [reflexivity|].
  apply IH.
Qed.

(** [Math.round] gives the integer nearest to a finite number, the upper
    one on a tie. *)
Lemma round_nearest (q : Q) :
  exists k : Z, JS.round (JS.NFin q) = JS.NFin (inject_Z k)
    /\ (q - (1 # 2) < inject_Z k)%Q /\ (inject_Z k <= q + (1 # 2))%Q.
Proof.
  exists (Qfloor (q + (1 # 2))). split; [reflexivity|].
  pose proof (Qfloor_le (q + (1 # 2))) as Hlo.
  pose proof (Qlt_floor (q + (1 # 2))) as Hhi.
  rewrite inject_Z_plus in Hhi. change (inject_Z 1) with 1%Q in Hhi.
  split; lra.
Qed.

(** **** Whole numbers of minutes *)

Lemma nearestEven_one (z : Z) : JS.nearestEven z 1 = z.
Proof.
  unfold JS.nearestEven. rewrite Z.div_1_r, Z.mod_1_r. reflexivity.
Qed.

Lemma Qred_scaled (z p : Z) :
  (0 < p)%Z -> Qred (Qmake (z * p) (Z.to_pos p)) = inject_Z z.
Proof.
  intros Hp.
  transitivity (Qred (inject_Z z)).
  - apply Qred_complete. unfold Qeq, inject_Z. simpl.
    rewrite Z2Pos.id by exact Hp. ring.
  - unfold Qred, inject_Z. simpl.
    pose proof (Z.ggcd_correct_divisors z 1) as Hd.
    pose proof (Z.ggcd_gcd z 1) as Hg. rewrite Z.gcd_1_r in Hg.
    destruct (Z.ggcd z 1) as (g & aa & bb). simpl in Hg. subst g.
    destruct Hd as [-> Hb]. rewrite !Z.mul_1_l in *. now subst bb.
Qed.

(** An integer below 2^53 is a double. *)
Lemma nearestDouble_integer (z : Z) :
  (0 < z)%Z -> (z < 2 ^ 53)%Z -> JS.nearestDouble z 1 = Some (inject_Z z).
Proof.
  intros H0 Hz.
  pose proof (lastPlace_small z 1 H0 ltac:(lia) ltac:(lia)) as He.
  unfold JS.nearestDouble. set (e := JS.lastPlace z 1) in *. unfold JS.scaled.
  destruct (Z.leb_spec 0 e) as [Hpos | Hneg].
  - assert (e = 0)%Z as -> by lia. change (2 ^ 0)%Z with 1%Z.
    rewrite !Z.mul_1_r, nearestEven_one.
    destruct (Z.leb_spec (2 ^ 1024) z) as [Hbig | _]; [|reflexivity].
    exfalso. assert (2 ^ 53 <= 2 ^ 1024)%Z by (apply Z.pow_le_mono_r; lia). lia.
  - rewrite nearestEven_one. f_equal. apply Qred_scaled.
    apply Z.pow_pos_nonneg; lia.
Qed.

Lemma roundDouble_integer (z : Z) :
  (0 <= z)%Z -> (z < 2 ^ 53)%Z -> JS.roundDouble (inject_Z z) = JS.NFin (inject_Z z).
Proof.
  intros H0 Hz. unfold JS.roundDouble. simpl.
  destruct z as [| p | p]; [reflexivity| |lia].
  now rewrite nearestDouble_integer by lia.
Qed.

(** Whole numbers add up without rounding as long as the sum stays below 2^53. *)
Lemma add_integers (a d : Z) :
  (0 <= a)%Z -> (0 <= d)%Z -> (a + d < 2 ^ 53)%Z ->
  JS.add (JS.NFin (inject_Z a)) (JS.NFin (inject_Z d)) = JS.NFin (inject_Z (a + d)).
Proof.
  intros Ha Hd Hlt. cbn [JS.add].
  replace (inject_Z a + inject_Z d)%Q with (inject_Z (a + d)).
  - now apply roundDouble_integer; lia.
  - unfold Qplus, inject_Z. simpl. f_equal. lia.
Qed.

Lemma fold_add_integers (zs : list Z) (a : Z) :
  (0 <= a)%Z -> Forall (fun z => 0 <= z)%Z zs -> (a + sumZ zs < 2 ^ 53)%Z ->
  fold_left (fun acc d => JS.add acc (JS.roundDouble d)) (map inject_Z zs)
            (JS.NFin (inject_Z a))
  = JS.NFin (inject_Z (a + sumZ zs)).
Proof.
  revert a. induction zs as [| z zs IH]; intros a Ha Hall Hlt;
    cbn [fold_left map].
  - change (sumZ []) with 0%Z. now rewrite Z.add_0_r.
  - inversion Hall as [| ? ? Hz Hall']; subst.
    change (sumZ (z :: zs)) with (z + sumZ zs)%Z in *.
    assert (0 <= sumZ zs)%Z.
    { clear -Hall'. induction Hall' as [| x l Hx _ IH]; [reflexivity|].
      change (sumZ (x :: l)) with (x + sumZ l)%Z. lia. }
    rewrite roundDouble_integer by lia.
    rewrite add_integers by lia. rewrite IH by (try assumption; lia).
    f_equal. f_equal. lia.
Qed.

Lemma doubleSum_integers (zs : list Z) :
  Forall (fun z => 0 <= z)%Z zs -> (sumZ zs < 2 ^ 53)%Z ->
  doubleSum (map inject_Z zs) = JS.NFin (inject_Z (sumZ zs)).
Proof.
  intros Hall Hlt. unfold doubleSum.
  change (JS.NFin 0) with (JS.NFin (inject_Z 0)).
  now rewrite fold_add_integers.
Qed.

(** The nearest integer to [m / P + 1/2] rounded down, by the bounds on
    [2 m]. *)
Lemma floor_half (m P K : Z) :
  (0 < P)%Z ->
  ((2 * K - 1) * P <= 2 * m)%Z -> (2 * m < (2 * K + 1) * P)%Z ->
  Qfloor (Qred (Qmake m (Z.to_pos P)) + (1 # 2)) = K.
Proof.
  intros HP Hlo Hhi.
  rewrite (Qfloor_comp _ (Qmake m (Z.to_pos P) + (1 # 2))%Q)
    by (now rewrite Qred_correct).
  unfold Qplus, Qfloor. simpl.
  rewrite Pos2Z.inj_mul, Z2Pos.id by exact HP.
  symmetry. apply (Z.div_unique_pos _ _ K (m * 2 + P - (P * 2) * K)%Z); lia.
Qed.

(** The quotient of a whole number below 2^52 by a count rounds, as a
    double, to the integer its exact value rounds to. *)
Lemma quotient_round (S n : Z) :
  (0 < S)%Z -> (S < 2 ^ 52)%Z -> (0 < n)%Z ->
  exists x, JS.nearestDouble S n = Some x
            /\ Qfloor (x + (1 # 2)) = ((2 * S + n) / (2 * n))%Z.
Proof.
  intros HS Hlt Hn.
  pose proof (lastPlace_small S n HS Hn ltac:(nia)) as He.
  pose proof (lastPlace_normal S n HS Hn He) as Hnormal.
  unfold JS.nearestDouble. set (e := JS.lastPlace S n) in *. unfold JS.scaled.
  destruct (Z.leb_spec 0 e) as [H0 | Hneg].
  { exfalso. assert (e = 0)%Z as E by lia. rewrite E in Hnormal.
    specialize (Hnormal ltac:(lia)). simpl in Hnormal. lia. }
  set (P := (2 ^ (- e))%Z) in *.
  assert (HP : (0 < P)%Z) by (apply Z.pow_pos_nonneg; lia).
  assert (Heven : exists P', P = (2 * P')%Z /\ (0 < P')%Z).
  { exists (2 ^ (- e - 1))%Z. split; [|apply Z.pow_pos_nonneg; lia].
    unfold P. replace (- e)%Z with (Z.succ (- e - 1)) at 1 by lia.
    apply Z.pow_succ_r. lia. }
  destruct Heven as (P' & EP & HP').
  pose proof (nearestEven_half (S * P) n Hn) as Hhalf.
  pose proof (nearestEven_bounds (S * P) n (S * P) Hn ltac:(nia) ltac:(nia))
    as [Hm0 _].
  set (m := JS.nearestEven (S * P) n) in *.
  set (K := ((2 * S + n) / (2 * n))%Z).
  assert (HK : (2 * n * K <= 2 * S + n < 2 * n * (K + 1))%Z).
  { pose proof (Z.div_mod (2 * S + n) (2 * n) ltac:(lia)) as E.
    pose proof (Z.mod_pos_bound (2 * S + n) (2 * n) ltac:(lia)) as Hr.
    fold K in E. lia. }
  assert (HK0 : (0 <= K)%Z) by (apply Z.div_pos; lia).
  eexists. split; [reflexivity|].
  apply floor_half; [exact HP| |].
  - (* (2K - 1) P <= 2m *)
    assert (H1 : (n * ((2 * K - 1) * P - 1) <= 2 * m * n)%Z) by nia.
    assert (H2 : ((2 * K - 1) * P - 1 <= 2 * m)%Z) by nia.
    rewrite EP in *. nia.
  - (* 2m < (2K + 1) P *)
    destruct (Z.ltb_spec n P) as [HnP | HPn].
    + assert (H1 : (2 * S * P + P <= (2 * K + 1) * n * P)%Z) by nia.
      assert (H2 : (2 * m * n < (2 * K + 1) * P * n)%Z) by nia.
      nia.
    + assert (E : (e = -1074)%Z).
      { destruct (Z.eq_dec e (-1074)%Z) as [E | Hne]; [exact E|].
        exfalso. assert (Hgt : (-1074 < e)%Z).
        { unfold e, JS.lastPlace in *.
          destruct (JS.scaled S n _) as [a b]. lia. }
        specialize (Hnormal Hgt). fold P in Hnormal. nia. }
      pose proof (nearestEven_bounds (S * P) n S Hn ltac:(nia) ltac:(nia))
        as [_ HmS].
      fold m in HmS.
      assert (HPbig : (2 ^ 53 <= P)%Z).
      { unfold P. rewrite E. apply Z.pow_le_mono_r; lia. }
      nia.
Qed.

Lemma nearestInteger_ratio (S n : Z) :
  (0 < n)%Z ->
  nearestInteger (inject_Z S / inject_Z n) = ((2 * S + n) / (2 * n))%Z.
Proof.
  intros Hn. unfold nearestInteger.
  destruct n as [| p | p]; try lia.
  rewrite (Qfloor_comp _ (Qmake (2 * S + Zpos p) (2 * p))).
  - reflexivity.
  - unfold Qeq, Qplus, Qdiv, Qmult, Qinv, inject_Z. simpl. lia.
Qed.

(** Whole numbers of minutes that add up to less than 2^52: the rounded
    double mean is the integer nearest to the mean. *)
Lemma round_doubleMean_integers (zs : list Z) :
  zs <> [] -> Forall (fun z => 0 <= z)%Z zs -> (sumZ zs < 2 ^ 52)%Z ->
  JS.round (doubleMean (map inject_Z zs))
  = JS.NFin (inject_Z (nearestInteger (exactMean zs))).
Proof.
  intros Hne Hall Hlt. unfold doubleMean, exactMean.
  rewrite doubleSum_integers by (try assumption; lia).
  rewrite length_map.
  assert (Hn : (0 < Z.of_nat (length zs))%Z)
    by (destruct zs; [contradiction|simpl; lia]).
  rewrite nearestInteger_ratio by exact Hn.
  assert (H0 : (0 <= sumZ zs)%Z).
  { clear -Hall. induction Hall as [| x l Hx _ IH]; [reflexivity|].
    change (sumZ (x :: l)) with (x + sumZ l)%Z. lia. }
  unfold JS.ofNat. set (n := Z.of_nat (length zs)) in *.
  set (S := sumZ zs) in *. clearbody n S.
  destruct n as [| p | p]; try lia.
  unfold JS.divide, JS.isZero, JS.roundDouble.
  change (Qeq_bool (inject_Z (Z.pos p)) 0) with false. cbv iota.
  unfold Qdiv, Qmult, Qinv, inject_Z. simpl Qnum. simpl Qden.
  rewrite Z.mul_1_r.
  destruct S as [| s | s]; [| |lia].
  - rewrite (Z.div_small (2 * 0 + Z.pos p) (2 * Z.pos p)) by lia.
    reflexivity.
  - change (1 * p)%positive with p.
    destruct (quotient_round (Z.pos s) (Z.pos p)) as (x & -> & Hx); try lia.
    cbn [JS.round]. now rewrite Hx.
Qed.

(** C5: [avgResolutionTime] is 0 when no record is CLOSED, and otherwise
    [Math.round] of the mean of the stored durations of the CLOSED records
    alone (a missing duration counting as 0), the mean being their sum
    divided by their number as double arithmetic gives them; when that
    mean is finite it is the integer nearest to it, the upper one on a
    tie.  When the durations of the CLOSED records are whole numbers of
    minutes, none negative, that add up to less than 2^52, no operation
    rounds anything away and it is the integer nearest to their mean. *)
Theorem kpis_avgResolutionTime (ps : list Problem) :
  let avg := avgResolutionTime (getKPIs_body ps) in
  match closedDurations ps with
  | [] => avg = JS.NFin 0
  | _ :: _ =>
      avg = JS.round (doubleMean (closedDurations ps))
      /\ (forall m : Q,
             doubleMean (closedDurations ps) = JS.NFin m ->
             exists k : Z,
               avg = JS.NFin (inject_Z k)
               /\ (m - (1 # 2) < inject_Z k)%Q
               /\ (inject_Z k <= m + (1 # 2))%Q)
      /\ (forall zs : list Z,
             closedDurations ps = map inject_Z zs ->
             Forall (fun z => 0 <= z)%Z zs -> (sumZ zs < 2 ^ 52)%Z ->
             avg = JS.NFin (inject_Z (nearestInteger (exactMean zs))))
  end.
Proof.
  intros avg.
  assert (Havg : avg
                 = if (0 <? length (closedDurations ps))%nat
                   then JS.round (doubleMean (closedDurations ps))
                   else JS.NFin 0).
  { unfold avg, getKPIs_body. rewrite kpiStep_fold. cbn [fst snd app].
    rewrite reduceAdd_doubles, length_map. reflexivity. }
  destruct (closedDurations ps) as [| d ds] eqn:E; [exact Havg|].
  change (0 <? length (d :: ds))%nat with true in Havg. cbv iota in Havg.
  split; [exact Havg|]. split.
  - intros m Hm. rewrite Havg, Hm. apply round_nearest.
  - intros zs Ezs Hall Hlt. rewrite Havg, Ezs.
    apply round_doubleMean_integers; try assumption.
    destruct zs; [discriminate Ezs|discriminate].
Qed.

(** The scenario: 45 and 200 minutes are CLOSED, their mean 122.5 rounds
    to 123, and the three durations add up to 249. *)
Example kpis_scenario :
  avgResolutionTime (getKPIs_body scenario) = JS.NFin 123
  /\ totalDuration (getKPIs_body scenario) = JS.NFin 249.
Proof. split; vm_compute; reflexivity. Qed.

(** The doubles that 0.3 and 0.7 are stored as lie a little under them;
    their double sum is 1 and the average 1, where the mean of the two
    rationals is under 0.5. *)
Example kpis_mean_of_doubles :
  exists a b : Q,
    JS.roundDouble (3 # 10) = JS.NFin a /\ JS.roundDouble (7 # 10) = JS.NFin b
    /\ ((a + b) / 2 < (1 # 2))%Q
    /\ avgResolutionTime
         (getKPIs_body [ mkProblem "P-1" "CLOSED" "ERROR" (Some a) [] [];
                         mkProblem "P-2" "CLOSED" "ERROR" (Some b) [] [] ])
       = JS.NFin 1
    /\ avgResolutionTime
         (getKPIs_body [ mkProblem "P-1" "CLOSED" "ERROR" (Some (3 # 10)%Q) [] [];
                         mkProblem "P-2" "CLOSED" "ERROR" (Some (7 # 10)%Q) [] [] ])
       = JS.NFin 1.
Proof.
  do 2 eexists. split; [vm_compute; reflexivity|].
  split; [vm_compute; reflexivity|]. repeat split; vm_compute; reflexivity.
Qed.

(** 0.1 and 0.2 minutes add up to 0.30000000000000004, and 2^53 and 1 to
    2^53. *)
Example kpis_total_of_doubles :
  totalDuration
    (getKPIs_body [ mkProblem "P-1" "OPEN" "ERROR" (Some (1 # 10)%Q) [] [];
                    mkProblem "P-2" "OPEN" "ERROR" (Some (2 # 10)%Q) [] [] ])
  = JS.NFin (1351079888211149 # 4503599627370496)
  /\ totalDuration
       (getKPIs_body [ mkProblem "P-1" "OPEN" "ERROR" (Some 9007199254740992%Q) [] [];
                       mkProblem "P-2" "OPEN" "ERROR" (Some 1%Q) [] [] ])
     = JS.NFin 9007199254740992.
Proof. split; vm_compute; reflexivity. Qed.

(** 23 of 160 is 14.375; the double product lies under it and [toFixed]
    gives 14.37. *)
Example percentOf_23_of_160 :
  percentOf 23 160 = JS.roundDouble (1437 # 100)
  /\ percentOf 1 3 = JS.roundDouble (3333 # 100)
  /\ percentOf 2 3 = JS.roundDouble (6667 # 100)
  /\ percentOf 3 3 = JS.NFin 100.
Proof. repeat split; vm_compute; reflexivity. Qed.

(** *** Top entities *)

(** One [has]/[get]/[set] step raises the count of the entity's id by one
    and leaves every other count alone. *)
Lemma countFor_countEntity (key : option string) (entity : AffectedEntity)
    (m : list (option string * EntityCount)) :
  countFor key (countEntity entity m)
  = countFor key m + (if hasId key entity then 1 else 0).
Proof.
  unfold countFor, hasId.
  induction m as [| [k e] m IH]; simpl.
  - case_bool_decide; reflexivity.
  - destruct (bool_decide (k = id (entityId entity))) eqn:Hk; simpl.
    + apply bool_decide_eq_true in Hk. subst k.
      case_bool_decide; simpl; lia.
    + apply bool_decide_eq_false in Hk.
      destruct (bool_decide (k = key)) eqn:Hkey; simpl.
      * apply bool_decide_eq_true in Hkey. subst k.
        rewrite bool_decide_eq_false_2 by congruence. lia.
      * exact IH.
Qed.

Lemma countFor_entities (key : option string) (es : list AffectedEntity)
    (m : list (option string * EntityCount)) :
  countFor key (fold_left (fun m entity => countEntity entity m) es m)
  = countFor key m + length (List.filter (hasId key) es).
Proof.
  revert m. induction es as [| e es IH]; intros m; simpl; [lia|].
  rewrite IH, countFor_countEntity. destruct (hasId key e); simpl; lia.
Qed.

Lemma countFor_problems (key : option string) (ps : list Problem)
    (m : list (option string * EntityCount)) :
  countFor key
    (fold_left
       (fun entityMap problem =>
          fold_left (fun m entity => countEntity entity m)
                    (affectedEntities problem) entityMap) ps m)
  = countFor key m + occurrences key ps.
Proof.
  unfold occurrences. revert m.
  induction ps as [| p ps IH]; intros m; simpl; [lia|].
  rewrite IH, countFor_entities, List.filter_app, length_app. lia.
Qed.

Lemma countFor_buildEntityMap (key : option string) (ps : list Problem) :
  countFor key (buildEntityMap ps) = occurrences key ps.
Proof. unfold buildEntityMap. now rewrite countFor_problems. Qed.

Lemma countEntity_keys (entity : AffectedEntity)
    (m : list (option string * EntityCount)) (k : option string) :
  In k (map fst (countEntity entity m))
  <-> In k (map fst m) \/ k = id (entityId entity).
Proof.
  induction m as [| [k' e] m IH]; simpl.
  - intuition.
  - case_bool_decide; simpl.
    + subst k'. intuition.
    + rewrite IH. intuition.
Qed.

Lemma countEntity_wellFormed (entity : AffectedEntity)
    (m : list (option string * EntityCount)) :
  wellFormed m -> wellFormed (countEntity entity m).
Proof.
  unfold wellFormed. induction m as [| [k e] m IH]; simpl; intros [Hnd Hpos].
  - split.
    + apply List.NoDup_cons; [intros []|apply List.NoDup_nil].
    + constructor; [simpl; lia|constructor].
  - inversion Hnd as [| ? ? Hnotin Hnd']; subst.
    inversion Hpos as [| ? ? Hk Hpos']; subst.
    case_bool_decide; simpl.
    + split; [now constructor|]. constructor; [simpl; lia|assumption].
    + destruct (IH (conj Hnd' Hpos')) as [IH1 IH2].
      split; constructor; try assumption.
      rewrite countEntity_keys. intros [Hin | ->]; [contradiction|congruence].
Qed.

Lemma buildEntityMap_wellFormed (ps : list Problem) :
  wellFormed (buildEntityMap ps).
Proof.
  unfold buildEntityMap.
  assert (H : wellFormed []) by (split; constructor).
  revert H. generalize (@nil (option string * EntityCount)).
  induction ps as [| p ps IH]; intros m Hm; simpl; [exact Hm|].
  apply IH. clear IH. revert m Hm.
  induction (affectedEntities p) as [| e es IHe]; intros m Hm; simpl;
    [exact Hm|].
  apply IHe. now apply countEntity_wellFormed.
Qed.

Lemma entityMapGet_In (m : list (option string * EntityCount))
    (k : option string) (e : EntityCount) :
  List.NoDup (map fst m) -> In (k, e) m -> entityMapGet k m = Some e.
Proof.
  induction m as [| [k' e'] m IH]; simpl; intros Hnd Hin; [contradiction|].
  inversion Hnd as [| ? ? Hnotin Hnd']; subst.
  destruct Hin as [[= -> ->] | Hin].
  - now rewrite bool_decide_eq_true_2.
  - case_bool_decide.
    + subst k'. exfalso. apply Hnotin. apply (in_map fst) in Hin. exact Hin.
    + now apply IH.
Qed.

(** *** The stable sort by count *)

Lemma insertByCount_perm (a : EntityCount) (l : list EntityCount) :
  Permutation (insertByCount a l) (a :: l).
Proof.
  induction l as [| b l IH]; simpl; [reflexivity|].
  destruct (ec_count a <? ec_count b)%nat; [|reflexivity].
  rewrite IH. apply perm_swap.
Qed.

Lemma sortByCount_perm (l : list EntityCount) : Permutation (sortByCount l) l.
Proof.
  induction l as [| a l IH]; simpl; [reflexivity|].
  rewrite insertByCount_perm. now constructor.
Qed.

Lemma insertByCount_sorted (a : EntityCount) (l : list EntityCount) :
  StronglySorted byCountDesc l -> StronglySorted byCountDesc (insertByCount a l).
Proof.
  induction l as [| b l IH]; simpl; intros Hs.
  - repeat constructor.
  - inversion Hs as [| ? ? Hs' Hall]; subst.
    destruct (Nat.ltb_spec (ec_count a) (ec_count b)) as [Hlt | Hge].
    + constructor; [now apply IH|].
      rewrite (List.Forall_forall (byCountDesc b)). intros x Hx.
      apply (Permutation_in _ (insertByCount_perm a l)) in Hx.
      destruct Hx as [<- | Hx].
      * unfold byCountDesc. lia.
      * rewrite (List.Forall_forall (byCountDesc b)) in Hall. now apply Hall.
    + constructor; [exact Hs|].
      constructor; [exact Hge|].
      rewrite (List.Forall_forall (byCountDesc b)) in Hall.
      rewrite (List.Forall_forall (byCountDesc a)). intros x Hx.
      specialize (Hall x Hx). unfold byCountDesc in *. lia.
Qed.

Lemma sortByCount_sorted (l : list EntityCount) :
  StronglySorted byCountDesc (sortByCount l).
Proof.
  induction l as [| a l IH]; simpl; [constructor|].
  now apply insertByCount_sorted.
Qed.

Lemma in_take {A} (n : nat) (l : list A) (y : A) : In y (take n l) -> In y l.
Proof.
  revert n. induction l as [| z l IH]; intros [| n]; simpl; intuition eauto.
Qed.

Lemma take_sorted {A} (R : A -> A -> Prop) (n : nat) (l : list A) :
  StronglySorted R l -> StronglySorted R (take n l).
Proof.
  revert n. induction l as [| x l IH]; intros [| n] Hs; simpl;
    try constructor.
  - inversion Hs; subst. now apply IH.
  - inversion Hs as [| ? ? _ Hall]; subst.
    rewrite (List.Forall_forall (R x)) in *. intros y Hy.
    apply Hall. now apply in_take in Hy.
Qed.

Lemma slice0_sorted {A} (R : A -> A -> Prop) (stop : Z) (l : list A) :
  StronglySorted R l -> StronglySorted R (JS.slice0 stop l).
Proof. intros H. unfold JS.slice0. destruct (stop <? 0)%Z; now apply take_sorted. Qed.

Lemma slice0_length {A} (stop : Z) (l : list A) :
  length (JS.slice0 stop l)
  = Z.to_nat (if (stop <? 0)%Z
              then Z.max 0 (Z.of_nat (length l) + stop)
              else Z.min stop (Z.of_nat (length l))).
Proof.
  unfold JS.slice0.
  destruct (Z.ltb_spec stop 0); rewrite length_take; lia.
Qed.

Lemma map_sorted {A B} (R : A -> A -> Prop) (S : B -> B -> Prop) (f : A -> B)
    (l : list A) :
  (forall x y, R x y -> S (f x) (f y)) ->
  StronglySorted R l -> StronglySorted S (map f l).
Proof.
  intros Hf. induction 1 as [| x l Hs IH Hall]; simpl; constructor;
    [exact IH|].
  rewrite (List.Forall_forall (S (f x))). intros y Hy.
  apply in_map_iff in Hy as (z & <- & Hz).
  rewrite (List.Forall_forall (R x)) in Hall. auto.
Qed.

(** The sort is stable: entries of equal count keep their map order. *)
Lemma insertByCount_stable (c : nat) (a : EntityCount) (l : list EntityCount) :
  List.filter (fun e => ec_count e =? c)%nat (insertByCount a l)
  = List.filter (fun e => ec_count e =? c)%nat (a :: l).
Proof.
  induction l as [| b l IH]; simpl; [reflexivity|].
  destruct (Nat.ltb_spec (ec_count a) (ec_count b)) as [Hlt | _];
    [|reflexivity].
  simpl. rewrite IH. simpl.
  destruct (Nat.eqb_spec (ec_count a) c) as [Ha | _]; [|reflexivity].
  destruct (Nat.eqb_spec (ec_count b) c) as [Hb | _]; [lia|reflexivity].
Qed.

Lemma sortByCount_stable (c : nat) (l : list EntityCount) :
  List.filter (fun e => ec_count e =? c)%nat (sortByCount l)
  = List.filter (fun e => ec_count e =? c)%nat l.
Proof.
  induction l as [| a l IH]; simpl; [reflexivity|].
  rewrite insertByCount_stable. simpl. now rewrite IH.
Qed.

(** C3, as the code has it: the count held for an id is the number of
    elements of the records' [affectedEntities] lists that carry it, so a
    list that repeats an id counts it as often as it repeats it; ids are
    kept apart, the entries are sorted by count in descending order and cut
    by [slice(0, limit)], [limit] being 10 when none is given. *)
Theorem getTopEntities_counts_occurrences (limit : option Z) (ps : list Problem) :
  let entityMap := buildEntityMap ps in
  let sorted := sortByCount (map snd entityMap) in
  let entities := getTopEntities_body limit ps in
  List.NoDup (map fst entityMap)
  /\ (forall key, countFor key entityMap = occurrences key ps)
  /\ (forall key e, In (key, e) entityMap ->
                    ec_count e = occurrences key ps /\ 0 < ec_count e)
  /\ Permutation sorted (map snd entityMap)
  /\ StronglySorted byCountDesc sorted
  /\ entities = map toTopEntity (JS.slice0 (default 10%Z limit) sorted)
  /\ StronglySorted (fun a b => problemCount b <= problemCount a) entities
  /\ length entities
     = Z.to_nat (if (default 10%Z limit <? 0)%Z
                 then Z.max 0 (Z.of_nat (length entityMap) + default 10%Z limit)
                 else Z.min (default 10%Z limit) (Z.of_nat (length entityMap))).
Proof.
  intros entityMap sorted entities.
  destruct (buildEntityMap_wellFormed ps) as [Hnd Hpos]. fold entityMap in Hnd, Hpos.
  assert (Hsorted : StronglySorted byCountDesc sorted)
    by apply sortByCount_sorted.
  split; [exact Hnd|]. split; [intros key; apply countFor_buildEntityMap|].
  split.
  { intros key e Hin. split.
    - rewrite <- (countFor_buildEntityMap key ps). fold entityMap.
      unfold countFor. now rewrite (entityMapGet_In _ _ _ Hnd Hin).
    - rewrite (List.Forall_forall _) in Hpos. apply (Hpos (key, e) Hin). }
  split; [apply sortByCount_perm|]. split; [exact Hsorted|].
  split; [reflexivity|]. split.
  - unfold entities, getTopEntities_body. fold entityMap. fold sorted.
    apply (map_sorted byCountDesc); [intros x y H; exact H|].
    now apply slice0_sorted.
  - unfold entities, getTopEntities_body. fold entityMap. fold sorted.
    rewrite length_map, slice0_length. unfold sorted.
    rewrite (Permutation_length (sortByCount_perm _)), length_map.
    reflexivity.
Qed.

(** C3 as stated fails: an id that occurs twice in the list of the one
    record that carries it is reported with a count of 2. *)
Lemma getTopEntities_repeated_id :
  let ps := [ mkProblem "P-1" "OPEN" "ERROR" None
                [mkEntity "HOST-1" "HOST"; mkEntity "HOST-1" "HOST"] [] ] in
  recordsWith (Some "HOST-1") ps = 1
  /\ getTopEntities_body None ps
     = [ {| te_name := Some "HOST-1"; te_type := Some "HOST"; problemCount := 2 |} ]
  /\ ~ (forall key e, In (key, e) (buildEntityMap ps) ->
                      ec_count e = recordsWith key ps).
Proof.
  intros ps. split; [reflexivity|]. split; [reflexivity|].
  intros H.
  specialize (H (Some "HOST-1")
                {| ec_name := Some "HOST-1"; ec_type := Some "HOST"; ec_count := 2 |}
                (or_introl eq_refl)).
  discriminate H.
Qed.

End AnalyticsProperties.

(** The scenario: the CLOSED records took 45 and 200 minutes, and 123 is
    the integer nearest to 122.5. *)
Lemma kpis_avgResolutionTime_witness :
  avgResolutionTime (AnalyticsService.getKPIs_body scenario) = JS.NFin 123.
Proof.
  pose proof (AnalyticsProperties.kpis_avgResolutionTime scenario) as H.
  cbv zeta in H.
  change (closedDurations scenario) with (map inject_Z [45; 200]%Z) in H.
  cbn [map] in H. destruct H as (_ & _ & H).
  rewrite (H [45; 200]%Z eq_refl).
  - reflexivity.
  - repeat constructor; discriminate.
  - reflexivity.
Defined.

(** The scenario: two of the three records are CLOSED; the stage reports
    66.67, the decimal nearest to 66.666... *)
Lemma funnel_percentages_witness :
  exists y : Q,
    AnalyticsService.ratioTimes100 2 3 = JS.NFin y
    /\ nth 4 (map percentage (AnalyticsService.getRemediationFunnel_body scenario))
           JS.NNaN
       = JS.roundDouble (JS.fixed2 y)
    /\ (JS.fixed2 y - exactPercentage 2 3 <= 1 # 200)%Q
    /\ (exactPercentage 2 3 - JS.fixed2 y <= 1 # 200)%Q.
Proof.
  destruct (AnalyticsProperties.funnel_percentages scenario) as (_ & H & _).
  destruct (H 2) as (y & Hy & _ & _ & Hp & Hn).
  - simpl. lia.
  - discriminate.
  - exists y. split; [exact Hy|]. split; [exact Hp|].
    apply Hn. simpl. lia.
Defined.


(** * Further properties *)

(** ** Filter normalisation and query building, continued *)

Section FilterFurther.
Variable Number : JS.Value -> JS.Num.

Ltac lookup_simpl :=
  repeat first
    [ rewrite lookup_insert_eq
    | rewrite lookup_delete_eq
    | rewrite lookup_insert_ne by discriminate
    | rewrite lookup_delete_ne by discriminate ].

Ltac unfold_parse :=
  unfold parseFilters, parseArray, parseString, parseNumber, parseBoolean,
    parseTriState.

(** [parseFilters] reads the query through its seventeen keys only. *)
Lemma parseFilters_ext (q q' : gmap string JS.Value) :
  (forall k, In k filterKeys -> q !! k = q' !! k) ->
  parseFilters Number q = parseFilters Number q'.
Proof.
  intros H. unfold_parse.
  rewrite (H "impactLevel"), (H "severityLevel"), (H "status"),
    (H "managementZones"), (H "affectedEntityTypes"), (H "entityTags"),
    (H "evidenceType"), (H "dateFrom"), (H "dateTo"), (H "search"),
    (H "durationMin"), (H "durationMax"), (H "hasComments"),
    (H "hasGitHubActions"), (H "hasRootCause"), (H "autoremediado"),
    (H "funcionoAutoRemediacion");
    solve [reflexivity | cbv; tauto].
Qed.

Lemma lookup_restWithout (keys : list string) (q : gmap string JS.Value) (k : string) :
  ~ In k keys -> restWithout keys q !! k = q !! k.
Proof.
  induction keys as [| k' keys IH]; simpl; intros Hk; [reflexivity|].
  rewrite lookup_delete_ne by tauto. apply IH. tauto.
Qed.

Lemma restWithout_parseFilters (keys : list string) (q : gmap string JS.Value) :
  (forall k, In k keys -> ~ In k filterKeys) ->
  parseFilters Number (restWithout keys q) = parseFilters Number q.
Proof.
  intros H. apply parseFilters_ext. intros k Hk.
  apply lookup_restWithout. intros Hin. exact (H k Hin Hk).
Qed.

Lemma not_filter_key (k : string) :
  In k ["page"; "limit"; "sortBy"; "sortOrder"; "granularity"] ->
  ~ In k filterKeys.
Proof.
  cbv [In filterKeys truthyKeys definedKeys arrayKeys app].
  intros H Hk.
  repeat (destruct H as [<- | H]; [repeat (destruct Hk as [Hk | Hk]; [discriminate Hk|]); exact Hk|]).
  exact H.
Qed.

(** X1: the list and analytics controllers hand the service the filters of
    the whole query: taking page, limit, sortBy, sortOrder or granularity
    out of the query before [parseFilters] changes nothing, and a query
    made of those keys alone parses to the same filters as the empty one. *)
Theorem controllers_pass_query_filters (query : gmap string JS.Value) :
  getProblems_filters Number query = parseFilters Number query
  /\ getTimeSeries_filters Number query = parseFilters Number query
  /\ getTopEntities_filters Number query = parseFilters Number query
  /\ (forall k v, In k ["page"; "limit"; "sortBy"; "sortOrder"; "granularity"] ->
                  parseFilters Number (<[k := v]> query)
                  = parseFilters Number query).
Proof.
  unfold getProblems_filters, getTimeSeries_filters, getTopEntities_filters.
  repeat split.
  - apply restWithout_parseFilters. intros k Hk. apply not_filter_key.
    simpl in *. tauto.
  - apply restWithout_parseFilters. intros k Hk. apply not_filter_key.
    simpl in *. tauto.
  - apply restWithout_parseFilters. intros k Hk. apply not_filter_key.
    simpl in *. tauto.
  - intros k v Hk. apply parseFilters_ext. intros k' Hk'.
    apply lookup_insert_ne. intros ->. exact (not_filter_key _ Hk Hk').
Qed.

(** X2: under a key read with [if (query.k)] (the seven array filters,
    dateFrom, dateTo, search, durationMin, durationMax) a falsy raw value,
    such as the empty string or the number 0, is the same as no value. *)
Theorem falsy_value_is_absent
    (query : gmap string JS.Value) (k : string) (v : JS.Value) :
  In k truthyKeys ->
  JS.truthy v = false ->
  parseFilters Number (<[k := v]> query) = parseFilters Number (delete k query).
Proof.
  intros Hk Hv. cbv [In truthyKeys arrayKeys app] in Hk.
  repeat (destruct Hk as [<- | Hk];
          [unfold_parse; lookup_simpl; rewrite ?Hv; reflexivity|]).
  contradiction.
Qed.

(** X3: under an array key a non-empty string and the array holding just
    that string normalise to the same filters. *)
Theorem scalar_is_singleton_array
    (query : gmap string JS.Value) (k : string) (s : string) :
  In k arrayKeys ->
  s <> "" ->
  parseFilters Number (<[k := JS.VStr s]> query)
  = parseFilters Number (<[k := JS.VArr [s]]> query)
  /\ exists filters,
       parseFilters Number (<[k := JS.VStr s]> query) = filters
       /\ In (Some [JS.VStr s])
             [f_impactLevel filters; f_severityLevel filters; f_status filters;
              f_managementZones filters; f_affectedEntityTypes filters;
              f_entityTags filters; f_evidenceType filters].
Proof.
  intros Hk Hs.
  assert (Ht : negb (String.eqb s "") = true).
  { apply negb_true_iff. now apply String.eqb_neq. }
  cbv [In arrayKeys] in Hk.
  repeat (destruct Hk as [<- | Hk];
          [split;
           [unfold_parse; lookup_simpl; cbn [JS.truthy JS.asArray map];
            rewrite Ht; reflexivity
           |eexists; split; [reflexivity|];
            unfold_parse; cbn -[lookup insert]; lookup_simpl;
            cbn [JS.truthy JS.asArray map]; rewrite Ht; simpl; tauto]|]).
  contradiction.
Qed.

End FilterFurther.

Lemma falsy_value_is_absent_witness :
  parseFilters numberOfLiteral
    (<["durationMin" := JS.VNum (JS.NFin 0)]> {[ "status" := JS.VStr "OPEN" ]})
  = parseFilters numberOfLiteral (delete "durationMin" {[ "status" := JS.VStr "OPEN" ]}).
Proof.
  apply (falsy_value_is_absent numberOfLiteral _ "durationMin" (JS.VNum (JS.NFin 0))).
  - cbv [In truthyKeys arrayKeys app]. tauto.
  - reflexivity.
Defined.

Lemma scalar_is_singleton_array_witness :
  parseFilters numberOfLiteral (<["status" := JS.VStr "OPEN"]> ∅)
  = parseFilters numberOfLiteral (<["status" := JS.VArr ["OPEN"]]> ∅).
Proof.
  apply (scalar_is_singleton_array numberOfLiteral ∅ "status" "OPEN").
  - cbv [In arrayKeys]. tauto.
  - discriminate.
Defined.


Section BuildFurther.
Variable Number : JS.Value -> JS.Num.

Ltac lookup_simpl :=
  repeat first
    [ rewrite lookup_insert_eq
    | rewrite lookup_delete_eq
    | rewrite lookup_insert_ne by discriminate
    | rewrite lookup_delete_ne by discriminate ].

Ltac unfold_parse :=
  unfold parseFilters, parseArray, parseString, parseNumber, parseBoolean,
    parseTriState.

(** X4: a [hasGitHubActions] value other than "true"/true is normalised to
    [false], yet the built predicate is the one of a query without the
    key: only [true] adds the comment-content clause. *)
Theorem hasGitHubActions_false_builds_nothing
    (query : gmap string JS.Value) (v : JS.Value) :
  JS.isTrue v = false ->
  f_hasGitHubActions (parseFilters Number (<["hasGitHubActions" := v]> query))
  = Some false
  /\ f_hasGitHubActions (parseFilters Number (delete "hasGitHubActions" query))
     = None
  /\ buildFilter (parseFilters Number (<["hasGitHubActions" := v]> query))
     = buildFilter (parseFilters Number (delete "hasGitHubActions" query))
  /\ m_recentComments_comments_content
       (buildFilter
          (parseFilters Number (<["hasGitHubActions" := JS.VStr "true"]> query)))
     = Some {| re_pattern := "GitHub Actions"; re_options := "i" |}.
Proof.
  intros Hv. repeat split.
  - unfold_parse. cbn [f_hasGitHubActions]. lookup_simpl. now rewrite Hv.
  - unfold_parse. cbn [f_hasGitHubActions]. now lookup_simpl.
  - unfold buildFilter. unfold_parse.
    cbn [f_impactLevel f_severityLevel f_status f_managementZones
         f_affectedEntityTypes f_entityTags f_evidenceType f_dateFrom f_dateTo
         f_search f_durationMin f_durationMax f_hasComments f_hasGitHubActions
         f_hasRootCause f_autoremediado f_funcionoAutoRemediacion].
    lookup_simpl. rewrite Hv. reflexivity.
  - unfold buildFilter. unfold_parse.
    cbn [f_hasGitHubActions m_recentComments_comments_content].
    now lookup_simpl.
Qed.

(** X5: a query without any of the filter keys builds the empty filter
    object, so the bulk fetch with its filters is the bulk fetch without
    filters. *)
Theorem unfiltered_query_builds_empty_filter {store : Store}
    (query : gmap string JS.Value) (limit : option N) (docs : list Problem) :
  (forall k, In k filterKeys -> query !! k = None) ->
  buildFilter (parseFilters Number query) = emptyFilter
  /\ ProblemRepository.findAllProblems (Some (parseFilters Number query)) limit docs
     = ProblemRepository.findAllProblems None limit docs.
Proof.
  intros H.
  assert (E : buildFilter (parseFilters Number query) = emptyFilter).
  { unfold buildFilter. unfold_parse.
    cbn [f_impactLevel f_severityLevel f_status f_managementZones
         f_affectedEntityTypes f_entityTags f_evidenceType f_dateFrom f_dateTo
         f_search f_durationMin f_durationMax f_hasComments f_hasGitHubActions
         f_hasRootCause f_autoremediado f_funcionoAutoRemediacion].
    rewrite (H "impactLevel"), (H "severityLevel"), (H "status"),
      (H "managementZones"), (H "affectedEntityTypes"), (H "entityTags"),
      (H "evidenceType"), (H "dateFrom"), (H "dateTo"), (H "search"),
      (H "durationMin"), (H "durationMax"), (H "hasComments"),
      (H "hasGitHubActions"), (H "hasRootCause"), (H "autoremediado"),
      (H "funcionoAutoRemediacion");
      solve [reflexivity | cbv; tauto]. }
  split; [exact E|].
  unfold ProblemRepository.findAllProblems. now rewrite E.
Qed.

End BuildFurther.

(** X6: [buildFilter] never writes a vacuous clause: no [$in] with an
    empty list, no range object without a bound, and never both a positive
    and a negative root cause clause. *)
Theorem buildFilter_no_vacuous_clause (filters : ProblemFilters) :
  let m := buildFilter filters in
  ~ In (Some [])
       [m_impactLevel m; m_severityLevel m; m_status m;
        m_managementZones_name m; m_affectedEntities_entityId_type m;
        m_entityTags_stringRepresentation m;
        m_evidenceDetails_details_evidenceType m]
  /\ (forall r, m_startTime m = Some r -> r_gte r <> None \/ r_lte r <> None)
  /\ (forall r, m_duration m = Some r -> r_gte r <> None \/ r_lte r <> None)
  /\ (m_rootCauseEntity m = None \/ m_or m = None).
Proof.
  assert (Hin : forall xs, inClause xs <> Some []).
  { intros [[| x xs] |]; discriminate. }
  intros m. subst m. cbn [buildFilter m_impactLevel m_severityLevel m_status
    m_managementZones_name m_affectedEntities_entityId_type
    m_entityTags_stringRepresentation m_evidenceDetails_details_evidenceType
    m_startTime m_duration m_rootCauseEntity m_or].
  split; [|split; [|split]].
  - simpl. intros H.
    repeat (destruct H as [H | H]; [exact (Hin _ H)|]).
    exact H.
  - intros r. unfold whenPresent.
    destruct (present (f_dateFrom filters)) eqn:E1,
             (present (f_dateTo filters)) eqn:E2; simpl;
      intros [= <-]; simpl.
    + left. destruct (f_dateFrom filters); [discriminate|discriminate E1].
    + left. destruct (f_dateFrom filters); [discriminate|discriminate E1].
    + right. destruct (f_dateTo filters); [discriminate|discriminate E2].
  - intros r.
    destruct (f_durationMin filters), (f_durationMax filters);
      intros [= <-]; simpl; [left|left|right]; discriminate.
  - destruct (f_hasRootCause filters) as [[[|] |] |]; auto.
Qed.

Lemma hasGitHubActions_false_builds_nothing_witness :
  buildFilter (parseFilters numberOfLiteral
                 (<["hasGitHubActions" := JS.VStr "false"]>
                    {[ "status" := JS.VStr "OPEN" ]}))
  = buildFilter (parseFilters numberOfLiteral
                   (delete "hasGitHubActions" {[ "status" := JS.VStr "OPEN" ]})).
Proof.
  apply (hasGitHubActions_false_builds_nothing numberOfLiteral
           {[ "status" := JS.VStr "OPEN" ]} (JS.VStr "false") eq_refl).
Defined.

Lemma unfiltered_query_builds_empty_filter_witness :
  let query : gmap string JS.Value :=
    {[ "page" := JS.VStr "2"; "limit" := JS.VStr "25" ]} in
  (forall k, In k filterKeys -> query !! k = None)
  /\ buildFilter (parseFilters numberOfLiteral query) = emptyFilter.
Proof.
  intros query.
  assert (H : forall k, In k filterKeys -> query !! k = None).
  { intros k Hk. cbv [In filterKeys truthyKeys definedKeys arrayKeys app] in Hk.
    repeat (destruct Hk as [<- | Hk]; [reflexivity|]). contradiction. }
  split; [exact H|].
  apply (unfiltered_query_builds_empty_filter (store := statusStore)
           numberOfLiteral query None [] H).
Defined.


(** ** Repository, continued *)

Section PaginationFurther.
Context {store : Store}.

(** The response for a page from 1 on, with a limit that is not 0. *)
Lemma findAll_response (filters : ProblemFilters) (page limit : N)
    (sortBy : option string) (sortOrder : option SortOrder) (docs : list Problem) :
  limit <> 0%N -> (1 <= page)%N ->
  ProblemRepository.findAll filters (Some page) (Some limit) sortBy sortOrder docs
  = Some {| problems :=
              take (N.to_nat limit)
                   (drop ((N.to_nat page - 1) * N.to_nat limit)
                         (sortedSelection filters sortBy sortOrder docs));
            total := Collection.countDocuments (buildFilter filters) docs;
            page := page;
            limit := limit;
            totalPages :=
              JS.NFin (inject_Z
                         (Qceiling
                            (inject_Z (Z.of_nat (Collection.countDocuments
                                                   (buildFilter filters) docs))
                             / inject_Z (Z.of_N limit)))) |}.
Proof.
  intros Hl Hp. unfold ProblemRepository.findAll, sortedSelection.
  cbn [from_option Datatypes.id fst snd]. unfold Collection.skip.
  destruct (Z.ltb_spec ((Z.of_N page - 1) * Z.of_N limit) 0) as [Hneg | _];
    [pose proof (Z.mul_nonneg_nonneg (Z.of_N page - 1) (Z.of_N limit)); lia|].
  unfold Collection.limit.
  destruct (N.eqb_spec limit 0) as [E | _]; [contradiction|].
  assert (Hskip : Z.to_nat ((Z.of_N page - 1) * Z.of_N limit)
                  = (N.to_nat page - 1) * N.to_nat limit).
  { rewrite Z2Nat.inj_mul by lia. f_equal; lia. }
  rewrite Hskip.
  assert (Hdiv : JS.div (JS.ofNat (Collection.countDocuments (buildFilter filters) docs))
                        (JS.ofZ (Z.of_N limit))
                 = JS.NFin (inject_Z (Z.of_nat (Collection.countDocuments
                                                  (buildFilter filters) docs))
                            / inject_Z (Z.of_N limit))).
  { unfold JS.div, JS.ofNat, JS.ofZ.
    rewrite AnalyticsProperties.isZero_inject_Z.
    destruct (Z.eqb_spec (Z.of_N limit) 0) as [E | _]; [lia|]. reflexivity. }
  rewrite Hdiv. reflexivity.
Qed.

Lemma pageProblems_window (filters : ProblemFilters) (page limit : N)
    (sortBy : option string) (sortOrder : option SortOrder) (docs : list Problem) :
  limit <> 0%N -> (1 <= page)%N ->
  pageProblems filters page limit sortBy sortOrder docs
  = take (N.to_nat limit)
         (drop ((N.to_nat page - 1) * N.to_nat limit)
               (sortedSelection filters sortBy sortOrder docs)).
Proof.
  intros Hl Hp. unfold pageProblems. now rewrite findAll_response.
Qed.

Lemma pages_tile (filters : ProblemFilters) (limit : N)
    (sortBy : option string) (sortOrder : option SortOrder)
    (docs : list Problem) (n : nat) :
  limit <> 0%N ->
  concat (map (fun i => pageProblems filters (N.of_nat i) limit sortBy sortOrder docs)
              (seq 1 n))
  = take (n * N.to_nat limit) (sortedSelection filters sortBy sortOrder docs).
Proof.
  intros Hl. induction n as [| n IH]; [reflexivity|].
  rewrite seq_S, map_app, concat_app, IH.
  cbn [map concat]. rewrite app_nil_r.
  rewrite pageProblems_window by (try assumption; lia).
  assert (E : N.to_nat (N.of_nat (1 + n)) - 1 = n) by lia.
  rewrite E, take_take_drop. f_equal. lia.
Qed.

(** X7: with a limit that is not 0, the pages 1..n of [findAll], one after
    the other, are the first n*limit documents of the selection in cursor
    order: pages neither overlap nor leave a document out. *)
Theorem findAll_pages_tile_selection (filters : ProblemFilters) (limit : N)
    (sortBy : option string) (sortOrder : option SortOrder)
    (docs : list Problem) (n : nat) :
  limit <> 0%N ->
  concat (map (fun i => pageProblems filters (N.of_nat i) limit sortBy sortOrder docs)
              (seq 1 n))
  = take (n * N.to_nat limit) (sortedSelection filters sortBy sortOrder docs).
Proof. apply pages_tile. Qed.

Lemma ceiling_ratio_bounds (a b : Z) :
  (0 < b)%Z ->
  let k := Qceiling (inject_Z a / inject_Z b) in
  ((k - 1) * b < a)%Z /\ (a <= k * b)%Z.
Proof.
  intros Hb k.
  pose proof (Qle_ceiling (inject_Z a / inject_Z b)) as Hhi.
  pose proof (Qceiling_lt (inject_Z a / inject_Z b)) as Hlo.
  fold k in Hhi, Hlo.
  assert (Hbq : (0 < inject_Z b)%Q).
  { change 0%Q with (inject_Z 0). now rewrite <- Zlt_Qlt. }
  assert (Hx : (inject_Z b * (inject_Z a / inject_Z b) == inject_Z a)%Q).
  { apply Qmult_div_r. intros E. rewrite E in Hbq. discriminate Hbq. }
  split.
  - rewrite Zlt_Qlt, inject_Z_mult. rewrite <- Hx.
    rewrite (Qmult_comm (inject_Z (k - 1))).
    now apply Qmult_lt_l.
  - rewrite Zle_Qle, inject_Z_mult. rewrite <- Hx.
    rewrite (Qmult_comm (inject_Z k)).
    now apply Qmult_le_l.
Qed.

(** The quotient of two counts below 2^53: its double has the ceiling of
    the quotient itself, so that [Math.ceil(total / limit)] is the number
    of pages. *)
Lemma ceil_divide_counts (t l : Z) :
  (0 <= t < 2 ^ 53)%Z -> (0 < l < 2 ^ 53)%Z ->
  JS.ceil (JS.divide (JS.ofZ t) (JS.ofZ l))
  = JS.ceil (JS.div (JS.ofZ t) (JS.ofZ l)).
Proof.
  intros Ht Hl. unfold JS.divide, JS.div, JS.ofZ, JS.isZero, Qeq_bool.
  cbn [Qnum Qden inject_Z]. rewrite Z.mul_1_r.
  destruct (Z.eqb_spec l (0 * 1)) as [E | _]; [lia|].
  fold (inject_Z t) (inject_Z l).
  set (q := (inject_Z t / inject_Z l)%Q).
  destruct (ceiling_ratio_bounds t l ltac:(lia)) as [Hk1 Hk2]. fold q in Hk1, Hk2.
  set (k := Qceiling q) in *.
  set (T := inject_Z t). set (L := inject_Z l).
  assert (HL : (1 <= L)%Q)
    by (unfold L; change 1%Q with (inject_Z 1); rewrite <- Zle_Qle; lia).
  assert (HLhi : (L < 9007199254740992)%Q)
    by (unfold L; change 9007199254740992%Q with (inject_Z (2 ^ 53));
        rewrite <- Zlt_Qlt; lia).
  assert (HT : (T < 9007199254740992)%Q)
    by (unfold T; change 9007199254740992%Q with (inject_Z (2 ^ 53));
        rewrite <- Zlt_Qlt; lia).
  assert (Hq : (q * L == T)%Q) by (unfold q; fold T L; field; lra).
  destruct (Z.eq_dec t 0%Z) as [-> | Ht0].
  { unfold q, JS.roundDouble. destruct l; try lia. reflexivity. }
  assert (HT1 : (1 <= T)%Q)
    by (unfold T; change 1%Q with (inject_Z 1); rewrite <- Zle_Qle; lia).
  assert (Hq0 : (0 < q)%Q).
  { unfold q. fold T L. apply Qlt_shift_div_l; lra. }
  assert (HqT : (q <= T)%Q).
  { unfold q. fold T L. apply Qle_shift_div_r; [lra|].
    assert (T * 1 <= T * L)%Q by (apply Qmult_le_l; lra). lra. }
  assert (HqL : (1 <= q * 9007199254740992)%Q).
  { assert (q * L <= q * 9007199254740992)%Q by (apply Qmult_le_l; lra). lra. }
  destruct (AnalyticsProperties.roundDouble_accurate q 53 ltac:(lia) Hq0) as (x & Hx & Hx1 & Hx2).
  { change (inject_Z (2 ^ 53)) with 9007199254740992%Q. lra. }
  { change (inject_Z (2 ^ 53)) with 9007199254740992%Q. exact HqL. }
  assert (HkT : (k <= t)%Z) by nia.
  assert (Hqk : (q <= inject_Z k)%Q) by apply Qle_ceiling.
  destruct (AnalyticsProperties.roundDouble_range q k ltac:(lia) ltac:(lra) Hqk) as (x' & Hx' & _ & Hxk).
  rewrite Hx in Hx'. injection Hx' as <-. rewrite Hx. cbn [JS.ceil].
  f_equal. f_equal. fold k.
  apply Z.le_antisymm.
  - rewrite <- (Qceiling_Z k). now apply Qceiling_resp_le.
  - assert (Hlow : (inject_Z (k - 1) < x)%Q).
    { unfold halfUlp in *.
      assert (Hk1q : (inject_Z (k - 1) * L <= T - 1)%Q).
      { unfold L, T. change 1%Q with (inject_Z 1).
        rewrite <- inject_Z_mult. unfold Qminus.
        rewrite <- inject_Z_opp, <- inject_Z_plus, <- Zle_Qle. lia. }
      assert (HxL : ((q - q * (1 # 9007199254740992)) * L <= x * L)%Q)
        by (apply Qmult_le_compat_r; lra).
      assert (E : ((q - q * (1 # 9007199254740992)) * L
                   == T - T * (1 # 9007199254740992))%Q).
      { rewrite <- Hq. ring. }
      rewrite E in HxL.
      assert (HxL' : (inject_Z (k - 1) * L < x * L)%Q) by lra.
      apply Qmult_lt_r in HxL'; [exact HxL'|lra]. }
    pose proof (Qle_ceiling x) as Hc.
    assert (inject_Z (k - 1) < inject_Z (Qceiling x))%Q by lra.
    rewrite <- Zlt_Qlt in H. lia.
Qed.

(** X8: with a limit that is not 0, on a store whose sort only reorders,
    [totalPages] is the least number of pages that hold the whole
    selection: the pages up to it carry every selected document, and every
    later page is empty rather than an error. *)
Theorem findAll_totalPages_exact (filters : ProblemFilters) (page limit : N)
    (sortBy : option string) (sortOrder : option SortOrder) (docs : list Problem) :
  limit <> 0%N ->
  (1 <= page)%N ->
  (forall field dir l, Permutation (sortDocs field dir l) l) ->
  exists (r : PaginatedProblemsResponse) (k : Z),
    ProblemRepository.findAll filters (Some page) (Some limit) sortBy sortOrder docs
    = Some r
    /\ total r = Collection.countDocuments (buildFilter filters) docs
    /\ totalPages r = JS.NFin (inject_Z k)
    /\ ((k - 1) * Z.of_N limit < Z.of_nat (total r) <= k * Z.of_N limit)%Z
    /\ (N.of_nat (length (problems r)) <= limit)%N
    /\ ((k < Z.of_N page)%Z -> problems r = [])
    /\ concat (map (fun i => pageProblems filters (N.of_nat i) limit
                               sortBy sortOrder docs)
                   (seq 1 (Z.to_nat k)))
       = sortedSelection filters sortBy sortOrder docs.
Proof.
  intros Hl Hp Hsort.
  set (sel := sortedSelection filters sortBy sortOrder docs).
  assert (Hlen : length sel = Collection.countDocuments (buildFilter filters) docs).
  { unfold sel, sortedSelection, Collection.countDocuments.
    apply Permutation_length, Hsort. }
  pose proof (ceiling_ratio_bounds
                (Z.of_nat (Collection.countDocuments (buildFilter filters) docs))
                (Z.of_N limit) ltac:(lia)) as Hk.
  cbv zeta in Hk. destruct Hk as [Hk1 Hk2].
  rewrite (findAll_response filters page limit sortBy sortOrder docs Hl Hp).
  eexists. eexists. split; [reflexivity|].
  cbn [total totalPages problems]. fold sel.
  split; [reflexivity|]. split; [reflexivity|].
  split; [split; assumption|]. split.
  { rewrite length_take. lia. }
  split.
  { intros Hbeyond. rewrite drop_ge; [apply take_nil|]. nia. }
  rewrite pages_tile by assumption.
  apply take_ge. fold sel. nia.
Qed.

(** X9: with limit 0 [findAll] responds for every page, returns the whole
    selection, and its [totalPages] is the quotient by zero: NaN when
    nothing is selected, +Infinity otherwise. *)
Theorem findAll_limit_zero (filters : ProblemFilters) (page : option N)
    (sortBy : option string) (sortOrder : option SortOrder) (docs : list Problem) :
  exists r,
    ProblemRepository.findAll filters page (Some 0%N) sortBy sortOrder docs = Some r
    /\ problems r = sortedSelection filters sortBy sortOrder docs
    /\ totalPages r = if (total r =? 0)%nat then JS.NNaN else JS.NPosInf.
Proof.
  unfold ProblemRepository.findAll, sortedSelection. cbn [from_option Datatypes.id fst snd].
  unfold Collection.skip.
  destruct (Z.ltb_spec ((Z.of_N (default 1%N page) - 1) * Z.of_N 0) 0)
    as [Hneg | _]; [lia|].
  eexists. split; [reflexivity|]. cbn [problems total totalPages].
  split.
  - replace (Z.to_nat ((Z.of_N (default 1%N page) - 1) * Z.of_N 0)) with 0 by lia.
    reflexivity.
  - destruct (Collection.countDocuments (buildFilter filters) docs); reflexivity.
Qed.

(** X10: whatever the limit argument, the bulk fetch returns the first
    documents of the projected selection up to the cap in force (10,000
    when the limit is missing or 0), so analytics over a larger selection
    silently sees the cap's worth of it. *)
Theorem findAllProblems_truncates (filters : option ProblemFilters)
    (limit : option N) (docs : list Problem) :
  let selection :=
    map project
        (Collection.find (match filters with
                          | Some f => buildFilter f
                          | None => emptyFilter
                          end) docs) in
  let cap := match limit with
             | Some n => if (n =? 0)%N then 10000%N else n
             | None => 10000%N
             end in
  ProblemRepository.findAllProblems filters limit docs
  = take (N.to_nat cap) selection
  /\ N.of_nat (length (ProblemRepository.findAllProblems filters limit docs))
     = N.min cap (N.of_nat (length selection))
  /\ N.of_nat (totalProblems (AnalyticsService.getKPIs filters docs))
     = N.min 10000 (N.of_nat (length selection)).
Proof.
  intros selection cap.
  assert (H : forall lim,
             ProblemRepository.findAllProblems filters lim docs
             = take (N.to_nat match lim with
                              | Some n => if (n =? 0)%N then 10000%N else n
                              | None => 10000%N
                              end) selection).
  { intros lim. unfold ProblemRepository.findAllProblems. fold selection.
    destruct lim as [n |]; [|reflexivity].
    destruct (N.eqb_spec n 0) as [E | E]; cbn [negb]; [reflexivity|].
    unfold Collection.limit.
    destruct (N.eqb_spec n 0) as [E' | _]; [contradiction|reflexivity]. }
  split; [apply H|]. split.
  - rewrite H. fold cap. rewrite length_take. lia.
  - unfold AnalyticsService.getKPIs, AnalyticsService.getKPIs_body.
    destruct (fold_left AnalyticsService.kpiStep _ _) as [t rt].
    cbn [totalProblems]. rewrite (H None), length_take. lia.
Qed.

End PaginationFurther.

Lemma findAll_pages_tile_selection_witness :
  concat (map (fun i => pageProblems (store := statusStore)
                          (parseFilters numberOfLiteral ∅) (N.of_nat i) 2%N
                          None None scenario)
              (seq 1 2))
  = scenario.
Proof.
  rewrite (findAll_pages_tile_selection (store := statusStore)
             (parseFilters numberOfLiteral ∅) 2%N None None scenario 2);
    [reflexivity|discriminate].
Defined.

Lemma findAll_totalPages_exact_witness :
  exists r k,
    ProblemRepository.findAll (store := statusStore)
      (parseFilters numberOfLiteral ∅) (Some 2%N) (Some 2%N) None None scenario
    = Some r
    /\ total r = 3 /\ totalPages r = JS.NFin (inject_Z k) /\ k = 2%Z.
Proof.
  destruct (findAll_totalPages_exact (store := statusStore)
              (parseFilters numberOfLiteral ∅) 2%N 2%N None None scenario)
    as (r & k & H1 & H2 & H3 & H4 & _).
  - discriminate.
  - discriminate.
  - intros field dir l. apply Permutation_refl.
  - exists r, k. split; [exact H1|]. split; [exact H2|]. split; [exact H3|].
    rewrite H2 in H4. change (Collection.countDocuments _ _) with 3 in H4. lia.
Defined.


(** ** Mutations *)

Section MutationFurther.

Lemma applyUpdate_problemId (u : UpdateDoc) (p : Problem) :
  problemId (Collection.applyUpdate u p) = problemId p.
Proof. reflexivity. Qed.

(** An update never changes an id, so never the order or number of
    documents. *)
Lemma findOneAndUpdate_ids (pid : string) (u : UpdateDoc) (docs : list Problem) :
  map problemId (fst (Collection.findOneAndUpdate pid u docs)) = map problemId docs.
Proof.
  induction docs as [| d docs IH]; simpl; [reflexivity|].
  destruct (String.eqb (problemId d) pid); simpl; [reflexivity|].
  destruct (Collection.findOneAndUpdate pid u docs) as [rest r]. simpl in *.
  now rewrite IH.
Qed.

Lemma findOneAndUpdate_other (pid pid' : string) (u : UpdateDoc)
    (docs : list Problem) :
  pid' <> pid ->
  Collection.findOne pid' (fst (Collection.findOneAndUpdate pid u docs))
  = Collection.findOne pid' docs.
Proof.
  intros Hne. induction docs as [| d docs IH]; simpl; [reflexivity|].
  destruct (String.eqb (problemId d) pid) eqn:E; simpl.
  - apply String.eqb_eq in E.
    destruct (String.eqb_spec (problemId d) pid') as [E' | _]; [congruence|].
    reflexivity.
  - destruct (Collection.findOneAndUpdate pid u docs) as [rest r]. simpl in *.
    now rewrite IH.
Qed.

Lemma findOneAndUpdate_Forall (P : Problem -> Prop) (pid : string)
    (u : UpdateDoc) (docs : list Problem) :
  (forall p, P p -> P (Collection.applyUpdate u p)) ->
  Forall P docs -> Forall P (fst (Collection.findOneAndUpdate pid u docs)).
Proof.
  intros Hu. induction 1 as [| d docs Hd Hdocs IH]; simpl; [constructor|].
  destruct (String.eqb (problemId d) pid); simpl.
  - constructor; auto.
  - destruct (Collection.findOneAndUpdate pid u docs) as [rest r]. simpl in *.
    constructor; assumption.
Qed.

(** Two updates whose effects on a document commute, commute on the
    collection. *)
Lemma findOneAndUpdate_commute (a b : string) (u1 u2 : UpdateDoc)
    (docs : list Problem) :
  (forall p, Collection.applyUpdate u1 (Collection.applyUpdate u2 p)
             = Collection.applyUpdate u2 (Collection.applyUpdate u1 p)) ->
  fst (Collection.findOneAndUpdate a u1 (fst (Collection.findOneAndUpdate b u2 docs)))
  = fst (Collection.findOneAndUpdate b u2 (fst (Collection.findOneAndUpdate a u1 docs))).
Proof.
  intros Hc. induction docs as [| d docs IH]; simpl; [reflexivity|].
  destruct (String.eqb (problemId d) b) eqn:Eb,
           (String.eqb (problemId d) a) eqn:Ea; simpl;
    repeat match goal with
      | |- context [Collection.findOneAndUpdate ?x ?u docs] =>
          destruct (Collection.findOneAndUpdate x u docs) eqn:?; simpl in *
      end;
    rewrite ?Ea, ?Eb; simpl; rewrite ?Hc; try reflexivity.
  destruct (Collection.findOneAndUpdate a u1 l) eqn:E1.
  destruct (Collection.findOneAndUpdate b u2 l0) eqn:E2.
  simpl in *. now rewrite IH.
Qed.

(** X11: [updateStatus] on an id the collection holds rewrites the status
    of the first document with that id and nothing else: the other fields
    of that document, every other id's document, and the ids in their
    order stay as they were; the updated document is the result and is what
    [findById] returns afterwards. *)
Theorem updateStatus_changes_status_only (pid st : string)
    (docs : list Problem) (p : Problem) :
  ProblemRepository.findById pid docs = Some p ->
  exists docs' p',
    ProblemRepository.updateStatus pid st docs = (docs', Some p')
    /\ status p' = st
    /\ (problemId p', impactLevel p', severityLevel p', startTime p',
        duration p', affectedEntities p', recentComments p')
       = (problemId p, impactLevel p, severityLevel p, startTime p,
          duration p, affectedEntities p, recentComments p)
    /\ ProblemRepository.findById pid docs' = Some p'
    /\ (forall other, other <> pid ->
          ProblemRepository.findById other docs'
          = ProblemRepository.findById other docs)
    /\ map problemId docs' = map problemId docs.
Proof.
  intros Hfind. unfold ProblemRepository.findById in *.
  unfold ProblemRepository.updateStatus.
  set (u := {| u_set_status := Some st; u_push_comment := None;
               u_inc_totalCount := None |}).
  destruct (findOneAndUpdate_found pid u docs p Hfind) as (docs' & H1 & H2 & _).
  exists docs', (Collection.applyUpdate u p).
  split; [exact H1|]. split; [reflexivity|].
  split; [destruct p as [? ? ? ? ? ? ? []]; reflexivity|].
  split; [exact H2|]. split.
  - intros other Hne.
    rewrite <- (findOneAndUpdate_other pid other u docs Hne). now rewrite H1.
  - rewrite <- (findOneAndUpdate_ids pid u docs). now rewrite H1.
Qed.

(** X12: on an id the collection does not hold, [updateStatus] and
    [addComment] return null and leave the collection as it was. *)
Theorem mutation_of_missing_id (pid st : string) (c : Comment) (docs : list Problem) :
  ProblemRepository.findById pid docs = None ->
  ProblemRepository.updateStatus pid st docs = (docs, None)
  /\ ProblemRepository.addComment pid c docs = (docs, None).
Proof.
  intros H. unfold ProblemRepository.findById in H.
  split; now apply findOneAndUpdate_missing.
Qed.

(** X13: on a collection where every record has [totalCount] equal to the
    length of its comments list, every sequence of [updateStatus] and
    [addComment] calls leaves it so, and never adds, removes, reorders or
    renames a document. *)
Theorem mutations_keep_comment_count (ms : list Mutation) (docs : list Problem) :
  Forall commentsConsistent docs ->
  Forall commentsConsistent (fold_left applyMutation ms docs)
  /\ map problemId (fold_left applyMutation ms docs) = map problemId docs.
Proof.
  revert docs. induction ms as [| m ms IH]; intros docs Hdocs; simpl;
    [now split|].
  assert (Hstep : Forall commentsConsistent (applyMutation docs m)
                  /\ map problemId (applyMutation docs m) = map problemId docs).
  { destruct m as [pid st | pid c]; simpl;
      unfold ProblemRepository.updateStatus, ProblemRepository.addComment;
      (split; [|apply findOneAndUpdate_ids]);
      apply findOneAndUpdate_Forall; try assumption;
      intros p Hp; unfold commentsConsistent in *;
      cbn [Collection.applyUpdate recentComments totalCount comments
           u_inc_totalCount u_push_comment]; [exact Hp|].
    rewrite Hp. destruct (comments (recentComments p)) as [l |];
      cbn [Collection.push from_option Datatypes.id length];
      [rewrite length_app|]; simpl; lia. }
  destruct Hstep as [H1 H2]. destruct (IH _ H1) as [H3 H4].
  split; [exact H3|]. now rewrite H4.
Qed.

(** X14: a status update and a comment append commute, on the same record
    as on different ones: neither loses the other's write. *)
Theorem updateStatus_addComment_commute (a b st : string) (c : Comment)
    (docs : list Problem) :
  fst (ProblemRepository.updateStatus a st
         (fst (ProblemRepository.addComment b c docs)))
  = fst (ProblemRepository.addComment b c
           (fst (ProblemRepository.updateStatus a st docs))).
Proof.
  unfold ProblemRepository.updateStatus, ProblemRepository.addComment.
  apply findOneAndUpdate_commute. intros p. reflexivity.
Qed.

(** X15: of two status updates of one id the later one wins: the
    collection is as if only the later one had been made. *)
Theorem updateStatus_last_write_wins (pid st1 st2 : string) (docs : list Problem) :
  fst (ProblemRepository.updateStatus pid st2
         (fst (ProblemRepository.updateStatus pid st1 docs)))
  = fst (ProblemRepository.updateStatus pid st2 docs).
Proof.
  unfold ProblemRepository.updateStatus.
  induction docs as [| d docs IH]; simpl; [reflexivity|].
  destruct (String.eqb (problemId d) pid) eqn:E; simpl.
  - rewrite E. reflexivity.
  - destruct (Collection.findOneAndUpdate pid _ docs) as [rest r] eqn:E1.
    simpl in *. rewrite E.
    destruct (Collection.findOneAndUpdate pid _ rest) as [rest' r'] eqn:E2.
    destruct (Collection.findOneAndUpdate pid
                {| u_set_status := Some st2; u_push_comment := None;
                   u_inc_totalCount := None |} docs) as [rest2 r2] eqn:E3.
    simpl in *. now rewrite IH.
Qed.

End MutationFurther.

Lemma updateStatus_changes_status_only_witness :
  exists docs' p',
    ProblemRepository.updateStatus "P-1" "CLOSED" scenario = (docs', Some p')
    /\ status p' = "CLOSED"
    /\ ProblemRepository.findById "P-2" docs'
       = ProblemRepository.findById "P-2" scenario.
Proof.
  destruct (updateStatus_changes_status_only "P-1" "CLOSED" scenario
              (mkProblem "P-1" "OPEN" "AVAILABILITY" (Some 4%Q)
                 [mkEntity "HOST-1" "HOST"] []) eq_refl)
    as (docs' & p' & H1 & H2 & _ & _ & H5 & _).
  exists docs', p'. split; [exact H1|]. split; [exact H2|].
  apply H5. discriminate.
Defined.

Lemma mutation_of_missing_id_witness :
  ProblemRepository.updateStatus "P-404" "CLOSED" scenario = (scenario, None).
Proof.
  apply (mutation_of_missing_id "P-404" "CLOSED"
           {| content := "x"; author := "y" |} scenario eq_refl).
Defined.

Lemma mutations_keep_comment_count_witness :
  Forall commentsConsistent
    (fold_left applyMutation
       [AddComment "P-1" {| content := "looking"; author := "ops" |};
        SetStatus "P-1" "CLOSED";
        AddComment "P-1" {| content := "done"; author := "ops" |}]
       scenario).
Proof.
  apply (mutations_keep_comment_count _ scenario).
  repeat constructor.
Defined.


(** ** Filter options *)

Module FilterOptionsProperties.
Import FilterOptionsOps.

Lemma existsb_eqb_In (s : string) (set : list string) :
  existsb (String.eqb s) set = true <-> In s set.
Proof.
  rewrite existsb_exists. split.
  - intros (x & Hx & E). apply String.eqb_eq in E. now subst.
  - intros H. exists s. split; [exact H|apply String.eqb_refl].
Qed.

Lemma setAdd_In (s x : string) (set : list string) :
  In x (setAdd s set) <-> In x set \/ x = s.
Proof.
  unfold setAdd. destruct (existsb (String.eqb s) set) eqn:E.
  - apply existsb_eqb_In in E. split; [tauto|]. intros [H | ->]; assumption.
  - rewrite in_app_iff. simpl. intuition.
Qed.

Lemma setAdd_NoDup (s : string) (set : list string) :
  List.NoDup set -> List.NoDup (setAdd s set).
Proof.
  intros H. unfold setAdd. destruct (existsb (String.eqb s) set) eqn:E;
    [exact H|].
  assert (Hn : ~ In s set).
  { intros Hin. apply existsb_eqb_In in Hin. congruence. }
  clear E. induction H as [| y l Hy Hl IH]; simpl.
  - constructor; [intros []|constructor].
  - constructor.
    + rewrite in_app_iff. simpl. intros [H | [H | []]]; [contradiction|].
      subst. apply Hn. now left.
    + apply IH. intros Hin. apply Hn. now right.
Qed.

Lemma addTag_In (set : list string) (t : EntityTag) (x : string) :
  In x (addTag set t) <-> In x set \/ tagged x [t].
Proof.
  unfold addTag, tagged. destruct (stringRepresentation t) as [s |] eqn:E.
  - destruct (String.eqb_spec s "") as [-> | Hs]; simpl.
    + split; [tauto|]. intros [H | (Hx & t' & [<- | []] & H)]; [exact H|].
      congruence.
    + rewrite setAdd_In. split.
      * intros [H | ->]; [now left|]. right. split; [exact Hs|].
        exists t. split; [now left|exact E].
      * intros [H | (Hx & t' & [<- | []] & H)]; [now left|]. right. congruence.
  - split; [tauto|]. intros [H | (Hx & t' & [<- | []] & H)]; [exact H|].
    congruence.
Qed.

Lemma addTags_In (ts : list EntityTag) (set : list string) (x : string) :
  In x (fold_left addTag ts set) <-> In x set \/ tagged x ts.
Proof.
  revert set. induction ts as [| t ts IH]; intros set; simpl.
  - unfold tagged. split; [tauto|]. intros [H | (_ & t & [] & _)]. exact H.
  - rewrite IH, addTag_In. unfold tagged. split.
    + intros [[H | (Hx & t' & [E | []] & H)] | (Hx & t' & Hin & H)].
      * now left.
      * right. split; [exact Hx|]. exists t'. split; [now left|exact H].
      * right. split; [exact Hx|]. exists t'. split; [now right|exact H].
    + intros [H | (Hx & t' & [E | Hin] & H)].
      * now left; left.
      * left. right. split; [exact Hx|]. exists t'. split; [now left|exact H].
      * right. split; [exact Hx|]. exists t'. split; [exact Hin|exact H].
Qed.

Lemma addTags_NoDup (ts : list EntityTag) (set : list string) :
  List.NoDup set -> List.NoDup (fold_left addTag ts set).
Proof.
  revert set. induction ts as [| t ts IH]; intros set H; simpl; [exact H|].
  apply IH. unfold addTag. destruct (stringRepresentation t) as [s |]; [|exact H].
  destruct (negb (String.eqb s "")); [now apply setAdd_NoDup|exact H].
Qed.

(** X16: the [tags] of [getFilterOptions] hold each tag string once, and
    hold exactly the non-empty [stringRepresentation]s found in the
    documents' [entityTags]; a document without [entityTags] adds nothing,
    and an empty collection gives no tags. *)
Theorem getFilterOptions_tags (distinct : string -> list (option string))
    (allProblems : list TagDoc) :
  let options := getFilterOptions distinct allProblems in
  List.NoDup (tags options)
  /\ (forall s,
        In s (tags options)
        <-> s <> ""
            /\ exists doc ts t,
                 In doc allProblems /\ entityTags doc = Some ts
                 /\ In t ts /\ stringRepresentation t = Some s)
  /\ tags (getFilterOptions distinct []) = [].
Proof.
  cbn [getFilterOptions tags]. unfold collectTags.
  assert (H : forall docs set,
             (List.NoDup set -> List.NoDup (fold_left addTagsOf docs set))
             /\ forall s,
                  In s (fold_left addTagsOf docs set)
                  <-> In s set
                      \/ (s <> ""
                          /\ exists doc ts t,
                               In doc docs /\ entityTags doc = Some ts
                               /\ In t ts /\ stringRepresentation t = Some s)).
  { induction docs as [| d docs IH]; intros set; simpl.
    - split; [auto|]. intros s. split; [tauto|].
      intros [H | (_ & doc & _ & _ & [] & _)]. exact H.
    - destruct (IH (addTagsOf set d)) as [IH1 IH2]. split.
      + intros Hnd. apply IH1. unfold addTagsOf.
        destruct (entityTags d); [now apply addTags_NoDup|exact Hnd].
      + intros s. rewrite IH2. unfold addTagsOf.
        destruct (entityTags d) as [ts |] eqn:E.
        * rewrite addTags_In. unfold tagged. split.
          -- intros [[H | (Hs & t & Hin & Ht)] | (Hs & doc & ts' & t & Hd & H)];
               [now left| |]; right; (split; [exact Hs|]).
             ++ exists d, ts, t. auto.
             ++ exists doc, ts', t. destruct H as (? & ? & ?). auto.
          -- intros [H | (Hs & doc & ts' & t & [<- | Hd] & He & Hin & Ht)];
               [now left; left| |].
             ++ left. right. split; [exact Hs|]. exists t.
                rewrite E in He. injection He as <-. auto.
             ++ right. split; [exact Hs|]. exists doc, ts', t. auto.
        * split.
          -- intros [H | (Hs & doc & ts' & t & Hd & H)]; [now left|].
             right. split; [exact Hs|]. exists doc, ts', t.
             destruct H as (? & ? & ?). auto.
          -- intros [H | (Hs & doc & ts' & t & [<- | Hd] & He & Hin & Ht)];
               [now left|congruence|].
             right. split; [exact Hs|]. exists doc, ts', t. auto. }
  destruct (H allProblems []) as [H1 H2].
  split; [apply H1; constructor|]. split; [|reflexivity].
  intros s. rewrite H2. simpl. tauto.
Qed.

End FilterOptionsProperties.

(** ** The serverless entry point *)

(** X17: on a cold instance every invocation that finds the database
    unreachable calls [connect] and answers 500; the first one that
    connects is the last to call [connect]: it and every later invocation
    answer by what the application does. *)
Theorem serverless_connects_once
    (failing : list Serverless.Invocation) (first : Serverless.Invocation)
    (later : list Serverless.Invocation) :
  Forall (fun inv => Serverless.connectResolves inv = false) failing ->
  Serverless.connectResolves first = true ->
  Serverless.run false (failing ++ first :: later)
  = (map (fun _ => failedStep) failing
     ++ {| Serverless.connectedAfter := true;
           Serverless.connectCalled := true;
           Serverless.response := appResponse first |}
     :: map (fun inv => {| Serverless.connectedAfter := true;
                           Serverless.connectCalled := false;
                           Serverless.response := appResponse inv |}) later)%list.
Proof.
  intros Hfail Hfirst.
  assert (Hwarm : forall invs,
             Serverless.run true invs
             = map (fun inv => {| Serverless.connectedAfter := true;
                                  Serverless.connectCalled := false;
                                  Serverless.response := appResponse inv |}) invs).
  { induction invs as [| inv invs IH]; simpl; [reflexivity|]. now rewrite IH. }
  induction Hfail as [| inv failing Hinv _ IH]; simpl.
  - unfold Serverless.handler. rewrite Hfirst. simpl. now rewrite Hwarm.
  - unfold Serverless.handler. rewrite Hinv. simpl. now rewrite IH.
Qed.

Lemma serverless_connects_once_witness :
  map Serverless.connectCalled
      (Serverless.run false
         [ {| Serverless.connectResolves := false; Serverless.appReturns := true |};
           {| Serverless.connectResolves := true; Serverless.appReturns := true |};
           {| Serverless.connectResolves := false; Serverless.appReturns := true |} ])
  = [true; true; false].
Proof.
  pose proof (serverless_connects_once
                [ {| Serverless.connectResolves := false;
                     Serverless.appReturns := true |} ]
                {| Serverless.connectResolves := true;
                   Serverless.appReturns := true |}
                [ {| Serverless.connectResolves := false;
                     Serverless.appReturns := true |} ]
                ltac:(repeat constructor) eq_refl) as H.
  cbn [app] in H. rewrite H. reflexivity.
Defined.


(** ** The CORS origin callback *)

Module CorsProperties.
Import Cors.

Lemma includesString_In (x : string) (xs : list string) :
  includesString x xs = true <-> In x xs.
Proof.
  unfold includesString. rewrite existsb_exists. split.
  - intros (y & Hy & E). apply String.eqb_eq in E. now subst.
  - intros H. exists x. split; [exact H|apply String.eqb_refl].
Qed.

Lemma splitComma_no_comma (s piece : string) :
  In piece (splitComma s) -> containsChar "," piece = false.
Proof.
  revert piece. induction s as [| c s IH]; intros piece; simpl.
  - intros [<- | []]. reflexivity.
  - destruct (Ascii.eqb c ",") eqn:E.
    + intros [<- | H]; [reflexivity|now apply IH].
    + destruct (splitComma s) as [| p ps] eqn:Es.
      * intros [<- | []]. simpl. now rewrite E.
      * intros [<- | H].
        -- simpl. rewrite E. apply IH. now left.
        -- apply IH. now right.
Qed.

Lemma trimStart_afterSpace (s : string) :
  JS.trimStart s = match JS.afterSpace s with
                | Some rest => JS.trimStart rest
                | None => s
                end.
Proof.
  destruct s as [| a [| b [| c r]]]; simpl; try reflexivity.
  - now destruct (JS.isSpace1 a).
  - destruct (JS.isSpace1 a); [reflexivity|]. now destruct (JS.isSpace2 a b).
  - destruct (JS.isSpace1 a); [reflexivity|].
    destruct (JS.isSpace2 a b); [reflexivity|]. now destruct (JS.isSpace3 a b c).
Qed.

Lemma afterSpace_split (s rest : string) :
  JS.afterSpace s = Some rest -> exists space, s = space ++ rest /\ space <> "".
Proof.
  destruct s as [| a [| b [| c r]]]; simpl; try discriminate.
  - destruct (JS.isSpace1 a); [|discriminate]. intros [= <-].
    now exists (String a "").
  - destruct (JS.isSpace1 a); [intros [= <-]; now exists (String a "")|].
    destruct (JS.isSpace2 a b); [|discriminate]. intros [= <-].
    now exists (String a (String b "")).
  - destruct (JS.isSpace1 a); [intros [= <-]; now exists (String a "")|].
    destruct (JS.isSpace2 a b);
      [intros [= <-]; now exists (String a (String b ""))|].
    destruct (JS.isSpace3 a b c); [|discriminate]. intros [= <-].
    now exists (String a (String b (String c ""))).
Qed.

Lemma afterSpace_app (s rest more : string) :
  JS.afterSpace s = Some rest -> JS.afterSpace (s ++ more) = Some (rest ++ more).
Proof.
  destruct s as [| a [| b [| c r]]]; simpl; try discriminate.
  - destruct (JS.isSpace1 a); [|discriminate]. now intros [= <-].
  - destruct (JS.isSpace1 a); [now intros [= <-]|].
    destruct (JS.isSpace2 a b); [|discriminate]. now intros [= <-].
  - destruct (JS.isSpace1 a); [now intros [= <-]|].
    destruct (JS.isSpace2 a b); [now intros [= <-]|].
    destruct (JS.isSpace3 a b c); [|discriminate]. now intros [= <-].
Qed.

Lemma length_append (s t : string) :
  String.length (s ++ t) = String.length s + String.length t.
Proof.
  induction s as [| c s IH]; [reflexivity|].
  change (S (String.length (s ++ t)) = S (String.length s) + String.length t).
  now rewrite IH.
Qed.

Lemma append_assoc (s t u : string) : (s ++ t) ++ u = s ++ (t ++ u).
Proof.
  induction s as [| c s IH]; [reflexivity|].
  change (String c ((s ++ t) ++ u) = String c (s ++ (t ++ u))).
  now rewrite IH.
Qed.

(** [JS.trimStart] drops a prefix and leaves no white space at the head. *)
Lemma trimStart_spec (s : string) :
  (exists dropped, s = dropped ++ JS.trimStart s)
  /\ JS.afterSpace (JS.trimStart s) = None.
Proof.
  remember (String.length s) as n eqn:En.
  revert s En. induction n as [n IH] using lt_wf_ind. intros s En.
  rewrite trimStart_afterSpace.
  destruct (JS.afterSpace s) as [rest |] eqn:E.
  - destruct (afterSpace_split _ _ E) as (space & -> & Hne).
    assert (Hlt : String.length rest < n).
    { subst n. rewrite length_append.
      destruct space; [contradiction|simpl; lia]. }
    destruct (IH _ Hlt rest eq_refl) as ((d & Hd) & Hnone).
    split; [|exact Hnone]. exists (space ++ d).
    rewrite append_assoc, <- Hd. reflexivity.
  - split; [now exists ""|exact E].
Qed.

Lemma trimEnd_prefix (s : string) : exists dropped, s = JS.trimEnd s ++ dropped.
Proof.
  induction s as [| a s [d IH]]; [now exists ""|].
  cbn [JS.trimEnd]. destruct (JS.isSpace (String a (JS.trimEnd s))).
  - now exists (String a s).
  - exists d. change (String a s = String a (JS.trimEnd s ++ d)). now rewrite <- IH.
Qed.

Lemma containsChar_app (c : ascii) (s t : string) :
  containsChar c (s ++ t) = containsChar c s || containsChar c t.
Proof.
  induction s as [| a s IH]; [reflexivity|].
  change (Ascii.eqb a c || containsChar c (s ++ t)
          = Ascii.eqb a c || containsChar c s || containsChar c t).
  now rewrite IH, orb_assoc.
Qed.

Lemma trim_contains (c : ascii) (s : string) :
  containsChar c (trim s) = true -> containsChar c s = true.
Proof.
  intros H. unfold trim, JS.trim in H.
  destruct (proj1 (trimStart_spec s)) as [d1 E1].
  destruct (trimEnd_prefix (JS.trimStart s)) as [d2 E2].
  rewrite E1, E2, !containsChar_app, H. now rewrite orb_true_r.
Qed.

Lemma trim_head (s : string) : startsWithSpace (trim s) = false.
Proof.
  unfold startsWithSpace, trim, JS.trim.
  destruct (JS.afterSpace (JS.trimEnd (JS.trimStart s))) as [rest |] eqn:E;
    [|reflexivity].
  destruct (trimEnd_prefix (JS.trimStart s)) as [d Hd].
  apply (afterSpace_app _ _ d) in E. rewrite <- Hd in E.
  now rewrite (proj2 (trimStart_spec s)) in E.
Qed.

(** X18: a request without an Origin header (or with an empty one) is let
    through whatever is configured, and a configured entry "*" lets every
    origin through. *)
Theorem cors_no_origin_and_wildcard (configured : string) :
  originAllowed configured None = true
  /\ originAllowed configured (Some "") = true
  /\ (In "*" (allowedOrigins configured) ->
      forall origin, originAllowed configured origin = true).
Proof.
  split; [reflexivity|]. split; [reflexivity|].
  intros Hstar [o |]; [|reflexivity]. unfold originAllowed.
  destruct (String.eqb o ""); [reflexivity|].
  apply includesString_In in Hstar. rewrite Hstar. apply orb_true_r.
Qed.

(** X19: without a configured "*", a non-empty origin is let through
    exactly when it equals one of the comma-separated entries after
    trimming; so an origin that contains a comma, or that begins with
    white space, is always refused. *)
Theorem cors_exact_entries_only (configured origin : string) :
  origin <> "" ->
  ~ In "*" (allowedOrigins configured) ->
  (originAllowed configured (Some origin) = true
   <-> exists entry, In entry (splitComma configured) /\ origin = trim entry)
  /\ (containsChar "," origin = true ->
      originAllowed configured (Some origin) = false)
  /\ (startsWithSpace origin = true ->
      originAllowed configured (Some origin) = false).
Proof.
  intros Ho Hstar.
  assert (Hnostar : includesString "*" (allowedOrigins configured) = false).
  { destruct (includesString "*" (allowedOrigins configured)) eqn:E;
      [|reflexivity]. apply includesString_In in E. contradiction. }
  assert (Hiff : originAllowed configured (Some origin) = true
                 <-> exists entry,
                       In entry (splitComma configured) /\ origin = trim entry).
  { unfold originAllowed.
    destruct (String.eqb_spec origin "") as [E | _]; [contradiction|].
    rewrite Hnostar, orb_false_r, includesString_In.
    unfold allowedOrigins. rewrite in_map_iff.
    split; intros (e & H1 & H2); exists e; auto. }
  split; [exact Hiff|]. split.
  - intros Hc. destruct (originAllowed configured (Some origin)) eqn:E;
      [|reflexivity].
    destruct (proj1 Hiff eq_refl) as (e & He & ->).
    apply trim_contains in Hc. rewrite (splitComma_no_comma _ _ He) in Hc.
    discriminate.
  - intros Hs. destruct (originAllowed configured (Some origin)) eqn:E;
      [|reflexivity].
    destruct (proj1 Hiff eq_refl) as (e & He & ->).
    rewrite trim_head in Hs. discriminate.
Qed.

End CorsProperties.

Lemma cors_exact_entries_only_witness :
  Cors.originAllowed "https://a.example, https://b.example"
    (Some "https://b.example") = true
  /\ Cors.originAllowed "https://a.example, https://b.example"
       (Some "https://a.example,https://b.example") = false.
Proof.
  destruct (CorsProperties.cors_exact_entries_only
              "https://a.example, https://b.example"
              "https://a.example,https://b.example")
    as (_ & H & _).
  - discriminate.
  - vm_compute. intros [E | [E | []]]; discriminate E.
  - split; [reflexivity|]. apply H. reflexivity.
Defined.


(** ** Analytics engine, continued *)

Module AnalyticsFurther.
Import AnalyticsService AnalyticsViews.

(** *** Duration distribution *)

Lemma Qle_bool_mono (a b d : Q) :
  (a <= b)%Q -> Qle_bool b d = true -> Qle_bool a d = true.
Proof.
  intros Hab H. apply Qle_bool_iff in H. apply Qle_bool_iff. lra.
Qed.

Lemma countDuration_ranges (c : Categories) (p : Problem) :
  countDuration c p
  = {| less_than_5 := less_than_5 c + bool_nat (inDurationRange None (Some 5%Q) p);
       c5_to_10 := c5_to_10 c + bool_nat (inDurationRange (Some 5%Q) (Some 10%Q) p);
       c10_to_30 := c10_to_30 c + bool_nat (inDurationRange (Some 10%Q) (Some 30%Q) p);
       c30_to_180 :=
         c30_to_180 c + bool_nat (inDurationRange (Some 30%Q) (Some 180%Q) p);
       more_than_180 :=
         more_than_180 c + bool_nat (inDurationRange (Some 180%Q) None p) |}.
Proof.
  destruct c as [a b c d e]. unfold countDuration, inDurationRange, JS.Qltb.
  cbn [less_than_5 c5_to_10 c10_to_30 c30_to_180 more_than_180].
  set (x := durationOrZero p).
  pose proof (Qle_bool_mono 5 10 x ltac:(discriminate)) as H1.
  pose proof (Qle_bool_mono 10 30 x ltac:(discriminate)) as H2.
  pose proof (Qle_bool_mono 30 180 x ltac:(discriminate)) as H3.
  destruct (Qle_bool 5 x), (Qle_bool 10 x), (Qle_bool 30 x), (Qle_bool 180 x);
    simpl;
    try (specialize (H1 eq_refl); discriminate H1);
    try (specialize (H2 eq_refl); discriminate H2);
    try (specialize (H3 eq_refl); discriminate H3);
    f_equal; lia.
Qed.

Lemma filter_length_cons {A} (f : A -> bool) (x : A) (l : list A) :
  length (List.filter f (x :: l)) = bool_nat (f x) + length (List.filter f l).
Proof. simpl. now destruct (f x). Qed.

(** X20: each bucket of [getDurationDistribution] counts the records whose
    stored duration (0 when missing) lies in its interval: below 5, from 5
    to below 10, from 10 to below 30, from 30 to below 180, and 180 or
    more; negative durations fall in the first. *)
Theorem durationDistribution_buckets (ps : list Problem) :
  let count lo hi := length (List.filter (inDurationRange lo hi) ps) in
  getDurationDistribution_body ps
  = {| less_than_5 := count None (Some 5%Q);
       c5_to_10 := count (Some 5%Q) (Some 10%Q);
       c10_to_30 := count (Some 10%Q) (Some 30%Q);
       c30_to_180 := count (Some 30%Q) (Some 180%Q);
       more_than_180 := count (Some 180%Q) None |}.
Proof.
  intros count. subst count. cbv beta. unfold getDurationDistribution_body.
  assert (H : forall c,
             fold_left countDuration ps c
             = {| less_than_5 :=
                    less_than_5 c
                    + length (List.filter (inDurationRange None (Some 5%Q)) ps);
                  c5_to_10 :=
                    c5_to_10 c
                    + length (List.filter (inDurationRange (Some 5%Q) (Some 10%Q)) ps);
                  c10_to_30 :=
                    c10_to_30 c
                    + length (List.filter (inDurationRange (Some 10%Q) (Some 30%Q)) ps);
                  c30_to_180 :=
                    c30_to_180 c
                    + length (List.filter (inDurationRange (Some 30%Q) (Some 180%Q)) ps);
                  more_than_180 :=
                    more_than_180 c
                    + length (List.filter (inDurationRange (Some 180%Q) None) ps) |}).
  { induction ps as [| p ps IH]; intros c.
    - destruct c. simpl. f_equal; lia.
    - cbn [fold_left]. rewrite IH, countDuration_ranges.
      rewrite !filter_length_cons.
      cbn [less_than_5 c5_to_10 c10_to_30 c30_to_180 more_than_180].
      f_equal; lia. }
  rewrite H. reflexivity.
Qed.

(** *** KPIs and the views that share their predicates *)

Lemma getKPIs_body_fields (ps : list Problem) :
  getKPIs_body ps
  = {| totalProblems := length ps;
       openProblems := length (List.filter isOpen ps);
       closedProblems := length (List.filter isClosed ps);
       totalDuration := doubleSum (map durationOrZero ps);
       avgResolutionTime := avgResolutionTime (getKPIs_body ps);
       problemsWithComments := length (List.filter hasComments ps);
       githubActionProblems := length (List.filter mentionsGitHubActions ps);
       criticalProblems := length (List.filter isCritical ps) |}.
Proof.
  unfold getKPIs_body. rewrite AnalyticsProperties.kpiStep_fold. reflexivity.
Qed.

Lemma filter_partition_length {A} (f : A -> bool) (l : list A) :
  length (List.filter f l) + length (List.filter (fun x => negb (f x)) l)
  = length l.
Proof.
  induction l as [| x l IH]; simpl; [reflexivity|].
  destruct (f x); simpl; lia.
Qed.

(** X21: in the KPIs, open and closed records together with the records of
    any other status make up the total; no count exceeds the total; and
    the total duration is the sum of the stored durations of all records,
    open ones included and a missing duration counting as 0, added up
    from 0 in the order of the records as double arithmetic adds them:
    their sum itself when they are whole numbers, none negative, that add
    up to less than 2^53. *)
Theorem kpis_counts (ps : list Problem) :
  let k := getKPIs_body ps in
  totalProblems k = length ps
  /\ openProblems k + closedProblems k
     + length (List.filter (fun p => negb (isOpen p || isClosed p)) ps)
     = totalProblems k
  /\ problemsWithComments k <= totalProblems k
  /\ githubActionProblems k <= totalProblems k
  /\ criticalProblems k <= totalProblems k
  /\ totalDuration k = doubleSum (map durationOrZero ps)
  /\ (forall zs : list Z,
         map durationOrZero ps = map inject_Z zs ->
         Forall (fun z => 0 <= z)%Z zs -> (sumZ zs < 2 ^ 53)%Z ->
         totalDuration k = JS.NFin (inject_Z (sumZ zs))).
Proof.
  intros k. subst k. rewrite getKPIs_body_fields.
  cbn [totalProblems openProblems closedProblems problemsWithComments
       githubActionProblems criticalProblems totalDuration].
  split; [reflexivity|]. split.
  { rewrite <- (filter_partition_length (fun p => isOpen p || isClosed p) ps).
    f_equal. clear. induction ps as [| p ps IH]; simpl; [reflexivity|].
    unfold isOpen, isClosed in *.
    destruct (String.eqb_spec (status p) "OPEN") as [E | _]; simpl.
    - rewrite E. simpl. lia.
    - destruct (String.eqb (status p) "CLOSED"); simpl; lia. }
  repeat split; try apply AnalyticsProperties.filter_length_le.
  intros zs -> Hall Hlt. now apply AnalyticsProperties.doubleSum_integers.
Qed.

Lemma filter_filter_length_le {A} (f g : A -> bool) (l : list A) :
  length (List.filter g (List.filter f l)) <= length (List.filter g l).
Proof.
  induction l as [| x l IH]; simpl; [lia|].
  destruct (f x), (g x) eqn:Eg; simpl; rewrite ?Eg; simpl; lia.
Qed.

(** X22: the views agree where they share a predicate: the funnel's total,
    with-comments and closed counts are the KPIs' total, with-comments and
    closed counts, and the "Sí" of the autoremediado distribution is the
    KPIs' GitHub Actions count; the funnel's GitHub Actions stage, which
    also asks for [totalCount > 0], can only be smaller. *)
Theorem kpis_funnel_autoremediado_agree (ps : list Problem) :
  let k := getKPIs_body ps in
  exists github success,
    map stage_count (getRemediationFunnel_body ps)
    = [totalProblems k; problemsWithComments k; github; success; closedProblems k]
    /\ github <= githubActionProblems k
    /\ map nv_value (getAutoremediadoDistribution_body ps)
       = [githubActionProblems k; totalProblems k - githubActionProblems k].
Proof.
  intros k. subst k. rewrite getKPIs_body_fields.
  cbn [totalProblems problemsWithComments closedProblems githubActionProblems].
  do 2 eexists. split; [reflexivity|]. split; [|reflexivity].
  apply filter_filter_length_le.
Qed.

Lemma filter_filter_same {A} (f g : A -> bool) (l : list A) :
  (forall x, In x l -> g x = true -> f x = true) ->
  List.filter g (List.filter f l) = List.filter g l.
Proof.
  induction l as [| x l IH]; simpl; intros H; [reflexivity|].
  destruct (f x) eqn:Ef; simpl.
  - destruct (g x); rewrite IH; auto.
  - destruct (g x) eqn:Eg.
    + rewrite (H x (or_introl eq_refl) Eg) in Ef. discriminate.
    + apply IH. auto.
Qed.

(** X23: on records whose [totalCount] is the length of their comments
    list, the funnel's GitHub Actions stage is the KPIs' GitHub Actions
    count: a record with a matching comment has at least one comment. *)
Theorem funnel_github_stage_is_kpi (ps : list Problem) :
  Forall commentsConsistent ps ->
  nth 2 (map stage_count (getRemediationFunnel_body ps)) 0
  = githubActionProblems (getKPIs_body ps).
Proof.
  intros Hc. rewrite getKPIs_body_fields. cbn [githubActionProblems].
  cbn [getRemediationFunnel_body map nth stage_count].
  rewrite filter_filter_same; [reflexivity|].
  intros p Hp Hm. rewrite (List.Forall_forall _) in Hc. specialize (Hc p Hp).
  unfold commentsConsistent in Hc.
  unfold mentionsGitHubActions, someComment in Hm. unfold hasComments.
  destruct (comments (recentComments p)) as [[| c cs] |];
    try discriminate Hm.
  rewrite Hc. cbn [from_option Datatypes.id length]. apply Z.ltb_lt. lia.
Qed.

(** *** Funnel percentages *)

(** X24: on a record set that is not empty every funnel stage reports a
    finite percentage between 0 and 100. *)
Theorem funnel_percentages_in_range (ps : list Problem) :
  ps <> [] ->
  Forall (fun s => exists q, percentage s = JS.NFin q /\ (0 <= q)%Q /\ (q <= 100)%Q)
         (getRemediationFunnel_body ps).
Proof.
  intros Hne.
  assert (Ht : 0 < length ps) by (destruct ps; [contradiction|simpl; lia]).
  assert (Hpct : forall c, c <= length ps ->
                   exists q, percentOf c (length ps) = JS.NFin q
                             /\ (0 <= q)%Q /\ (q <= 100)%Q).
  { intros c Hc. pose proof (AnalyticsProperties.percentOf_range _ _ Hc) as H.
    destruct (Nat.eqb_spec (length ps) 0) as [E | _]; [lia|exact H]. }
  unfold getRemediationFunnel_body.
  repeat constructor; cbn [percentage].
  - exists 100%Q. repeat split; discriminate.
  - apply Hpct, AnalyticsProperties.filter_length_le.
  - apply Hpct. etransitivity; apply AnalyticsProperties.filter_length_le.
  - apply Hpct. etransitivity; [apply AnalyticsProperties.filter_length_le|].
    etransitivity; apply AnalyticsProperties.filter_length_le.
  - apply Hpct, AnalyticsProperties.filter_length_le.
Qed.

End AnalyticsFurther.

(** The scenario: 4, 45 and 200 minutes, 249 in all. *)
Lemma kpis_counts_witness :
  totalDuration (AnalyticsService.getKPIs_body scenario) = JS.NFin 249.
Proof.
  destruct (AnalyticsFurther.kpis_counts scenario) as (_ & _ & _ & _ & _ & _ & H).
  rewrite (H [4; 45; 200]%Z eq_refl).
  - reflexivity.
  - repeat constructor; discriminate.
  - reflexivity.
Defined.

Lemma funnel_github_stage_is_kpi_witness :
  nth 2 (map stage_count (AnalyticsService.getRemediationFunnel_body scenario)) 0
  = githubActionProblems (AnalyticsService.getKPIs_body scenario).
Proof.
  apply (AnalyticsFurther.funnel_github_stage_is_kpi scenario).
  repeat constructor.
Defined.

Lemma funnel_percentages_in_range_witness :
  Forall (fun s => exists q, percentage s = JS.NFin q /\ (0 <= q)%Q /\ (q <= 100)%Q)
         (AnalyticsService.getRemediationFunnel_body scenario).
Proof.
  apply (AnalyticsFurther.funnel_percentages_in_range scenario). discriminate.
Defined.


(** *** Top entities, continued *)

Module TopEntitiesFurther.
Import AnalyticsService.

Lemma buildEntityMap_flat (ps : list Problem) :
  buildEntityMap ps
  = fold_left (fun m entity => countEntity entity m) (allEntities ps) [].
Proof.
  unfold buildEntityMap, allEntities.
  generalize (@nil (option string * EntityCount)).
  induction ps as [| p ps IH]; intros m; simpl; [reflexivity|].
  now rewrite fold_left_app, IH.
Qed.

Lemma sumCounts_countEntity (e : AffectedEntity)
    (m : list (option string * EntityCount)) :
  sumCounts (countEntity e m) = S (sumCounts m).
Proof.
  induction m as [| [k x] m IH]; simpl; [reflexivity|].
  case_bool_decide; simpl; [lia|]. rewrite IH. lia.
Qed.

Lemma sumCounts_fold (es : list AffectedEntity)
    (m : list (option string * EntityCount)) :
  sumCounts (fold_left (fun m entity => countEntity entity m) es m)
  = length es + sumCounts m.
Proof.
  revert m. induction es as [| e es IH]; intros m; simpl; [reflexivity|].
  rewrite IH, sumCounts_countEntity. lia.
Qed.

Lemma sumEC_perm (l l' : list EntityCount) :
  Permutation l l' -> sumEC l = sumEC l'.
Proof. induction 1; simpl; lia. Qed.

Lemma sumEC_take (n : nat) (l : list EntityCount) : sumEC (take n l) <= sumEC l.
Proof.
  revert n. induction l as [| x l IH]; intros [| n]; simpl; try lia.
  specialize (IH n). lia.
Qed.

Lemma sumEC_values (m : list (option string * EntityCount)) :
  sumEC (map snd m) = sumCounts m.
Proof. induction m as [| [k x] m IH]; simpl; [reflexivity|]. now rewrite IH. Qed.

Lemma sumProblemCounts_map (l : list EntityCount) :
  sumProblemCounts (map toTopEntity l) = sumEC l.
Proof. induction l as [| x l IH]; simpl; [reflexivity|]. now rewrite IH. Qed.

(** X25: the counts of the entity map add up to the number of elements in
    all [affectedEntities] lists; the reported counts add up to at most
    that, and to exactly that when the limit is not below the number of
    distinct ids. *)
Theorem getTopEntities_counts_add_up (limit : option Z) (ps : list Problem) :
  sumCounts (buildEntityMap ps) = length (allEntities ps)
  /\ sumProblemCounts (getTopEntities_body limit ps) <= length (allEntities ps)
  /\ ((Z.of_nat (length (buildEntityMap ps)) <= default 10%Z limit)%Z ->
      sumProblemCounts (getTopEntities_body limit ps) = length (allEntities ps)).
Proof.
  assert (Hsum : sumCounts (buildEntityMap ps) = length (allEntities ps)).
  { rewrite buildEntityMap_flat, sumCounts_fold. simpl. lia. }
  assert (Hsorted : sumEC (sortByCount (map snd (buildEntityMap ps)))
                    = length (allEntities ps)).
  { rewrite (sumEC_perm _ _ (AnalyticsProperties.sortByCount_perm _)).
    now rewrite sumEC_values. }
  split; [exact Hsum|].
  unfold getTopEntities_body. rewrite sumProblemCounts_map. split.
  - rewrite <- Hsorted. unfold JS.slice0.
    destruct (default 10%Z limit <? 0)%Z; apply sumEC_take.
  - intros Hbig. rewrite <- Hsorted. unfold JS.slice0.
    destruct (Z.ltb_spec (default 10%Z limit) 0) as [Hneg | _]; [lia|].
    rewrite take_ge; [reflexivity|].
    rewrite (Permutation_length (AnalyticsProperties.sortByCount_perm _)),
      length_map. lia.
Qed.

Lemma entityMapGet_countEntity (key : option string) (e : AffectedEntity)
    (m : list (option string * EntityCount)) :
  entityMapGet key (countEntity e m)
  = if hasId key e
    then Some match entityMapGet key m with
              | Some x => {| ec_name := ec_name x; ec_type := ec_type x;
                             ec_count := S (ec_count x) |}
              | None => {| ec_name := name e; ec_type := type (entityId e);
                           ec_count := 1 |}
              end
    else entityMapGet key m.
Proof.
  unfold hasId. induction m as [| [k x] m IH]; simpl.
  - case_bool_decide; reflexivity.
  - destruct (bool_decide (k = id (entityId e))) eqn:Hk; simpl.
    + apply bool_decide_eq_true in Hk. subst k.
      case_bool_decide; reflexivity.
    + apply bool_decide_eq_false in Hk.
      destruct (bool_decide (k = key)) eqn:Hkey.
      * apply bool_decide_eq_true in Hkey. subst k.
        now rewrite bool_decide_eq_false_2 by congruence.
      * exact IH.
Qed.

Lemma find_snoc {A} (f : A -> bool) (l : list A) (x : A) :
  List.find f (l ++ [x])
  = match List.find f l with
    | Some y => Some y
    | None => if f x then Some x else None
    end.
Proof.
  induction l as [| y l IH]; simpl; [reflexivity|].
  destruct (f y); [reflexivity|exact IH].
Qed.

Lemma find_none_filter {A} (f : A -> bool) (l : list A) :
  List.find f l = None -> List.filter f l = [].
Proof.
  induction l as [| y l IH]; simpl; [reflexivity|].
  destruct (f y); [discriminate|exact IH].
Qed.

(** X26: an id is reported under the name and type of the first element
    that carries it, in the order of the records and of their lists; later
    elements with the same id only raise its count. *)
Theorem getTopEntities_first_occurrence (key : option string) (ps : list Problem) :
  entityMapGet key (buildEntityMap ps)
  = match List.find (hasId key) (allEntities ps) with
    | Some first =>
        Some {| ec_name := name first;
                ec_type := type (entityId first);
                ec_count := occurrences key ps |}
    | None => None
    end.
Proof.
  rewrite buildEntityMap_flat. unfold occurrences. fold (allEntities ps).
  induction (allEntities ps) as [| e es IH] using rev_ind; [reflexivity|].
  rewrite fold_left_app. cbn [fold_left].
  rewrite entityMapGet_countEntity, IH, find_snoc, List.filter_app, length_app.
  destruct (List.find (hasId key) es) as [first |] eqn:Ef.
  - cbn [List.filter]. destruct (hasId key e);
      cbn [length ec_name ec_type ec_count]; do 2 f_equal; lia.
  - rewrite (find_none_filter _ _ Ef). cbn [List.filter].
    destruct (hasId key e); reflexivity.
Qed.

(** X27: the sort is stable: among the ids with one and the same count
    the reported order is the order in which the ids were first met. *)
Theorem getTopEntities_ties_in_first_seen_order (limit : option Z)
    (ps : list Problem) (c : nat) :
  exists sorted,
    getTopEntities_body limit ps
    = map toTopEntity (JS.slice0 (default 10%Z limit) sorted)
    /\ Permutation sorted (map snd (buildEntityMap ps))
    /\ List.filter (fun e => ec_count e =? c)%nat sorted
       = List.filter (fun e => ec_count e =? c)%nat (map snd (buildEntityMap ps)).
Proof.
  exists (sortByCount (map snd (buildEntityMap ps))).
  split; [reflexivity|].
  split; [apply AnalyticsProperties.sortByCount_perm|].
  apply AnalyticsProperties.sortByCount_stable.
Qed.

End TopEntitiesFurther.


(** *** Root causes and evidence *)

Module ViewsProperties.
Import AnalyticsViews.

Lemma increment_keys (s k : string) (m : list (string * nat)) :
  In k (map fst (increment s m)) <-> In k (map fst m) \/ k = s.
Proof.
  induction m as [| [k' n] m IH]; simpl.
  - intuition.
  - destruct (String.eqb_spec k' s) as [-> | Hne]; simpl.
    + intuition.
    + rewrite IH. intuition.
Qed.

Lemma increment_sum (s : string) (m : list (string * nat)) :
  sumEntries (increment s m) = S (sumEntries m).
Proof.
  induction m as [| [k n] m IH]; simpl; [reflexivity|].
  destruct (String.eqb k s); simpl; [lia|]. rewrite IH. lia.
Qed.

Lemma increment_ok (s : string) (m : list (string * nat)) :
  s <> "" -> counterOk m -> counterOk (increment s m).
Proof.
  intros Hs. unfold counterOk.
  induction m as [| [k n] m IH]; simpl; intros [Hnd Hall].
  - split; [constructor; [intros []|constructor]|].
    constructor; [simpl; split; [exact Hs|lia]|constructor].
  - inversion Hnd as [| ? ? Hnotin Hnd']; subst.
    inversion Hall as [| ? ? [Hk Hn] Hall']; subst. simpl in *.
    destruct (String.eqb_spec k s) as [-> | Hne]; simpl.
    + split; [now constructor|]. constructor; [simpl; split; [exact Hs|lia]|].
      exact Hall'.
    + destruct (IH (conj Hnd' Hall')) as [IH1 IH2].
      split; constructor; try assumption; [|simpl; split; [exact Hk|lia]].
      rewrite increment_keys. intros [Hin | ->]; [contradiction|congruence].
Qed.

Lemma insertByValue_perm (a : NamedValue) (l : list NamedValue) :
  Permutation (insertByValue a l) (a :: l).
Proof.
  induction l as [| b l IH]; simpl; [reflexivity|].
  destruct (nv_value a <? nv_value b)%nat; [|reflexivity].
  rewrite IH. apply perm_swap.
Qed.

Lemma sortByValue_perm (l : list NamedValue) : Permutation (sortByValue l) l.
Proof.
  induction l as [| a l IH]; simpl; [reflexivity|].
  rewrite insertByValue_perm. now constructor.
Qed.

Lemma insertByValue_sorted (a : NamedValue) (l : list NamedValue) :
  StronglySorted byValueDesc l -> StronglySorted byValueDesc (insertByValue a l).
Proof.
  induction l as [| b l IH]; simpl; intros Hs.
  - repeat constructor.
  - inversion Hs as [| ? ? Hs' Hall]; subst.
    rewrite (List.Forall_forall (byValueDesc b)) in Hall.
    destruct (Nat.ltb_spec (nv_value a) (nv_value b)) as [Hlt | Hge].
    + constructor; [now apply IH|].
      rewrite (List.Forall_forall (byValueDesc b)). intros x Hx.
      apply (Permutation_in _ (insertByValue_perm a l)) in Hx.
      destruct Hx as [<- | Hx]; [unfold byValueDesc; lia|now apply Hall].
    + constructor; [exact Hs|]. constructor; [exact Hge|].
      rewrite (List.Forall_forall (byValueDesc a)). intros x Hx.
      specialize (Hall x Hx). unfold byValueDesc in *. lia.
Qed.

Lemma sortByValue_sorted (l : list NamedValue) :
  StronglySorted byValueDesc (sortByValue l).
Proof.
  induction l as [| a l IH]; simpl; [constructor|].
  now apply insertByValue_sorted.
Qed.

Lemma sumValues_perm (l l' : list NamedValue) :
  Permutation l l' -> sumValues l = sumValues l'.
Proof. induction 1; simpl; lia. Qed.

Lemma sumValues_entries (m : list (string * nat)) :
  sumValues (map toNamedValue m) = sumEntries m.
Proof. induction m as [| [k n] m IH]; simpl; [reflexivity|]. now rewrite IH. Qed.

Lemma names_entries (m : list (string * nat)) :
  map nv_name (map toNamedValue m) = map fst m.
Proof. induction m as [| [k n] m IH]; simpl; [reflexivity|]. now rewrite IH. Qed.

Lemma rootCauseName_nonempty (p : ProblemDoc) (s : string) :
  rootCauseName p = Some s -> s <> "".
Proof.
  unfold rootCauseName. destruct (rootCauseEntity p) as [[rc |] |]; try discriminate.
  destruct (rc_name rc) as [n |]; [|discriminate].
  destruct (String.eqb_spec n "") as [_ | Hn]; [discriminate|].
  now intros [= <-].
Qed.

Lemma rootCauseMap_spec (ps : list ProblemDoc) (m : list (string * nat)) :
  counterOk m ->
  counterOk (fold_left countRootCause ps m)
  /\ sumEntries (fold_left countRootCause ps m)
     = sumEntries m + length (List.filter rootCauseNamed ps).
Proof.
  revert m. induction ps as [| p ps IH]; intros m Hm; simpl.
  - split; [exact Hm|lia].
  - unfold countRootCause at 2 4, rootCauseNamed at 1.
    destruct (rootCauseName p) as [s |] eqn:E.
    + destruct (IH (increment s m)) as [H1 H2].
      { apply increment_ok; [now apply (rootCauseName_nonempty p)|exact Hm]. }
      split; [exact H1|]. rewrite H2, increment_sum. simpl. lia.
    + now apply IH.
Qed.

Lemma getRootCauseAnalysis_sorted_counts_aux (ps : list ProblemDoc) :
  sumValues (getRootCauseAnalysis_body ps) = length (List.filter rootCauseNamed ps)
  /\ counterOk (fold_left countRootCause ps []).
Proof.
  unfold getRootCauseAnalysis_body.
  destruct (rootCauseMap_spec ps []) as [Hok Hsum]; [split; constructor|].
  split; [|exact Hok].
  rewrite (sumValues_perm _ _ (sortByValue_perm _)), sumValues_entries, Hsum.
  simpl. lia.
Qed.

Lemma entryCount_increment (s k : string) (m : list (string * nat)) :
  entryCount k (increment s m) = entryCount k m + bool_nat (String.eqb s k).
Proof.
  induction m as [| [k' n] m IH]; simpl.
  - destruct (String.eqb s k); reflexivity.
  - destruct (String.eqb_spec k' s) as [-> | Hne]; simpl.
    + destruct (String.eqb s k); simpl; lia.
    + destruct (String.eqb_spec k' k) as [-> | Hk].
      * destruct (String.eqb_spec s k) as [-> | _]; [congruence|simpl; lia].
      * exact IH.
Qed.

Lemma entryCount_fold (k : string) (ps : list ProblemDoc)
    (m : list (string * nat)) :
  entryCount k (fold_left countRootCause ps m)
  = entryCount k m + recordsNamed k ps.
Proof.
  revert m. induction ps as [| p ps IH]; intros m;
    [unfold recordsNamed; simpl; lia|].
  cbn [fold_left]. rewrite IH. unfold recordsNamed, countRootCause.
  cbn [List.filter]. destruct (rootCauseName p) as [s |]; [|lia].
  rewrite entryCount_increment. destruct (String.eqb s k); simpl; lia.
Qed.

(** In a map with distinct keys and positive counts, the entries are the
    keys with their counts. *)
Lemma entryCount_In (k : string) (n : nat) (m : list (string * nat)) :
  counterOk m -> In (k, n) m <-> 0 < n /\ n = entryCount k m.
Proof.
  unfold counterOk. induction m as [| [k' n'] m IH]; simpl; intros [Hnd Hall].
  - split; [intros []|lia].
  - inversion Hnd as [| ? ? Hnotin Hnd']; subst.
    inversion Hall as [| ? ? [_ Hpos] Hall']; subst. simpl in Hpos.
    destruct (String.eqb_spec k' k) as [-> | Hne].
    + split.
      * intros [[= <-] | Hin]; [lia|].
        exfalso. apply Hnotin. apply in_map_iff. now exists (k, n).
      * intros [_ ->]. now left.
    + rewrite <- (IH (conj Hnd' Hall')). split.
      * intros [[= ? ?] | Hin]; [contradiction|exact Hin].
      * intros Hin. now right.
Qed.

(** X28: the root cause analysis lists exactly the root cause names that
    occur in the record set, a missing root cause or an empty name being
    no name: each name once, with the number of records that carry it, in
    descending order of that number; its counts add up to the number of
    records with a named root cause. *)
Theorem getRootCauseAnalysis_sorted_counts (ps : list ProblemDoc) :
  let data := getRootCauseAnalysis_body ps in
  StronglySorted byValueDesc data
  /\ List.NoDup (map nv_name data)
  /\ (forall (s : string) (n : nat),
         In {| nv_name := s; nv_value := n |} data
         <-> 0 < n /\ n = recordsNamed s ps)
  /\ Forall (fun v => nv_name v <> "" /\ 0 < nv_value v) data
  /\ sumValues data = length (List.filter rootCauseNamed ps).
Proof.
  intros data. subst data. unfold getRootCauseAnalysis_body.
  destruct (rootCauseMap_spec ps []) as [[Hnd Hall] Hsum].
  { split; constructor. }
  assert (Hcount : forall k,
             recordsNamed k ps = entryCount k (fold_left countRootCause ps []))
    by (intros k; now rewrite entryCount_fold).
  pose proof (fun k n => entryCount_In k n _ (conj Hnd Hall)) as Hin.
  set (m := fold_left countRootCause ps []) in *.
  pose proof (sortByValue_perm (map toNamedValue m)) as Hperm.
  split; [apply sortByValue_sorted|]. split; [|split; [|split]].
  - apply (Permutation_NoDup (l := map nv_name (map toNamedValue m))).
    + symmetry. now apply Permutation_map.
    + now rewrite names_entries.
  - intros s n. rewrite (Hcount s), <- Hin. split.
    + intros H. apply (Permutation_in _ Hperm) in H.
      apply in_map_iff in H as ([k c] & [= -> ->] & H). exact H.
    + intros H. apply (Permutation_in _ (Permutation_sym Hperm)).
      apply in_map_iff. now exists (s, n).
  - rewrite (List.Forall_forall _). intros v Hv.
    apply (Permutation_in _ Hperm) in Hv.
    apply in_map_iff in Hv as ([k n] & <- & Hv).
    rewrite (List.Forall_forall _) in Hall. exact (Hall _ Hv).
  - rewrite (sumValues_perm _ _ Hperm), sumValues_entries, Hsum. simpl. lia.
Qed.

Lemma filter_length_mono {A} (f g : A -> bool) (l : list A) :
  (forall x, f x = true -> g x = true) ->
  length (List.filter f l) <= length (List.filter g l).
Proof.
  intros H. induction l as [| x l IH]; simpl; [lia|].
  destruct (f x) eqn:Ef.
  - rewrite (H x Ef). simpl. lia.
  - destruct (g x); simpl; lia.
Qed.

(** X29: both root cause distributions split the record set in two; the
    chart that also asks for at least one own key never counts more
    records "with" than the one that only asks for a non-null value, and
    never fewer than the records with a named root cause. *)
Theorem rootCause_distributions (ps : list ProblemDoc) :
  exists present absent nonEmpty empty,
    getRootCauseDistribution_body ps
    = [ {| nv_name := "With Root Cause"; nv_value := present |};
        {| nv_name := "Without Root Cause"; nv_value := absent |} ]
    /\ getHasRootCauseDistribution_body ps
       = [ {| nv_name := "Sí"; nv_value := nonEmpty |};
           {| nv_name := "No"; nv_value := empty |} ]
    /\ present + absent = length ps
    /\ nonEmpty + empty = length ps
    /\ sumValues (getRootCauseAnalysis_body ps) <= nonEmpty
    /\ nonEmpty <= present.
Proof.
  do 4 eexists. split; [reflexivity|]. split; [reflexivity|].
  pose proof (AnalyticsProperties.filter_length_le rootCausePresent ps) as H1.
  pose proof (AnalyticsProperties.filter_length_le rootCauseNonEmpty ps) as H2.
  split; [lia|]. split; [lia|]. split.
  - destruct (getRootCauseAnalysis_sorted_counts_aux ps) as [-> _].
    apply filter_length_mono. intros p. unfold rootCauseNamed, rootCauseName,
      rootCauseNonEmpty, ownKeys.
    destruct (rootCauseEntity p) as [[rc |] |]; try discriminate.
    destruct (rc_name rc); [reflexivity|discriminate].
  - apply filter_length_mono. intros p. unfold rootCauseNonEmpty, rootCausePresent.
    destruct (rootCauseEntity p) as [[rc |] |]; auto.
Qed.

End ViewsProperties.


Module EvidenceProperties.
Import AnalyticsViews ViewsProperties.

Lemma eventTypeOrUnknown_nonempty (e : Evidence) : eventTypeOrUnknown e <> "".
Proof.
  unfold eventTypeOrUnknown. destruct (eventType e) as [s |]; [|discriminate].
  destruct (String.eqb_spec s "") as [_ | Hs]; [discriminate|exact Hs].
Qed.

Lemma increment_nonempty (s : string) (m : list (string * nat)) :
  increment s m <> [].
Proof.
  destruct m as [| [k n] m]; simpl; [discriminate|].
  destruct (String.eqb k s); discriminate.
Qed.

Lemma countEvidence_keys (e : Evidence) (k : string)
    (m : list (string * list (string * nat))) :
  In k (map fst (countEvidence e m)) <-> In k (map fst m) \/ k = evidenceType e.
Proof.
  induction m as [| [k' inner] m IH]; simpl.
  - intuition.
  - destruct (String.eqb_spec k' (evidenceType e)) as [-> | Hne]; simpl.
    + intuition.
    + rewrite IH. intuition.
Qed.

Lemma countEvidence_sum (e : Evidence) (m : list (string * list (string * nat))) :
  sumEvidence (countEvidence e m) = S (sumEvidence m).
Proof.
  induction m as [| [k inner] m IH]; simpl; [reflexivity|].
  destruct (String.eqb k (evidenceType e)); simpl.
  - rewrite increment_sum. lia.
  - rewrite IH. lia.
Qed.

Lemma countEvidence_ok (e : Evidence) (m : list (string * list (string * nat))) :
  evidenceOk m -> evidenceOk (countEvidence e m).
Proof.
  pose proof (eventTypeOrUnknown_nonempty e) as Hev.
  unfold evidenceOk. induction m as [| [k inner] m IH]; simpl; intros [Hnd Hall].
  - split; [constructor; [intros []|constructor]|].
    constructor; [|constructor]. simpl. split; [discriminate|].
    split; [constructor; [intros []|constructor]|].
    constructor; [simpl; split; [exact Hev|lia]|constructor].
  - inversion Hnd as [| ? ? Hnotin Hnd']; subst.
    inversion Hall as [| ? ? [Hne Hok] Hall']; subst. simpl in *.
    destruct (String.eqb_spec k (evidenceType e)) as [-> | Hk]; simpl.
    + split; [now constructor|]. constructor; [|exact Hall']. simpl.
      split; [apply increment_nonempty|now apply increment_ok].
    + destruct (IH (conj Hnd' Hall')) as [IH1 IH2].
      split; constructor; try assumption; [|simpl; now split].
      rewrite countEvidence_keys. intros [Hin | ->]; [contradiction|congruence].
Qed.

Lemma buildEvidenceMap_spec (ps : list ProblemDoc) :
  evidenceOk (buildEvidenceMap ps)
  /\ sumEvidence (buildEvidenceMap ps)
     = length (concat (map evidenceDetails ps)).
Proof.
  unfold buildEvidenceMap.
  assert (H : forall m,
             evidenceOk m ->
             evidenceOk
               (fold_left
                  (fun evidenceMap p =>
                     fold_left (fun m evidence => countEvidence evidence m)
                               (evidenceDetails p) evidenceMap) ps m)
             /\ sumEvidence
                  (fold_left
                     (fun evidenceMap p =>
                        fold_left (fun m evidence => countEvidence evidence m)
                                  (evidenceDetails p) evidenceMap) ps m)
                = sumEvidence m + length (concat (map evidenceDetails ps))).
  { induction ps as [| p ps IH]; intros m Hm; simpl; [split; [exact Hm|lia]|].
    assert (Hinner : forall es m0,
               evidenceOk m0 ->
               evidenceOk (fold_left (fun m evidence => countEvidence evidence m)
                                     es m0)
               /\ sumEvidence (fold_left (fun m evidence => countEvidence evidence m)
                                         es m0)
                  = sumEvidence m0 + length es).
    { induction es as [| e es IHe]; intros m0 Hm0; simpl;
        [split; [exact Hm0|lia]|].
      destruct (IHe _ (countEvidence_ok e m0 Hm0)) as [H1 H2].
      split; [exact H1|]. rewrite H2, countEvidence_sum. lia. }
    destruct (Hinner (evidenceDetails p) m Hm) as [H1 H2].
    destruct (IH _ H1) as [H3 H4]. split; [exact H3|].
    rewrite H4, H2, length_app. lia. }
  destruct (H []) as [H1 H2]; [split; constructor|].
  split; [exact H1|]. rewrite H2. simpl. lia.
Qed.

Lemma nestedCount_countEvidence (t e : string) (ev : Evidence)
    (m : list (string * list (string * nat))) :
  nestedCount t e (countEvidence ev m)
  = nestedCount t e m + bool_nat (evidenceOf t e ev).
Proof.
  unfold evidenceOf. induction m as [| [k inner] m IH]; simpl.
  - destruct (String.eqb (evidenceType ev) t); simpl; [|reflexivity].
    destruct (String.eqb (eventTypeOrUnknown ev) e); reflexivity.
  - destruct (String.eqb_spec k (evidenceType ev)) as [-> | Hne]; simpl.
    + destruct (String.eqb (evidenceType ev) t); simpl; [|lia].
      apply entryCount_increment.
    + destruct (String.eqb_spec k t) as [-> | Hk].
      * destruct (String.eqb_spec (evidenceType ev) t) as [E | _];
          [congruence|simpl; lia].
      * exact IH.
Qed.

Lemma filter_length_app {A} (f : A -> bool) (l l' : list A) :
  length (List.filter f (l ++ l'))
  = length (List.filter f l) + length (List.filter f l').
Proof. now rewrite List.filter_app, length_app. Qed.

Lemma nestedCount_build (t e : string) (ps : list ProblemDoc) :
  nestedCount t e (buildEvidenceMap ps) = evidenceCount t e ps.
Proof.
  unfold buildEvidenceMap, evidenceCount, allEvidence.
  assert (Hinner : forall es m,
             nestedCount t e
               (fold_left (fun m evidence => countEvidence evidence m) es m)
             = nestedCount t e m + length (List.filter (evidenceOf t e) es)).
  { induction es as [| ev es IH]; intros m; simpl; [lia|].
    rewrite IH, nestedCount_countEvidence.
    destruct (evidenceOf t e ev); simpl; lia. }
  assert (H : forall m,
             nestedCount t e
               (fold_left
                  (fun evidenceMap p =>
                     fold_left (fun m evidence => countEvidence evidence m)
                               (evidenceDetails p) evidenceMap) ps m)
             = nestedCount t e m
               + length (List.filter (evidenceOf t e)
                           (concat (map evidenceDetails ps)))).
  { induction ps as [| p ps IH]; intros m; simpl; [lia|].
    rewrite IH, Hinner, filter_length_app. lia. }
  rewrite H. reflexivity.
Qed.

(** In a well-formed [evidenceMap], the entries of the inner maps are the
    pairs of types with their counts. *)
Lemma nestedCount_In (t e : string) (n : nat)
    (m : list (string * list (string * nat))) :
  evidenceOk m ->
  (exists inner, In (t, inner) m /\ In (e, n) inner)
  <-> 0 < n /\ n = nestedCount t e m.
Proof.
  unfold evidenceOk. induction m as [| [k inner] m IH]; simpl; intros [Hnd Hall].
  - split; [intros (? & [] & _)|lia].
  - inversion Hnd as [| ? ? Hnotin Hnd']; subst.
    inversion Hall as [| ? ? [_ Hok] Hall']; subst. simpl in Hok.
    destruct (String.eqb_spec k t) as [-> | Hne].
    + rewrite <- (entryCount_In e n inner Hok). split.
      * intros (inner' & [[= <-] | Hin] & He); [exact He|].
        exfalso. apply Hnotin. apply in_map_iff. now exists (t, inner').
      * intros He. exists inner. split; [now left|exact He].
    + rewrite <- (IH (conj Hnd' Hall')). split.
      * intros (inner' & [[= ? ?] | Hin] & He); [contradiction|].
        now exists inner'.
      * intros (inner' & Hin & He). exists inner'. split; [now right|exact He].
Qed.

(** X30: the evidence breakdown lists exactly the evidence types that
    occur in the record set, each once, and under a type exactly the
    event types that occur with it, each once and with the number of
    evidence details of that evidence type and event type; an evidence
    detail whose event type is missing or empty is counted under
    "UNKNOWN"; all counts together are the number of evidence details. *)
Theorem getEvidenceTypes_breakdown (ps : list ProblemDoc) :
  let breakdown := getEvidenceTypes_body ps in
  List.NoDup (map eg_name breakdown)
  /\ sumBreakdown breakdown = length (allEvidence ps)
  /\ Forall (fun g =>
               eg_children g <> []
               /\ List.NoDup (map nv_name (eg_children g))
               /\ Forall (fun c => nv_name c <> "" /\ 0 < nv_value c)
                         (eg_children g))
            breakdown
  /\ (forall (t e : string) (n : nat),
         (exists g, In g breakdown /\ eg_name g = t
                    /\ In {| nv_name := e; nv_value := n |} (eg_children g))
         <-> 0 < n /\ n = evidenceCount t e ps)
  /\ (forall ev : Evidence,
         In ev (allEvidence ps) ->
         0 < evidenceCount (evidenceType ev) (eventTypeOrUnknown ev) ps
         /\ (eventType ev = None \/ eventType ev = Some "" ->
             eventTypeOrUnknown ev = "UNKNOWN")).
Proof.
  intros breakdown. subst breakdown. unfold getEvidenceTypes_body.
  destruct (buildEvidenceMap_spec ps) as [Hok Hsum].
  pose proof (fun t e => nestedCount_build t e ps) as Hcount.
  pose proof (fun t e n => nestedCount_In t e n _ Hok) as Hin.
  destruct Hok as [Hnd Hall]. fold (allEvidence ps) in Hsum.
  set (m := buildEvidenceMap ps) in *. clearbody m.
  split; [|split; [|split; [|split]]].
  - rewrite map_map. simpl. exact Hnd.
  - rewrite <- Hsum. clear. induction m as [| [k inner] m IH]; simpl;
      [reflexivity|]. now rewrite IH, sumValues_entries.
  - clear Hnd Hsum Hcount Hin.
    induction Hall as [| [k inner] m [Hne [Hk Hpos]] _ IH];
      simpl; constructor; [|exact IH]. simpl in *.
    split; [destruct inner; [contradiction|discriminate]|].
    split; [now rewrite names_entries|].
    clear -Hpos. induction Hpos as [| [k' n] inner H _ IH]; simpl;
      constructor; auto.
  - intros t e n. rewrite <- (Hcount t e), <- Hin. split.
    + intros (g & Hg & <- & Hc). apply in_map_iff in Hg as ([k inner] & <- & Hg).
      simpl in *. apply in_map_iff in Hc as ([e' n'] & [= -> ->] & Hc).
      now exists inner.
    + intros (inner & Hg & Hc).
      exists {| eg_name := t; eg_children := map toNamedValue inner |}.
      split; [apply in_map_iff; now exists (t, inner)|].
      split; [reflexivity|]. simpl. apply in_map_iff. now exists (e, n).
  - intros ev Hev. split.
    + unfold evidenceCount.
      assert (H : In ev (List.filter
                           (evidenceOf (evidenceType ev) (eventTypeOrUnknown ev))
                           (allEvidence ps))).
      { apply filter_In. split; [exact Hev|]. unfold evidenceOf.
        now rewrite !String.eqb_refl. }
      destruct (List.filter _ _); [destruct H|simpl; lia].
    + unfold eventTypeOrUnknown. now intros [-> | ->].
Qed.

End EvidenceProperties.
